(** * Compliance checker

    A shallow embedding of [check_python_project_standards.py]: the data
    classes [ComplianceCheck] and [ComplianceReport], the rule functions over a
    parsed [pyproject.toml], the local and the GitHub checker, and the
    detection of the repository type.

    Conventions of the embedding.
    - A Python [str] is a [string]; one [ascii] is one character, so the
      texts covered are those whose code points lie below 256.  The
      character classes of [str.lower], [str.strip] and of the regular
      expression class [\w] are the ones Python uses on that range.
    - A Python [int] is a [Z]; a Python [float] is a binary64 [spec_float].
    - Python objects reached through the parsed manifest or through a JSON
      answer are dynamically typed; they are the inhabitants of [value], and
      every operation the source applies to them raises what Python raises
      when the object has the wrong type.
    - A call that can raise returns a [result].
    - What the program writes goes through the operations of a [console]
      (standard output, standard error, the file of [--output]), each of
      which can raise.  The messages that the two [load_config] print in
      verbose mode are left out. *)

From Stdlib Require Import ZArith List String Ascii Bool Lia DecimalString.
From Stdlib Require Import SpecFloat Sorted Permutation.
Import ListNotations.

Open Scope string_scope.
Open Scope Z_scope.

(** ** Exceptions and results *)

Inductive exn : Type :=
| TypeError
| KeyError
| AttributeError
| ValueError
| ZeroDivisionError
| OSError
| RuntimeError
| AssertionError.

Inductive result (A : Type) : Type :=
| Ok (a : A)
| Raise (e : exn).

Arguments Ok {A} a.
Arguments Raise {A} e.

Definition bind {A B : Type} (r : result A) (k : A -> result B) : result B :=
  match r with
  | Ok a => k a
  | Raise e => Raise e
  end.

Notation "x <- c ;; k" := (bind c (fun x => k))
  (at level 61, c at next level, right associativity).

(** [a and b], [a or b] on conditions that may raise: the right operand is
    evaluated only when the left one does not decide. *)
Definition and_then (a b : result bool) : result bool :=
  x <- a ;; if x then b else Ok false.

Definition or_else (a b : result bool) : result bool :=
  x <- a ;; if x then Ok true else b.

Definition not_ (a : result bool) : result bool :=
  x <- a ;; Ok (negb x).

(** ** Text *)

(** [needle in hay] on two strings. *)
Fixpoint contains (needle hay : string) : bool :=
  prefix needle hay ||
  match hay with
  | EmptyString => false
  | String _ rest => contains needle rest
  end.

Definition in_range (lo hi : nat) (c : ascii) : bool :=
  (Nat.leb lo (nat_of_ascii c) && Nat.leb (nat_of_ascii c) hi)%bool.

(** The characters below 256 that [str.lower] changes are [A-Z] and the
    capital letters 0xC0-0xDE without the multiplication sign 0xD7; each
    moves up by 32. *)
Definition lower_char (c : ascii) : ascii :=
  if (in_range 65 90 c || (in_range 192 222 c && negb (Nat.eqb (nat_of_ascii c) 215)))%bool
  then ascii_of_nat (nat_of_ascii c + 32)
  else c.

Fixpoint lower (s : string) : string :=
  match s with
  | EmptyString => EmptyString
  | String c rest => String (lower_char c) (lower rest)
  end.

(** What [str.strip()] removes. *)
Definition is_space (c : ascii) : bool :=
  (in_range 9 13 c || in_range 28 32 c
   || Nat.eqb (nat_of_ascii c) 133 || Nat.eqb (nat_of_ascii c) 160)%bool.

Fixpoint lstrip (p : ascii -> bool) (s : string) : string :=
  match s with
  | EmptyString => EmptyString
  | String c rest => if p c then lstrip p rest else s
  end.

Fixpoint rstrip (p : ascii -> bool) (s : string) : string :=
  match s with
  | EmptyString => EmptyString
  | String c rest =>
      match rstrip p rest with
      | EmptyString => if p c then EmptyString else String c EmptyString
      | kept => String c kept
      end
  end.

Definition strip_chars (p : ascii -> bool) (s : string) : string :=
  rstrip p (lstrip p s).

Definition strip (s : string) : string := strip_chars is_space s.

(** ** Python objects *)

(** What the TOML and the JSON parser build: [None] (JSON only), booleans,
    integers, floats, strings, dates and times (TOML only), lists, and
    tables with string keys, which keep the order of their entries. *)
#[warnings="-register-all"]
Inductive value : Type :=
| VNone
| VBool (b : bool)
| VInt (n : Z)
| VFloat (x : spec_float)
| VStr (s : string)
| VDate (iso : string)
| VList (items : list value)
| VDict (entries : list (string * value)).

(** A [dict] keeps its keys in insertion order. *)
Definition dict : Type := list (string * value).

Fixpoint lookup (key : string) (d : dict) : option value :=
  match d with
  | [] => None
  | (k, v) :: rest => if String.eqb k key then Some v else lookup key rest
  end.

Definition has_key (key : string) (d : dict) : bool :=
  match lookup key d with
  | Some _ => true
  | None => false
  end.

(** [v == s] for a string [s]: only an equal [str] compares equal. *)
Definition is_str (s : string) (v : value) : bool :=
  match v with
  | VStr t => String.eqb t s
  | _ => false
  end.

(** [key in container] for a string [key]. *)
Definition str_in (key : string) (container : value) : result bool :=
  match container with
  | VStr s => Ok (contains key s)
  | VList items => Ok (existsb (is_str key) items)
  | VDict d => Ok (has_key key d)
  | VNone | VBool _ | VInt _ | VFloat _ | VDate _ => Raise TypeError
  end.

(** [container[key]] for a string [key]. *)
Definition getitem (container : value) (key : string) : result value :=
  match container with
  | VDict d =>
      match lookup key d with
      | Some v => Ok v
      | None => Raise KeyError
      end
  | _ => Raise TypeError
  end.

(** [obj.get(key, default)]: only a [dict] has the method. *)
Definition get (obj : value) (key : string) (default : value) : result value :=
  match obj with
  | VDict d =>
      match lookup key d with
      | Some v => Ok v
      | None => Ok default
      end
  | _ => Raise AttributeError
  end.

(** The objects a [for] loop visits. *)
Fixpoint chars (s : string) : list value :=
  match s with
  | EmptyString => []
  | String c rest => VStr (String c EmptyString) :: chars rest
  end.

Definition iterate (v : value) : result (list value) :=
  match v with
  | VList items => Ok items
  | VDict d => Ok (map (fun kv => VStr (fst kv)) d)
  | VStr s => Ok (chars s)
  | VNone | VBool _ | VInt _ | VFloat _ | VDate _ => Raise TypeError
  end.

(** [obj.lower()]: only a [str] has the method. *)
Definition lower_of (obj : value) : result string :=
  match obj with
  | VStr s => Ok (lower s)
  | _ => Raise AttributeError
  end.

(** ** Numbers *)

Definition prec : Z := 53.
Definition emax : Z := 1024.

(** The float an [int] converts to, when the conversion is exact. *)
Definition float_of_int (n : Z) : spec_float :=
  binary_normalize prec emax n 0 false.

(** An [int] as an exact dyadic number (mantissa not yet rounded). *)
Definition exact_float (n : Z) : spec_float :=
  match n with
  | Z0 => S754_zero false
  | Zpos p => S754_finite false p 0
  | Zneg p => S754_finite true p 0
  end.

(** [a / b] on two [int]s: the correctly rounded quotient.  (Python raises
    [OverflowError] when the quotient exceeds the floats; a count divided by
    a larger count, the only use below, stays within 0 and 1.) *)
Definition int_truediv (a b : Z) : result spec_float :=
  if Z.eqb b 0 then Raise ZeroDivisionError
  else Ok (SFdiv prec emax (exact_float a) (exact_float b)).

(** [x * n] for a float [x] and a small [int] [n]. *)
Definition float_mul_int (x : spec_float) (n : Z) : spec_float :=
  SFmul prec emax x (float_of_int n).

(** [x >= y] on floats. *)
Definition float_ge (x y : spec_float) : bool := SFleb y x.

(** [v == n] for an [int] [n]. *)
Definition eq_int (v : value) (n : Z) : bool :=
  match v with
  | VInt m => Z.eqb m n
  | VBool b => Z.eqb (if b then 1 else 0) n
  | VFloat (S754_zero _) => Z.eqb n 0
  | VFloat (S754_finite s m e) =>
      let mz := if s then Zneg m else Zpos m in
      match e with
      | Zneg k => Z.eqb mz (n * Z.pow_pos 2 k)
      | _ => Z.eqb (mz * 2 ^ e) n
      end
  | _ => false
  end.

(** Truth value of an object. *)
Definition truthy (v : value) : bool :=
  match v with
  | VNone => false
  | VBool b => b
  | VInt n => negb (Z.eqb n 0)
  | VFloat (S754_zero _) => false
  | VFloat _ => true
  | VStr s => negb (String.eqb s "")
  | VDate _ => true
  | VList items => match items with [] => false | _ => true end
  | VDict d => match d with [] => false | _ => true end
  end.

(** ** Constants *)

Definition CURRENT_PYTHON_VERSION : string := "3.13".
Definition ACCEPTABLE_PYTHON_VERSION : string := "3.12".
Definition MIN_PYTHON_VERSION : string := "3.9".

Definition SCORE_EXCELLENT : spec_float := float_of_int 90.
Definition SCORE_GOOD : spec_float := float_of_int 75.

Definition REQUIRED_KEYWORDS : list string :=
  ["python-lib"; "python-stack"; "python-app"; "python-shared"; "composite-app"].

(** ** Data classes *)

Record ComplianceCheck : Type := mk_check {
  name : string;
  category : string;
  passed : bool;
  message : string;
  severity : string
}.

Record ComplianceReport : Type := {
  repo_identifier : string;
  repo_name : string;
  repo_type : string;
  checks : list ComplianceCheck;
  metadata : dict
}.

(** [sum(1 for x in xs if p x)] *)
Definition count_if {A : Type} (p : A -> bool) (xs : list A) : Z :=
  fold_left (fun acc x => if p x then acc + 1 else acc) xs 0.

Definition total_checks (r : ComplianceReport) : Z :=
  Z.of_nat (List.length (checks r)).

Definition passed_checks (r : ComplianceReport) : Z :=
  count_if passed (checks r).

Definition failed_checks (r : ComplianceReport) : Z :=
  count_if (fun c => negb (passed c)) (checks r).

Definition calculate_score (r : ComplianceReport) : result spec_float :=
  if Z.eqb (total_checks r) 0 then Ok (S754_zero false)
  else
    q <- int_truediv (passed_checks r) (total_checks r) ;;
    Ok (float_mul_int q 100).

Definition add_check (r : ComplianceReport)
    (n c : string) (p : bool) (m s : string) : ComplianceReport :=
  {| repo_identifier := repo_identifier r;
     repo_name := repo_name r;
     repo_type := repo_type r;
     checks := checks r ++ [mk_check n c p m s];
     metadata := metadata r |}.

Definition new_report (identifier rname rtype : string) : ComplianceReport :=
  {| repo_identifier := identifier; repo_name := rname; repo_type := rtype;
     checks := []; metadata := [] |}.


(** ** Rule functions *)

(** [sep.join(parts)] *)
Fixpoint join (sep : string) (parts : list string) : string :=
  match parts with
  | [] => ""
  | [p] => p
  | p :: rest => p ++ sep ++ join sep rest
  end.

(** [item in names] for a list of strings [names]. *)
Definition in_str_list (item : value) (names : list string) : bool :=
  existsb (fun n => is_str n item) names.

Section Rules.

(** [str(obj)] of an object that is not a [str] (the text of a number, a
    list, a table, a date), as the interpreter prints it. *)
Variable builtin_str : value -> string.

(** [str(obj)], which is also what an f-string puts for [{obj}]. *)
Definition to_str (obj : value) : string :=
  match obj with
  | VStr s => s
  | _ => builtin_str obj
  end.

(** The first block of [check_python_version]: the version requirement the
    manifest declares, looked up in [project] first and in
    [tool.poetry.dependencies] second; [None] when neither table is there. *)
Definition located_version (config : dict) : result (option value) :=
  in_project <-
    and_then (str_in "project" (VDict config))
             (project <- getitem (VDict config) "project" ;;
              str_in "requires-python" project) ;;
  if in_project then
    project <- getitem (VDict config) "project" ;;
    version <- getitem project "requires-python" ;;
    Ok (Some version)
  else
    in_poetry <-
      and_then (str_in "tool" (VDict config))
        (and_then (tool <- getitem (VDict config) "tool" ;; str_in "poetry" tool)
                  (tool <- getitem (VDict config) "tool" ;;
                   poetry <- getitem tool "poetry" ;;
                   str_in "dependencies" poetry)) ;;
    if in_poetry then
      tool <- getitem (VDict config) "tool" ;;
      poetry <- getitem tool "poetry" ;;
      deps <- getitem poetry "dependencies" ;;
      version <- get deps "python" (VStr "") ;;
      Ok (Some version)
    else Ok None.

Definition check_python_version (config : dict) : result ComplianceCheck :=
  if negb (truthy (VDict config)) then
    Ok (mk_check "Python Version" "Configuration" false "pyproject.toml not found or invalid" "error")
  else
    located <- located_version config ;;
    match located with
    | None =>
        Ok (mk_check "Python Version" "Configuration" false
              "Python version not specified in pyproject.toml" "error")
    | Some version =>
        is_current <- str_in CURRENT_PYTHON_VERSION version ;;
        if is_current then
          Ok (mk_check "Python Version" "Configuration" true
                ("Uses Python " ++ to_str version ++ " (current standard)") "info")
        else
          is_acceptable <- str_in ACCEPTABLE_PYTHON_VERSION version ;;
          if is_acceptable then
            Ok (mk_check "Python Version" "Configuration" false
                  ("Uses Python " ++ to_str version ++ " (acceptable but should upgrade to >="
                     ++ CURRENT_PYTHON_VERSION ++ ")") "warning")
          else
            Ok (mk_check "Python Version" "Configuration" false
                  ("Uses Python " ++ to_str version ++ " (should be >="
                     ++ CURRENT_PYTHON_VERSION ++ ")") "error")
    end.

(** The three plugins every Poetry project must require. *)
Definition required_plugins : list string :=
  ["poetry-plugin-export"; "poetry-plugin-shell"; "ld-poetry-export-group-plugin"].

(** The loop over [required_plugins]: one result per plugin. *)
Fixpoint plugin_checks (plugins : value) (required : list string)
    : result (list ComplianceCheck) :=
  match required with
  | [] => Ok []
  | plugin :: rest =>
      present <- str_in plugin plugins ;;
      others <- plugin_checks plugins rest ;;
      Ok ((if present
           then mk_check ("Poetry Plugin: " ++ plugin) "Configuration" true
                  "Required plugin configured" "info"
           else mk_check ("Poetry Plugin: " ++ plugin) "Configuration" false
                  "Missing required plugin" "warning") :: others)
  end.

(** [">=2.1" in v or ">=2.0" in v or "^2" in v] *)
Definition poetry_2 (v : value) : result bool :=
  or_else (str_in ">=2.1" v) (or_else (str_in ">=2.0" v) (str_in "^2" v)).

(** The loop over [build-system.requires]: it stops at the first
    requirement that mentions poetry, and appends one result for it. *)
Fixpoint build_system_check (requires : list value) : result (option ComplianceCheck) :=
  match requires with
  | [] => Ok None
  | req :: rest =>
      lowered <- lower_of req ;;
      if contains "poetry" lowered then
        recent <- poetry_2 req ;;
        if recent then
          Ok (Some (mk_check "Poetry Version" "Configuration" true "Poetry >=2.1 specified" "info"))
        else
          Ok (Some (mk_check "Poetry Version" "Configuration" false
                      "Should specify Poetry >=2.1" "warning"))
      else build_system_check rest
  end.

Definition check_poetry_configuration (config : dict) : result (list ComplianceCheck) :=
  if negb (truthy (VDict config)) then
    Ok [mk_check "Poetry Version" "Configuration" false "No pyproject.toml found" "error"]
  else
    no_poetry <-
      or_else (not_ (str_in "tool" (VDict config)))
              (not_ (tool <- getitem (VDict config) "tool" ;; str_in "poetry" tool)) ;;
    if no_poetry then
      Ok [mk_check "Poetry Version" "Configuration" false "Not using Poetry" "warning"]
    else
      tool <- getitem (VDict config) "tool" ;;
      poetry_config <- getitem tool "poetry" ;;
      (* plugins *)
      has_plugins <- str_in "requires-plugins" poetry_config ;;
      checks1 <-
        (if has_plugins then
           plugins <- getitem poetry_config "requires-plugins" ;;
           plugin_checks plugins required_plugins
         else Ok []) ;;
      (* tool.poetry.requires-poetry *)
      has_version <- str_in "requires-poetry" poetry_config ;;
      checks2 <-
        (if has_version then
           version <- getitem poetry_config "requires-poetry" ;;
           recent <- poetry_2 version ;;
           if recent then
             Ok [mk_check "Poetry Version" "Configuration" true
                   ("Poetry " ++ to_str version ++ " specified") "info"]
           else
             Ok [mk_check "Poetry Version" "Configuration" false
                   "Should specify Poetry >=2.1" "warning"]
         else Ok []) ;;
      let poetry_found := has_version in
      (* build-system.requires *)
      checks3 <-
        (if (negb poetry_found && has_key "build-system" config)%bool then
           build_system <- getitem (VDict config) "build-system" ;;
           requires <- get build_system "requires" (VList []) ;;
           reqs <- iterate requires ;;
           found <- build_system_check reqs ;;
           match found with
           | Some c => Ok [c]
           | None => Ok []
           end
         else Ok []) ;;
      let poetry_found := (poetry_found || match checks3 with [] => false | _ => true end)%bool in
      Ok (checks1 ++ checks2 ++ checks3 ++
          (if poetry_found then []
           else [mk_check "Poetry Version" "Configuration" false
                   "Should specify Poetry >=2.1" "warning"]))%list.

(** The first half of [check_code_quality_tools]: linter and formatter. *)
Definition linter_formatter_checks (tool : value) : result (list ComplianceCheck) :=
  has_ruff <- str_in "ruff" tool ;;
  if has_ruff then
    ruff_config <- getitem tool "ruff" ;;
    target <- get ruff_config "target-version" (VStr "") ;;
    modern <- or_else (str_in "py313" target) (str_in "py312" target) ;;
    let primary :=
      if modern then
        mk_check "Linter/Formatter" "Code Quality" true
          ("Ruff configured with target " ++ to_str target) "info"
      else
        mk_check "Linter/Formatter" "Code Quality" false
          "Ruff configured but with outdated target version" "warning" in
    (* line length *)
    is_120 <-
      and_then (str_in "line-length" ruff_config)
               (len <- getitem ruff_config "line-length" ;; Ok (eq_int len 120)) ;;
    let line_length :=
      if is_120
      then [mk_check "Line Length" "Code Quality" true "Line length set to 120" "info"]
      else [] in
    (* quote style *)
    has_quote <-
      and_then (str_in "format" ruff_config)
               (format <- getitem ruff_config "format" ;; str_in "quote-style" format) ;;
    let quote_style :=
      if has_quote
      then [mk_check "Quote Style" "Code Quality" true "Quote style configured" "info"]
      else [] in
    Ok (primary :: line_length ++ quote_style)%list
  else
    has_black <- str_in "black" tool ;;
    if has_black then
      Ok [mk_check "Linter/Formatter" "Code Quality" false
            "Uses Black (should migrate to Ruff)" "warning"]
    else
      Ok [mk_check "Linter/Formatter" "Code Quality" false
            "No linter/formatter configured" "error"].

(** The second half of [check_code_quality_tools]: the type checker. *)
Definition type_checker_checks (tool : value) : result (list ComplianceCheck) :=
  has_pyright <- or_else (str_in "pyright" tool) (str_in "basedpyright" tool) ;;
  if has_pyright then
    based <- get tool "basedpyright" (VDict []) ;;
    pyright_tool <- get tool "pyright" based ;;
    py_version <- get pyright_tool "pythonVersion" (VStr "") ;;
    _ <- str_in "basedpyright" tool ;;
    is_current <- str_in CURRENT_PYTHON_VERSION py_version ;;
    if is_current then
      Ok [mk_check "Type Checker" "Code Quality" true
            ("Pyright configured for Python " ++ to_str py_version) "info"]
    else
      Ok [mk_check "Type Checker" "Code Quality" false
            ("Pyright not configured for Python " ++ CURRENT_PYTHON_VERSION) "warning"]
  else
    has_mypy <- str_in "mypy" tool ;;
    if has_mypy then
      Ok [mk_check "Type Checker" "Code Quality" false "Uses mypy (consider pyright)" "warning"]
    else
      Ok [mk_check "Type Checker" "Code Quality" false "Pyright not configured" "warning"].

Definition check_code_quality_tools (config : dict) : result (list ComplianceCheck) :=
  if negb (truthy (VDict config)) then
    Ok [mk_check "Linter/Formatter" "Code Quality" false "No configuration found" "error";
        mk_check "Type Checker" "Code Quality" false "No configuration found" "error"]
  else
    tool <- get (VDict config) "tool" (VDict []) ;;
    linter <- linter_formatter_checks tool ;;
    checker <- type_checker_checks tool ;;
    Ok (linter ++ checker)%list.

Definition check_testing_configuration (config : dict) : result (list ComplianceCheck) :=
  if negb (truthy (VDict config)) then
    Ok [mk_check "Test Framework" "Testing" false "No configuration found" "error"]
  else
    tool <- get (VDict config) "tool" (VDict []) ;;
    has_pytest <- str_in "pytest" tool ;;
    if has_pytest then
      pytest_config <- get tool "pytest" (VDict []) ;;
      has_ini <- str_in "ini_options" pytest_config ;;
      addopts <-
        (if has_ini then
           ini_options <- get pytest_config "ini_options" (VDict []) ;;
           opts <- get ini_options "addopts" (VStr "") ;;
           Ok (to_str opts)
         else Ok "") ;;
      covered <- or_else (str_in "coverage" tool) (Ok (contains "--cov" addopts)) ;;
      Ok [mk_check "Test Framework" "Testing" true "Pytest configured" "info";
          if covered
          then mk_check "Test Coverage" "Testing" true "Coverage reporting configured" "info"
          else mk_check "Test Coverage" "Testing" false "Coverage reporting not configured" "warning"]
    else
      Ok [mk_check "Test Framework" "Testing" false "Pytest not configured" "error"].

(** The middle block of [check_repository_keywords]: the keywords entry of
    [project] when the manifest has that table, else the one of
    [tool.poetry], else the empty list. *)
Definition gathered_keywords (config : dict) : result value :=
  if has_key "project" config then
    project <- getitem (VDict config) "project" ;;
    get project "keywords" (VList [])
  else
    in_poetry <-
      and_then (str_in "tool" (VDict config))
               (tool <- getitem (VDict config) "tool" ;; str_in "poetry" tool) ;;
    if in_poetry then
      tool <- getitem (VDict config) "tool" ;;
      poetry <- getitem tool "poetry" ;;
      get poetry "keywords" (VList [])
    else Ok (VList []).

Definition check_repository_keywords (config : dict) : result ComplianceCheck :=
  if negb (truthy (VDict config)) then
    Ok (mk_check "Repository Keywords" "Configuration" false "No pyproject.toml found" "error")
  else
    keywords <- gathered_keywords config ;;
    kws <- iterate keywords ;;
    let has_required := existsb (fun kw => in_str_list kw REQUIRED_KEYWORDS) kws in
    if has_required then
      Ok (mk_check "Repository Keywords" "Configuration" true "Has required keyword(s)" "info")
    else
      Ok (mk_check "Repository Keywords" "Configuration" false
            ("Missing required keyword. Should have one of: " ++ join ", " REQUIRED_KEYWORDS)
            "error").

(** [for check in found: report.add_check(...)] *)
Definition add_all (r : ComplianceReport) (found : list ComplianceCheck) : ComplianceReport :=
  fold_left (fun acc c => add_check acc (name c) (category c) (passed c) (message c) (severity c))
            found r.

Definition run_standard_checks (config : dict) (r : ComplianceReport) : result ComplianceReport :=
  c <- check_python_version config ;;
  let r := add_all r [c] in
  cs <- check_poetry_configuration config ;;
  let r := add_all r cs in
  cs <- check_code_quality_tools config ;;
  let r := add_all r cs in
  cs <- check_testing_configuration config ;;
  let r := add_all r cs in
  c <- check_repository_keywords config ;;
  Ok (add_all r [c]).

End Rules.

(** ** More text: [replace], [split], character classes *)

(** [s.replace(old, new)] for a non-empty [old]: occurrences are replaced
    from the left and do not overlap; [skip] counts the characters of the
    occurrence just replaced that are still to be dropped. *)
Fixpoint replace_from (old new : string) (skip : nat) (s : string) : string :=
  match s with
  | EmptyString => EmptyString
  | String c rest =>
      match skip with
      | S k => replace_from old new k rest
      | O =>
          if prefix old s
          then new ++ replace_from old new (String.length old - 1) rest
          else String c (replace_from old new 0 rest)
      end
  end.

Definition replace (old new s : string) : string := replace_from old new 0 s.

(** [s.split(sep)] for a separator of one character. *)
Fixpoint split (sep : ascii) (s : string) : list string :=
  match s with
  | EmptyString => [EmptyString]
  | String c rest =>
      if Ascii.eqb c sep then EmptyString :: split sep rest
      else
        match split sep rest with
        | [] => [String c EmptyString]
        | first :: others => String c first :: others
        end
  end.

Definition newline : ascii := ascii_of_nat 10.

(** The class [\w] on the characters below 256: digits, letters, the
    underscore, and the letters and numerals of the upper half. *)
Definition is_word (c : ascii) : bool :=
  (in_range 48 57 c || in_range 65 90 c || Nat.eqb (nat_of_ascii c) 95 || in_range 97 122 c
   || Nat.eqb (nat_of_ascii c) 170 || in_range 178 179 c || Nat.eqb (nat_of_ascii c) 181
   || in_range 185 186 c || in_range 188 190 c || in_range 192 214 c
   || in_range 216 246 c || in_range 248 255 c)%bool.

(** ** Local checker *)

(** A resolved path, as the list of its components below the root. *)
Definition path : Type := list string.

(** [str(path)] *)
Definition path_str (p : path) : string := "/" ++ join "/" p.

(** [path.name] *)
Definition path_name (p : path) : string := last p "".

(** [path / child] *)
Definition child (p : path) (c : string) : path := (p ++ [c])%list.

(** The SonarCloud block, which both checkers end with. *)
Definition sonar_check (has_sonar : bool) (config : dict) (r : ComplianceReport)
    : result ComplianceReport :=
  if has_sonar then
    if truthy (VDict config) then
      in_project <-
        and_then (str_in "project" (VDict config))
                 (project <- getitem (VDict config) "project" ;;
                  str_in "requires-python" project) ;;
      py_version <-
        (if in_project then
           project <- getitem (VDict config) "project" ;;
           getitem project "requires-python"
         else
           in_poetry <-
             and_then (str_in "tool" (VDict config))
                      (tool <- getitem (VDict config) "tool" ;; str_in "poetry" tool) ;;
           if in_poetry then
             tool <- getitem (VDict config) "tool" ;;
             poetry <- getitem tool "poetry" ;;
             deps <- get poetry "dependencies" (VDict []) ;;
             get deps "python" (VStr "")
           else Ok VNone) ;;
      current <-
        and_then (Ok (truthy py_version)) (str_in CURRENT_PYTHON_VERSION py_version) ;;
      if current then
        Ok (add_check r "SonarCloud" "Code Quality" true
              ("SonarCloud configured for Python " ++ CURRENT_PYTHON_VERSION) "info")
      else
        Ok (add_check r "SonarCloud" "Code Quality" false
              ("SonarCloud configured but not for Python " ++ CURRENT_PYTHON_VERSION) "warning")
    else
      Ok (add_check r "SonarCloud" "Code Quality" true "SonarCloud configuration found" "info")
  else
    Ok (add_check r "SonarCloud" "Code Quality" false "SonarCloud not configured" "warning").

(** [config.get('tool', {}).get('poetry')] as a condition. *)
Definition uses_poetry (config : dict) : result bool :=
  tool <- get (VDict config) "tool" (VDict []) ;;
  poetry <- get tool "poetry" VNone ;;
  Ok (truthy poetry).

Section Local.

Variable builtin_str : value -> string.

(** The file system the scan reads, and the TOML parser.  Every query of
    the file system can raise: [Path.exists] and [Path.is_dir] answer false
    for a missing path and raise the [OSError] of any other failure (a name
    that is too long, a directory that may not be searched); [Path.resolve]
    raises on a loop of symbolic links. *)
Variable resolve : string -> result path.             (* [Path(s).resolve()] *)
Variable exists_ : path -> result bool.               (* [p.exists()] *)
Variable is_dir : path -> result bool.                (* [p.is_dir()] *)
Variable glob : path -> string -> result (list string). (* names of [list(p.glob(pattern))] *)
Variable read_text : path -> result string.           (* [p.read_text()] *)
Variable toml_loads : string -> option dict.          (* [None] when the parser raises *)

Definition local_load_config (p : path) : result dict :=
  let pyproject_path := child p "pyproject.toml" in
  found <- exists_ pyproject_path ;;
  if negb found then Ok []
  else
    match read_text pyproject_path with
    | Ok text =>
        match toml_loads text with
        | Some config => Ok config
        | None => Ok []
        end
    | Raise _ => Ok []
    end.

(** The loop that looks for SonarCloud in the text of the workflows. *)
Fixpoint sonar_in_workflows (dir : path) (names : list string) : result bool :=
  match names with
  | [] => Ok false
  | wf :: rest =>
      text <- read_text (child dir wf) ;;
      let content := lower text in
      if (contains "sonarcloud" content || contains "sonar" content)%bool then Ok true
      else sonar_in_workflows dir rest
  end.

(** [list(d.glob('*.yml')) + list(d.glob('*.yaml'))] *)
Definition workflow_files (dir : path) : result (list string) :=
  yml <- glob dir "*.yml" ;;
  yaml <- glob dir "*.yaml" ;;
  Ok (yml ++ yaml)%list.

Definition local_check_additional_files (p : path) (config : dict) (r : ComplianceReport)
    : result ComplianceReport :=
  (* README.md *)
  readme <- exists_ (child p "README.md") ;;
  let r :=
    if readme
    then add_check r "README.md" "Documentation" true "README.md present" "info"
    else add_check r "README.md" "Documentation" false "README.md missing" "error" in
  (* SRD.md *)
  srd <- exists_ (child p "SRD.md") ;;
  let r :=
    if srd
    then add_check r "SRD.md" "Documentation" true "System Readiness Document present" "info"
    else add_check r "SRD.md" "Documentation" false "System Readiness Document missing" "error" in
  (* poetry.lock *)
  poetry <- uses_poetry config ;;
  r <-
    (if poetry then
       lock <- exists_ (child p "poetry.lock") ;;
       if lock
       then Ok (add_check r "Poetry Lock File" "Configuration" true "poetry.lock present" "info")
       else Ok (add_check r "Poetry Lock File" "Configuration" false "poetry.lock missing" "error")
     else Ok r) ;;
  (* workflows *)
  let workflows_path := child (child p ".github") "workflows" in
  has_workflows <- exists_ workflows_path ;;
  r <-
    (if has_workflows then
       files <- workflow_files workflows_path ;;
       manager <- exists_ (child workflows_path "PythonManager.yml") ;;
       let r :=
         if manager
         then add_check r "Python Manager Workflow" "CI/CD" true
                "PythonManager.yml workflow present" "info"
         else add_check r "Python Manager Workflow" "CI/CD" false
                "Missing PythonManager.yml workflow" "error" in
       let has_ruff_workflow :=
         existsb (fun f => (contains "ruff" (lower f) || contains "format" (lower f))%bool)
                 files in
       if has_ruff_workflow
       then Ok (add_check r "Ruff Formatting Workflow" "CI/CD" true
                  "Ruff auto-formatting workflow present" "info")
       else Ok (add_check r "Ruff Formatting Workflow" "CI/CD" false
                  "Missing Ruff auto-formatting workflow" "warning")
     else
       Ok (add_check
             (add_check r "Python Manager Workflow" "CI/CD" false
                "No .github/workflows directory" "error")
             "Ruff Formatting Workflow" "CI/CD" false "No .github/workflows directory"
             "warning")) ;;
  (* optional documents *)
  claude <- exists_ (child p "CLAUDE.md") ;;
  let r :=
    if claude
    then add_check r "CLAUDE.md" "Documentation" true
           "AI assistant instructions present (optional)" "info"
    else r in
  tracking <- exists_ (child (child p ".ai") "README.md") ;;
  let r :=
    if tracking
    then add_check r "AI Tracking" "Documentation" true
           "AI development tracking configured (optional)" "info"
    else r in
  (* SonarCloud *)
  has_sonar <-
    or_else (exists_ (child p "sonar-project.properties"))
            (exists_ (child p ".sonarcloud.properties")) ;;
  has_workflows <- exists_ workflows_path ;;
  in_workflows <-
    (if has_workflows then
       files <- workflow_files workflows_path ;;
       sonar_in_workflows workflows_path files
     else Ok false) ;;
  sonar_check (has_sonar || in_workflows)%bool config r.

Definition local_check_repository (path_string : string) : result ComplianceReport :=
  p <- resolve path_string ;;
  let r := new_report (path_str p) (path_name p) "local" in
  unusable <- or_else (not_ (exists_ p)) (not_ (is_dir p)) ;;
  if unusable then
    Ok (add_check r "Repository Access" "Infrastructure" false
          ("Path does not exist or is not a directory: " ++ path_str p) "error")
  else
    config <- local_load_config p ;;
    r <- run_standard_checks builtin_str config r ;;
    local_check_additional_files p config r.

End Local.

(** ** GitHub checker *)

(** How a call of [subprocess.run(..., check=True, timeout=10)] ends. *)
Inductive process : Type :=
| Completed (stdout : string)
| CalledProcessError
| TimeoutExpired
| LaunchError.   (* the program cannot be started: raised as an [OSError] *)

Record GitHubChecker : Type := {
  auth_method : string;
  token : option string;
  use_token : bool
}.

(** Truth value of an optional text ([None] and [''] are false). *)
Definition some_text (t : option string) : bool :=
  match t with
  | Some s => negb (String.eqb s "")
  | None => false
  end.

(** [a or b] on optional texts. *)
Definition or_text (a b : option string) : option string :=
  if some_text a then a else b.

Section GitHub.

Variable builtin_str : value -> string.

(** The outside world of a remote scan: the state [world] that the [gh]
    program reads and changes, the environment variables, the programs on
    the search path, and the parsers and decoders of the standard library. *)
Variable world : Type.
Variable run_gh : option string -> list string -> world -> process * world.
Variable environ : string -> option string.
Variable which : string -> bool.
Variable toml_loads : string -> option dict.   (* [None] when the parser raises *)
Variable json_loads : string -> option value.  (* [None] on [JSONDecodeError] *)
Variable b64decode_utf8 : string -> option string. (* [None] when decoding raises *)

(** Computations that call [gh]. *)
Definition io (A : Type) : Type := world -> result (A * world).

Definition ret {A : Type} (a : A) : io A := fun w => Ok (a, w).

Definition lift {A : Type} (r : result A) : io A :=
  fun w => a <- r ;; Ok (a, w).

Definition bind_io {A B : Type} (c : io A) (k : A -> io B) : io B :=
  fun w => match c w with
           | Ok (a, w') => k a w'
           | Raise e => Raise e
           end.

Notation "x <~ c ;; k" := (bind_io c (fun x => k))
  (at level 61, c at next level, right associativity).

Definition setup_authentication (method : string) : result GitHubChecker :=
  if String.eqb method "token" then
    let tok := or_text (environ "GITHUB_TOKEN") (environ "GH_TOKEN") in
    if negb (some_text tok) then Raise ValueError
    else Ok {| auth_method := method; token := tok; use_token := true |}
  else if String.eqb method "gh" then
    if negb (which "gh") then Raise ValueError
    else Ok {| auth_method := method; token := None; use_token := false |}
  else
    let tok := or_text (environ "GITHUB_TOKEN") (environ "GH_TOKEN") in
    if (negb (some_text tok) && negb (which "gh"))%bool then Raise ValueError
    else Ok {| auth_method := method; token := tok; use_token := some_text tok |}.

Variable self : GitHubChecker.

(** The token that [_run_gh_command] puts in the environment of [gh]. *)
Definition env_token : option string :=
  if (use_token self && some_text (token self))%bool then token self else None.

Definition run_gh_command (args : list string) : io (option string) :=
  fun w =>
    match run_gh env_token args w with
    | (Completed stdout, w') => Ok (Some stdout, w')
    | (CalledProcessError, w') => Ok (None, w')
    | (TimeoutExpired, w') => Ok (None, w')
    | (LaunchError, _) => Raise OSError
    end.

Definition contents_url (repo file : string) : string :=
  "/repos/" ++ repo ++ "/contents/" ++ file.

Definition nonempty (s : string) : bool := negb (String.eqb s "").

Definition get_file_content (repo file : string) : io (option string) :=
  content <~ run_gh_command
    ["api"; contents_url repo file; "-q"; ".content";
     "--header"; "Accept: application/vnd.github.raw"] ;;
  let raw_content : io (option string) :=
    content <~ run_gh_command
      ["api"; contents_url repo file; "--header"; "Accept: application/vnd.github.raw"] ;;
    match content with
    | Some text => if (nonempty text && nonempty (strip text))%bool then ret (Some text) else ret None
    | None => ret None
    end in
  match content with
  | Some text =>
      if (nonempty text && nonempty (strip text) && negb (String.eqb (strip text) "null"))%bool
      then
        if negb (prefix "{" text) then
          let cleaned := replace " " "" (replace (String newline "") "" (strip text)) in
          match b64decode_utf8 cleaned with
          | Some decoded => ret (Some decoded)
          | None => ret (Some cleaned)
          end
        else ret (Some text)
      else raw_content
  | None => raw_content
  end.

Definition file_exists (repo file : string) : io bool :=
  found <~ run_gh_command ["api"; contents_url repo file; "--jq"; ".name"] ;;
  match found with
  | Some text =>
      ret (negb (existsb (String.eqb (strip text)) ["null"; ""]))
  | None => ret false
  end.

Definition get_repo_info (repo : string) : io (option value) :=
  found <~ run_gh_command ["api"; "/repos/" ++ repo; "--jq"; "."] ;;
  match found with
  | Some text => if nonempty text then ret (json_loads text) else ret None
  | None => ret None
  end.

Definition parse_repo_spec (repo_spec : string) : result string :=
  let repo_spec := replace "http://" "" (replace "https://" "" repo_spec) in
  let repo_spec := replace "github.com/" "" repo_spec in
  let repo_spec := replace "git@github.com:" "" repo_spec in
  let repo_spec := replace ".git" "" repo_spec in
  let repo_spec := strip_chars (Ascii.eqb "/") repo_spec in
  if (negb (contains "/" repo_spec) || (List.length (split "/" repo_spec) <? 2)%nat)%bool then
    Raise ValueError
  else
    match split "/" repo_spec with
    | first :: second :: _ => Ok (first ++ "/" ++ second)
    | _ => Raise ValueError
    end.

Definition github_load_config (repo : string) : io dict :=
  content <~ get_file_content repo "pyproject.toml" ;;
  match content with
  | Some text =>
      if nonempty text then
        match toml_loads text with
        | Some config => ret config
        | None => ret []
        end
      else ret []
  | None => ret []
  end.

(** The loop that looks for SonarCloud in the text of the remote workflows. *)
Fixpoint sonar_in_remote_workflows (repo : string) (names : list string) : io bool :=
  match names with
  | [] => ret false
  | workflow_name :: rest =>
      if (nonempty workflow_name && negb (String.eqb workflow_name "null"))%bool then
        workflow_content <~ get_file_content repo (".github/workflows/" ++ workflow_name) ;;
        match workflow_content with
        | Some text =>
            if (nonempty text
                && (contains "sonarcloud" (lower text) || contains "sonar" (lower text)))%bool
            then ret true
            else sonar_in_remote_workflows repo rest
        | None => sonar_in_remote_workflows repo rest
        end
      else sonar_in_remote_workflows repo rest
  end.

Definition github_check_additional_files (repo : string) (config : dict) (r : ComplianceReport)
    : io ComplianceReport :=
  (* README.md *)
  readme <~ file_exists repo "README.md" ;;
  let r :=
    if readme
    then add_check r "README.md" "Documentation" true "README.md present" "info"
    else add_check r "README.md" "Documentation" false "README.md missing" "error" in
  (* SRD.md *)
  srd <~ file_exists repo "SRD.md" ;;
  let r :=
    if srd
    then add_check r "SRD.md" "Documentation" true "System Readiness Document present" "info"
    else add_check r "SRD.md" "Documentation" false "System Readiness Document missing" "error" in
  (* poetry.lock *)
  poetry <~ lift (uses_poetry config) ;;
  r <~ (if poetry then
          lock <~ file_exists repo "poetry.lock" ;;
          if lock
          then ret (add_check r "Poetry Lock File" "Configuration" true "poetry.lock present" "info")
          else ret (add_check r "Poetry Lock File" "Configuration" false "poetry.lock missing" "error")
        else ret (add_check r "Poetry Lock File" "Configuration" true "No problems noted" "info")) ;;
  (* workflows *)
  manager <~ file_exists repo ".github/workflows/PythonManager.yml" ;;
  let r :=
    if manager
    then add_check r "Python Manager Workflow" "CI/CD" true
           "PythonManager.yml workflow present" "info"
    else add_check r "Python Manager Workflow" "CI/CD" false
           "Missing PythonManager.yml workflow" "error" in
  workflows <~ run_gh_command
    ["api"; "/repos/" ++ repo ++ "/contents/.github/workflows"; "--jq"; ".[].name"] ;;
  let workflow_names :=
    match workflows with
    | Some text => if nonempty text then split newline (strip text) else []
    | None => []
    end in
  let has_ruff_workflow :=
    existsb (fun wf => (contains "ruff" (lower wf) || contains "format" (lower wf))%bool)
            workflow_names in
  let r :=
    if has_ruff_workflow
    then add_check r "Ruff Formatting Workflow" "CI/CD" true
           "Ruff auto-formatting workflow present" "info"
    else add_check r "Ruff Formatting Workflow" "CI/CD" false
           "Missing Ruff auto-formatting workflow" "warning" in
  (* SonarCloud *)
  sonar_file <~
    (first <~ file_exists repo "sonar-project.properties" ;;
     if first then ret true else file_exists repo ".sonarcloud.properties") ;;
  in_workflows <~ sonar_in_remote_workflows repo workflow_names ;;
  lift (sonar_check (sonar_file || in_workflows)%bool config r).

Definition check_repository_topics (repo : string) (r : ComplianceReport) : io ComplianceReport :=
  repo_info <~ get_repo_info repo ;;
  match repo_info with
  | Some info =>
      if truthy info then
        topics <~ lift (get info "topics" (VList [])) ;;
        items <~ lift (iterate topics) ;;
        let has_required := existsb (fun topic => in_str_list topic REQUIRED_KEYWORDS) items in
        if has_required then
          ret (add_check r "Repository Topics" "Configuration" true
                 "Has required GitHub topic(s)" "info")
        else
          ret (add_check r "Repository Topics" "Configuration" false
                 ("Missing required GitHub topic. Should have one of: "
                    ++ join ", " REQUIRED_KEYWORDS) "error")
      else
        ret (add_check r "Repository Topics" "Configuration" false
               "Could not fetch repository information" "error")
  | None =>
      ret (add_check r "Repository Topics" "Configuration" false
             "Could not fetch repository information" "error")
  end.

Definition github_check_repository (repo_spec : string) : io ComplianceReport :=
  repo <~ lift (parse_repo_spec repo_spec) ;;
  let repo_url := "https://github.com/" ++ repo in
  let r := new_report repo_url repo "github" in
  config <~ github_load_config repo ;;
  r <~ lift (run_standard_checks builtin_str config r) ;;
  r <~ github_check_additional_files repo config r ;;
  check_repository_topics repo r.

(** Every call of [gh] can be started. *)
Definition launches : Prop :=
  forall tok args w, fst (run_gh tok args w) <> LaunchError.

(** No call of [gh] succeeds: each times out or exits with an error. *)
Definition offline : Prop :=
  forall tok args w,
    fst (run_gh tok args w) = TimeoutExpired \/ fst (run_gh tok args w) = CalledProcessError.

End GitHub.

(** ** Repository type *)

(** The regular expressions the four patterns are written in. *)
Inductive regex : Type :=
| Bol                      (* [^] *)
| Eol                      (* [$] *)
| Chr (c : ascii)          (* a literal character, escaped or not *)
| Class (p : ascii -> bool) (* [[...]] *)
| Opt (r : regex)          (* [r?] *)
| Plus (r : regex)         (* [r+] *)
| Seq (r1 r2 : regex).

(** The repetitions of a [+].  [step] matches the repeated expression once
    and hands the rest to its continuation; after each repetition the loop
    either repeats, one unit of [fuel] being spent, or goes on with [k]. *)
Fixpoint plus_loop (step : (bool -> string -> bool) -> bool -> string -> bool)
    (k : bool -> string -> bool) (fuel : nat) (at_start : bool) (s : string) : bool :=
  step (fun at_start' s' =>
          (match fuel with
           | O => false
           | S fuel' => plus_loop step k fuel' at_start' s'
           end || k at_start' s')%bool)
       at_start s.

(** [matches r k at_start s]: some way of matching [r] at the front of [s]
    leaves a rest that the continuation [k] accepts.  [at_start] tells
    whether no character has been consumed yet; [$] holds at the end of the
    text and just before a line feed that ends the text.  A [+] is given as
    many repetitions as there are characters left, beyond its first. *)
Fixpoint matches (r : regex) (k : bool -> string -> bool) (at_start : bool) (s : string)
    : bool :=
  match r with
  | Bol => if at_start then k at_start s else false
  | Eol =>
      if (String.eqb s "" || String.eqb s (String newline ""))%bool then k at_start s else false
  | Chr c =>
      match s with
      | String c' rest => if Ascii.eqb c' c then k false rest else false
      | EmptyString => false
      end
  | Class p =>
      match s with
      | String c' rest => if p c' then k false rest else false
      | EmptyString => false
      end
  | Opt r' => (matches r' k at_start s || k at_start s)%bool
  | Plus r' =>
      plus_loop (fun k' at_start' s' => matches r' k' at_start' s') k (String.length s) at_start s
  | Seq r1 r2 => matches r1 (fun at_start' s' => matches r2 k at_start' s') at_start s
  end.

(** [re.match(pattern, s)] as a truth value. *)
Definition re_match (pattern : regex) (s : string) : bool :=
  matches pattern (fun _ _ => true) true s.

(** A run of literal characters, followed by [r]. *)
Fixpoint lit (text : string) (r : regex) : regex :=
  match text with
  | EmptyString => r
  | String c rest => Seq (Chr c) (lit rest r)
  end.

(** [[\w-]] *)
Definition word_or_hyphen (c : ascii) : bool := (is_word c || Ascii.eqb c "-")%bool.

(** [[\w-]+/[\w-]+] *)
Definition owner_name : regex :=
  Seq (Plus (Class word_or_hyphen)) (Seq (Chr "/") (Plus (Class word_or_hyphen))).

Definition github_patterns : list regex :=
  [ (* ^https?://github\.com/[\w-]+/[\w-]+ *)
    Seq Bol (lit "http" (Seq (Opt (Chr "s")) (lit "://github.com/" owner_name)));
    (* ^git@github\.com:[\w-]+/[\w-]+ *)
    Seq Bol (lit "git@github.com:" owner_name);
    (* ^github\.com/[\w-]+/[\w-]+ *)
    Seq Bol (lit "github.com/" owner_name);
    (* ^[\w-]+/[\w-]+$ *)
    Seq Bol (Seq owner_name Eol) ].

Definition determine_repository_type (path_or_url : string) : string :=
  if existsb (fun pattern => re_match pattern path_or_url) github_patterns
  then "github"
  else "local".

(** ** Rendering of a report *)

(** [n >= y] for an [int] [n] and a float [y]: the two are compared by
    their exact values. *)
Definition int_ge_float (n : Z) (y : spec_float) : bool :=
  match y with
  | S754_zero _ => 0 <=? n
  | S754_infinity s => s
  | S754_nan => false
  | S754_finite s m e =>
      let mz := if s then Zneg m else Zpos m in
      match e with
      | Zneg k => mz <=? n * Z.pow_pos 2 k
      | _ => mz * 2 ^ e <=? n
      end
  end.

(** [v >= y] for a float [y]: only numbers are ordered with a float. *)
Definition ge_float (v : value) (y : spec_float) : result bool :=
  match v with
  | VFloat x => Ok (float_ge x y)
  | VInt n => Ok (int_ge_float n y)
  | VBool b => Ok (int_ge_float (if b then 1 else 0) y)
  | VNone | VStr _ | VDate _ | VList _ | VDict _ => Raise TypeError
  end.

(** [x == y] on floats. *)
Definition float_eq (x y : spec_float) : bool := SFeqb x y.

(** [s * n] *)
Fixpoint times (s : string) (n : nat) : string :=
  match n with
  | O => ""
  | S k => s ++ times s k
  end.

(** [str(n)] for an [int] *)
Definition decimal (n : Z) : string := NilZero.string_of_int (Z.to_int n).

(** [d[key] = v]: the entry is replaced where it stands, or added behind
    the others. *)
Fixpoint setitem (key : string) (v : value) (d : dict) : dict :=
  match d with
  | [] => [(key, v)]
  | (k, old) :: rest =>
      if String.eqb k key then (k, v) :: rest else (k, old) :: setitem key v rest
  end.

(** [categories[check.category].append(check)], the category being added
    behind the others when it is new. *)
Fixpoint file_under (c : ComplianceCheck) (categories : list (string * list ComplianceCheck))
    : list (string * list ComplianceCheck) :=
  match categories with
  | [] => [(category c, [c])]
  | (k, members) :: rest =>
      if String.eqb k (category c) then (k, (members ++ [c])%list) :: rest
      else (k, members) :: file_under c rest
  end.

(** The loop of [print_report] that groups the checks. *)
Definition by_category (cs : list ComplianceCheck) : list (string * list ComplianceCheck) :=
  fold_left (fun categories c => file_under c categories) cs [].

(** [categories[category]] for a key of the dictionary. *)
Fixpoint members_of (key : string) (categories : list (string * list ComplianceCheck))
    : list ComplianceCheck :=
  match categories with
  | [] => []
  | (k, members) :: rest => if String.eqb k key then members else members_of key rest
  end.

(** [sorted(keys)]: strings are ordered by the codes of their characters. *)
Fixpoint insert_sorted (x : string) (l : list string) : list string :=
  match l with
  | [] => [x]
  | y :: rest => if String.leb x y then x :: l else y :: insert_sorted x rest
  end.

Definition sorted (l : list string) : list string := fold_right insert_sorted [] l.

(** [report.metadata['score'] = score] *)
Definition store_score (report : ComplianceReport) (score : spec_float) : ComplianceReport :=
  {| repo_identifier := repo_identifier report;
     repo_name := repo_name report;
     repo_type := repo_type report;
     checks := checks report;
     metadata := setitem "score" (VFloat score) (metadata report) |}.

(** The parsed command line. *)
Record arguments : Type := {
  test : bool;                  (* [--test] *)
  repository : option string;   (* the positional argument, when it is given *)
  auth : string;                (* [--auth]: auto, token or gh *)
  verbose : bool;               (* [--verbose] *)
  json : bool;                  (* [--json] *)
  output : option string        (* [--output], when it is given *)
}.

(** How a run of the program ends. *)
Inductive ending : Type :=
| Exit (code : Z)       (* [sys.exit(code)], also from the argument parser *)
| Uncaught (e : exn).   (* an exception leaves [main] *)

Section Main.

Variable builtin_str : value -> string.
Variable resolve : string -> result path.
Variable exists_ : path -> result bool.
Variable is_dir : path -> result bool.
Variable glob : path -> string -> result (list string).
Variable read_text : path -> result string.
Variable toml_loads : string -> option dict.
Variable world : Type.
Variable run_gh : option string -> list string -> world -> process * world.
Variable environ : string -> option string.
Variable which : string -> bool.
Variable json_loads : string -> option value.
Variable b64decode_utf8 : string -> option string.

(** What the process writes: the standard output, the standard error and
    the file named by [--output].  Each write can raise (a text that the
    stream cannot encode, a closed pipe, a file that cannot be opened). *)
Variable console : Type.
Variable print : string -> console -> result unit * console.      (* [print(text)] *)
Variable print_err : string -> console -> result unit * console.  (* [print(text, file=sys.stderr)] *)
Variable open_w : string -> console -> result unit * console.     (* [open(file, 'w')] *)
Variable write : string -> console -> result unit * console.      (* [f.write(text)] *)
Variable close : console -> result unit * console.                (* leaving the [with] block *)
Variable write_text : string -> string -> console -> result unit * console.
                                                                  (* [Path(file).write_text(text)] *)
(** What the argument parser writes for [parser.error(message)]; it
    ignores a failure of the write. *)
Variable complain : string -> console -> console.

(** The three icons (emoji, or their ASCII fallbacks on a Windows console
    that cannot encode them), and the texts that the interpreter and the
    standard library build. *)
Variables EMOJI_SUCCESS EMOJI_ERROR EMOJI_WARNING : string.
Variable str_upper : string -> string.       (* [s.upper()] *)
Variable format_1f : spec_float -> string.   (* [f'{x:.1f}'] *)
Variable json_dumps : value -> string.       (* [json.dumps(obj, indent=2)] *)
Variable exn_text : exn -> string.           (* [str(e)] *)
Variable traceback_text : exn -> string.     (* what [traceback.print_exc()] prints *)

(** Computations that write. *)
Definition task (A : Type) : Type := console -> result A * console.

Definition done {A : Type} (a : A) : task A := fun c => (Ok a, c).

Definition attempt {A : Type} (r : result A) : task A := fun c => (r, c).

Definition and_next {A B : Type} (t : task A) (k : A -> task B) : task B :=
  fun c => match t c with
           | (Ok a, c') => k a c'
           | (Raise e, c') => (Raise e, c')
           end.

Notation "x <<- t ;; k" := (and_next t (fun x => k))
  (at level 61, t at next level, right associativity).

Fixpoint print_all (texts : list string) : task unit :=
  match texts with
  | [] => done tt
  | text :: rest => _ <<- print text ;; print_all rest
  end.

Fixpoint write_all (texts : list string) : task unit :=
  match texts with
  | [] => done tt
  | text :: rest => _ <<- write text ;; write_all rest
  end.

Definition get_summary (r : ComplianceReport) : result string :=
  computed <- calculate_score r ;;
  score <- get (VDict (metadata r)) "score" (VFloat computed) ;;
  excellent <- ge_float score SCORE_EXCELLENT ;;
  if excellent then
    Ok (EMOJI_SUCCESS ++ " EXCELLENT: Repository meets all standards.")
  else
    good <- ge_float score SCORE_GOOD ;;
    if good then
      Ok (EMOJI_SUCCESS
            ++ " GOOD: Repository follows most standards with minor improvements needed.")
    else
      Ok (EMOJI_ERROR
            ++ " NEEDS WORK: Repository requires significant updates to meet standards.").

(** The line of one check in the printed report. *)
Definition check_line (wordy : bool) (c : ComplianceCheck) : string :=
  let icon :=
    if passed c then EMOJI_SUCCESS
    else if String.eqb (severity c) "warning" then EMOJI_WARNING else EMOJI_ERROR in
  if (passed c && negb wordy)%bool
  then "  " ++ icon ++ " " ++ name c ++ ": No problems noted"
  else "  " ++ icon ++ " " ++ name c ++ ": " ++ message c.

(** The two nested loops of [print_report]: for each category in ascending
    order, its heading and the lines of its checks. *)
Definition category_lines (wordy : bool) (cs : list ComplianceCheck) : list string :=
  let categories := by_category cs in
  flat_map (fun category =>
              (String newline category ++ ":")
                :: map (check_line wordy) (members_of category categories))
           (sorted (map fst categories)).

Definition print_report (r : ComplianceReport) (wordy : bool) : task unit :=
  score <<- attempt (calculate_score r) ;;
  _ <<- print_all
          [String newline (times "=" 80);
           "MODERN PYTHON PROJECT STANDARDS COMPLIANCE REPORT";
           times "=" 80;
           "Repository: " ++ repo_name r;
           "Type: " ++ str_upper (repo_type r)] ;;
  _ <<- (if String.eqb (repo_type r) "github"
         then print ("Location: " ++ repo_identifier r) else done tt) ;;
  _ <<- print_all
          ["Compliance Score: " ++ format_1f score ++ "%";
           "Checks Passed: " ++ decimal (passed_checks r) ++ "/" ++ decimal (total_checks r);
           times "-" 80] ;;
  _ <<- print_all (category_lines wordy (checks r)) ;;
  _ <<- print (String newline (times "=" 80)) ;;
  summary <<- attempt (get_summary r) ;;
  _ <<- print summary ;;
  print (times "=" 80 ++ String newline "").

(** One entry of the ['checks'] list of [to_dict]. *)
Definition check_to_dict (c : ComplianceCheck) : value :=
  VDict [("name", VStr (name c));
         ("category", VStr (category c));
         ("passed", VBool (passed c));
         ("message", VStr (message c));
         ("severity", VStr (severity c))].

Definition to_dict (r : ComplianceReport) : result dict :=
  score <- calculate_score r ;;
  summary <- get_summary r ;;
  Ok [("repository", VStr (repo_identifier r));
      ("repo_type", VStr (repo_type r));
      ("total_checks", VInt (total_checks r));
      ("passed_checks", VInt (passed_checks r));
      ("failed_checks", VInt (failed_checks r));
      ("score", VFloat score);
      ("summary", VStr summary);
      ("checks", VList (map check_to_dict (checks r)))].

(** [assert condition] *)
Definition assert_ (condition : bool) : task unit :=
  if condition then done tt else attempt (Raise AssertionError).

Definition run_embedded_tests : task bool :=
  _ <<- print "Running embedded tests..." ;;
  _ <<- print (times "-" 60) ;;
  (* ComplianceCheck *)
  let check := mk_check "Test" "Category" true "Message" "error" in
  _ <<- assert_ (String.eqb (name check) "Test") ;;
  _ <<- assert_ (Bool.eqb (passed check) true) ;;
  _ <<- print (EMOJI_SUCCESS ++ " ComplianceCheck creation") ;;
  (* ComplianceReport *)
  let report := new_report "test-repo" "test" "local" in
  let report := add_check report "Test1" "Cat" true "Pass" "error" in
  let report := add_check report "Test2" "Cat" false "Fail" "error" in
  _ <<- assert_ (Z.eqb (total_checks report) 2) ;;
  _ <<- assert_ (Z.eqb (passed_checks report) 1) ;;
  score <<- attempt (calculate_score report) ;;
  _ <<- assert_ (float_eq score (float_of_int 50)) ;;
  _ <<- print (EMOJI_SUCCESS ++ " ComplianceReport score calculation") ;;
  (* the rule functions *)
  let config_good := [("project", VDict [("requires-python", VStr ">=3.13")])] in
  check <<- attempt (check_python_version builtin_str config_good) ;;
  _ <<- assert_ (Bool.eqb (passed check) true) ;;
  _ <<- print (EMOJI_SUCCESS ++ " check_python_version (good)") ;;
  (* the repository type *)
  _ <<- assert_ (String.eqb (determine_repository_type "https://github.com/owner/repo") "github") ;;
  _ <<- assert_ (String.eqb (determine_repository_type "/local/path") "local") ;;
  _ <<- print (EMOJI_SUCCESS ++ " determine_repository_type") ;;
  _ <<- print (times "-" 60) ;;
  _ <<- print (EMOJI_SUCCESS ++ " All embedded tests passed!") ;;
  done true.

(** [with open(file, 'w') as f: body]: the file is closed however the body
    ends. *)
Definition with_open (file : string) (body : task unit) : task unit :=
  fun c =>
    match open_w file c with
    | (Raise e, c1) => (Raise e, c1)
    | (Ok _, c1) =>
        match body c1 with
        | (Ok _, c2) => close c2
        | (Raise e, c2) =>
            match close c2 with
            | (Ok _, c3) => (Raise e, c3)
            | (Raise e', c3) => (Raise e', c3)
            end
        end
    end.

(** The text report that [--output] saves. *)
Definition text_report (report : ComplianceReport) (score : spec_float) : task unit :=
  _ <<- write ("Compliance Report for " ++ repo_identifier report ++ String newline "") ;;
  _ <<- write ("Score: " ++ format_1f score ++ "%" ++ String newline "") ;;
  summary <<- attempt (get_summary report) ;;
  _ <<- write ("Status: " ++ summary ++ String newline (String newline "")) ;;
  write_all
    (map (fun check =>
            "[" ++ (if passed check then "PASS" else "FAIL") ++ "] "
              ++ name check ++ ": " ++ message check ++ String newline "")
         (checks report)).

(** The output of the results: the two branches of [if args.json]. *)
Definition render (args : arguments) (report : ComplianceReport) (score : spec_float)
    : task unit :=
  if json args then
    exported <<- attempt (to_dict report) ;;
    let text := json_dumps (VDict exported) in
    _ <<- print text ;;
    if some_text (output args) then
      match output args with
      | Some file => write_text file text
      | None => done tt
      end
    else done tt
  else
    _ <<- print_report report (verbose args) ;;
    if some_text (output args) then
      match output args with
      | Some file => with_open file (text_report report score)
      | None => done tt
      end
    else done tt.

(** The [except Exception] clause of [main]. *)
Definition handler (args : arguments) (e : exn) (c : console) : ending * console :=
  match print_err (EMOJI_ERROR ++ " Error checking repository: " ++ exn_text e) c with
  | (Raise e', c1) => (Uncaught e', c1)
  | (Ok _, c1) =>
      if verbose args then
        match print_err (traceback_text e) c1 with
        | (Raise e', c2) => (Uncaught e', c2)
        | (Ok _, c2) => (Exit 2, c2)
        end
      else (Exit 2, c1)
  end.

(** The [try] statement of [main], for the outcome [scan] of
    [checker.check_repository(identifier)]: the score is stored in the
    metadata, the results are written, and the exit code tells whether the
    score reaches the mark of a good report. *)
Definition checked (args : arguments) (scan : result ComplianceReport) (c : console)
    : ending * console :=
  let body : task Z :=
    report <<- attempt scan ;;
    score <<- attempt (calculate_score report) ;;
    let report := store_score report score in
    _ <<- render args report score ;;
    done (if float_ge score SCORE_GOOD then 0 else 1) in
  match body c with
  | (Ok code, c') => (Exit code, c')
  | (Raise e, c') => handler args e c'
  end.

(** [main], after the command line is parsed. *)
Definition main (args : arguments) (w : world) (c : console) : ending * console :=
  if test args then
    match run_embedded_tests c with
    | (Ok success, c') => (Exit (if success then 0 else 1), c')
    | (Raise e, c') => (Uncaught e, c')
    end
  else if negb (some_text (repository args)) then
    (Exit 2, complain "repository argument is required (unless using --test)" c)
  else
    match repository args with
    | None => (Exit 2, complain "repository argument is required (unless using --test)" c)
    | Some target =>
        if String.eqb (determine_repository_type target) "local" then
          checked args
            (local_check_repository builtin_str resolve exists_ is_dir glob read_text toml_loads
               target) c
        else
          (* the checker is built outside the [try] *)
          match setup_authentication environ which (auth args) with
          | Raise e => (Uncaught e, c)
          | Ok checker =>
              checked args
                (match github_check_repository builtin_str world run_gh toml_loads json_loads
                         b64decode_utf8 checker target w with
                 | Ok (report, _) => Ok report
                 | Raise e => Raise e
                 end) c
          end
    end.

End Main.

(** * Notions used in the statements *)

(** ** Scores *)

(** The other grouping of the percentage, [(100 * passed) / total]: the
    product is an [int], the quotient its rounding. *)
Definition percentage (r : ComplianceReport) : result spec_float :=
  if Z.eqb (total_checks r) 0 then Ok (S754_zero false)
  else int_truediv (100 * passed_checks r) (total_checks r).

(** [x] is exactly the fraction [num / den]. *)
Definition is_fraction (x : spec_float) (num den : Z) : bool :=
  match x with
  | S754_zero _ => Z.eqb num 0
  | S754_finite s m e =>
      let mz := if s then Zneg m else Zpos m in
      match e with
      | Zneg k => Z.eqb (mz * den) (num * Z.pow_pos 2 k)
      | _ => Z.eqb (mz * 2 ^ e * den) num
      end
  | _ => false
  end.

(** [x] is within [2 ^ -45] of the fraction [num / den], for [0 < den]:
    the distance, cleared of both denominators, in exact integers. *)
Definition close_to (x : spec_float) (num den : Z) : bool :=
  match x with
  | S754_zero _ => Z.abs num * 2 ^ 45 <=? den
  | S754_finite s m e =>
      let mz := if s then Zneg m else Zpos m in
      match e with
      | Zneg k => Z.abs (mz * den - num * Z.pow_pos 2 k) * 2 ^ 45 <=? den * Z.pow_pos 2 k
      | _ => Z.abs (mz * 2 ^ e * den - num) * 2 ^ 45 <=? den
      end
  | _ => false
  end.

(** One check passed out of three. *)
Definition one_of_three : ComplianceReport :=
  add_check
    (add_check
       (add_check (new_report "test-repo" "test" "local") "Test1" "Cat" true "Pass" "error")
       "Test2" "Cat" false "Fail" "error")
    "Test3" "Cat" false "Fail" "error".

(** ** Entries of the manifest *)

(** [config.get('tool', {})], which never raises on a [dict]. *)
Definition tool_table (config : dict) : value :=
  match lookup "tool" config with
  | Some v => v
  | None => VDict []
  end.

(** The [addopts] entry the testing rule reads from a pytest table whose
    [ini_options], when present, is a table: the empty string when either
    is missing. *)
Definition ini_addopts (pytest_config : dict) : option value :=
  match lookup "ini_options" pytest_config with
  | None => Some (VStr "")
  | Some (VDict ini_options) =>
      match lookup "addopts" ini_options with
      | Some opts => Some opts
      | None => Some (VStr "")
      end
  | Some _ => None
  end.

Definition is_version (c : ComplianceCheck) : bool := String.eqb (name c) "Poetry Version".

Definition is_plugin (c : ComplianceCheck) : bool :=
  existsb (fun plugin => String.eqb (name c) ("Poetry Plugin: " ++ plugin)) required_plugins.

(** An entry a membership test or a loop accepts. *)
Definition is_container (v : value) : bool :=
  match v with
  | VStr _ | VList _ | VDict _ => true
  | _ => false
  end.

Definition is_text (v : value) : bool :=
  match v with
  | VStr _ => true
  | _ => false
  end.

(** The entries the dependency-manager rule reads have the types the
    manifest format gives them: [tool], [tool.poetry] and [build-system]
    are tables, the plugins and the Poetry requirement are containers, and
    [build-system.requires] is a list of strings. *)
Definition poetry_typed (config : dict) : bool :=
  match lookup "tool" config with
  | None => true
  | Some (VDict tool) =>
      match lookup "poetry" tool with
      | None => true
      | Some (VDict poetry) =>
          (match lookup "requires-plugins" poetry with
           | None => true
           | Some plugins => is_container plugins
           end
           &&
           match lookup "requires-poetry" poetry with
           | Some version => is_container version
           | None =>
               match lookup "build-system" config with
               | None => true
               | Some (VDict build_system) =>
                   match lookup "requires" build_system with
                   | None => true
                   | Some (VList requires) => forallb is_text requires
                   | Some _ => false
                   end
               | Some _ => false
               end
           end)%bool
      | Some _ => false
      end
  | Some _ => false
  end.

(** The result for the linter when ruff is not configured, and the result
    for the type checker when neither pyright nor basedpyright is. *)
Definition legacy_linter (black : bool) : ComplianceCheck :=
  if black
  then mk_check "Linter/Formatter" "Code Quality" false
         "Uses Black (should migrate to Ruff)" "warning"
  else mk_check "Linter/Formatter" "Code Quality" false "No linter/formatter configured" "error".

Definition legacy_checker (mypy : bool) : ComplianceCheck :=
  mk_check "Type Checker" "Code Quality" false
    (if mypy then "Uses mypy (consider pyright)" else "Pyright not configured") "warning".

(** Every result of [found] bears one of the names [allowed]. *)
Definition named_in (allowed : list string) (found : list ComplianceCheck) : Prop :=
  Forall (fun c => In (name c) allowed) found.

(** The keywords that a table of the manifest declares. *)
Definition keywords_at (table : option value) : list value :=
  match table with
  | Some (VDict entries) =>
      match lookup "keywords" entries with
      | Some (VList kws) => kws
      | _ => []
      end
  | _ => []
  end.

(** The keywords that the manifest declares, in [project] and in
    [tool.poetry] together. *)
Definition declared_keywords (config : dict) : list value :=
  (keywords_at (lookup "project" config)
   ++ keywords_at (match lookup "tool" config with
                   | Some (VDict tool) => lookup "poetry" tool
                   | _ => None
                   end))%list.

(** A manifest that has a [project] table and declares its keywords in
    [tool.poetry]. *)
Definition hybrid_manifest : dict :=
  [("project", VDict [("name", VStr "demo")]);
   ("tool", VDict [("poetry", VDict [("keywords", VList [VStr "python-lib"])])])].




(** ** Scans *)

(** The one result of a scan whose target is not a directory. *)
Definition no_access (p : path) : ComplianceCheck :=
  mk_check "Repository Access" "Infrastructure" false
    ("Path does not exist or is not a directory: " ++ path_str p) "error".

(** A file system without the target, and a world without [gh]. *)
Definition nowhere : string -> result path := fun _ => Ok ["home"; "x"; "project"].

(** A console that keeps every text it is given, in order, and never
    raises. *)
Definition transcript : Type := list string.

Definition keep (text : string) (c : transcript) : result unit * transcript :=
  (Ok tt, (c ++ [text])%list).

(** The command line that names a target and gives no option. *)
Definition plain (target : string) : arguments :=
  {| test := false; repository := Some target; auth := "auto";
     verbose := false; json := false; output := None |}.

(** [s.upper()] on a text of ASCII characters. *)
Fixpoint upper_ascii (s : string) : string :=
  match s with
  | EmptyString => EmptyString
  | String c rest =>
      String (if in_range 97 122 c then ascii_of_nat (nat_of_ascii c - 32) else c)
             (upper_ascii rest)
  end.

(** [f'{x:.1f}'] for the score 0.0, the only one of the examples. *)
Definition one_decimal (x : spec_float) : string :=
  match x with
  | S754_zero false => "0.0"
  | _ => "?"
  end.

(** The program on a machine whose file system has nothing at the target,
    which cannot start [gh], and whose console keeps what it is given; the
    icons are the ASCII ones. *)
Definition main_nowhere (args : arguments) : ending * transcript :=
  main (fun _ => "") nowhere (fun _ => Ok false) (fun _ => Ok false) (fun _ _ => Ok [])
    (fun _ => Raise OSError) (fun _ => None)
    unit (fun _ _ w => (LaunchError, w)) (fun _ => None) (fun _ => false)
    (fun _ => None) (fun _ => None)
    transcript keep keep keep keep (fun c => (Ok tt, c)) (fun _ text => keep text)
    (fun text c => (c ++ [text])%list)
    "[OK]" "[X]" "[!]" upper_ascii one_decimal (fun _ => "{}") (fun _ => "") (fun _ => "")
    args tt [].

Definition names (r : ComplianceReport) : list string := map name (checks r).

Definition returns {A : Type} (r : result A) : bool :=
  match r with
  | Ok _ => true
  | Raise _ => false
  end.

(** The results of a remote scan during which no call of [gh] succeeds. *)
Definition offline_checks : list ComplianceCheck :=
  [ mk_check "Python Version" "Configuration" false "pyproject.toml not found or invalid" "error";
    mk_check "Poetry Version" "Configuration" false "No pyproject.toml found" "error";
    mk_check "Linter/Formatter" "Code Quality" false "No configuration found" "error";
    mk_check "Type Checker" "Code Quality" false "No configuration found" "error";
    mk_check "Test Framework" "Testing" false "No configuration found" "error";
    mk_check "Repository Keywords" "Configuration" false "No pyproject.toml found" "error";
    mk_check "README.md" "Documentation" false "README.md missing" "error";
    mk_check "SRD.md" "Documentation" false "System Readiness Document missing" "error";
    mk_check "Poetry Lock File" "Configuration" true "No problems noted" "info";
    mk_check "Python Manager Workflow" "CI/CD" false "Missing PythonManager.yml workflow" "error";
    mk_check "Ruff Formatting Workflow" "CI/CD" false
      "Missing Ruff auto-formatting workflow" "warning";
    mk_check "SonarCloud" "Code Quality" false "SonarCloud not configured" "warning";
    mk_check "Repository Topics" "Configuration" false
      "Could not fetch repository information" "error" ].

(** The names of the results that the scan of the additional files adds. *)
Definition file_stages : list string :=
  ["README.md"; "SRD.md"; "Poetry Lock File"; "Python Manager Workflow";
   "Ruff Formatting Workflow"; "SonarCloud"].

(** A world in which every call of [gh] times out, and a checker that
    relies on the [gh] login. *)
Definition timed_out : option string -> list string -> unit -> process * unit :=
  fun _ _ w => (TimeoutExpired, w).

Definition gh_login : GitHubChecker :=
  {| auth_method := "gh"; token := None; use_token := false |}.

(** ** Forms of a repository identifier *)

Fixpoint all_chars (p : ascii -> bool) (s : string) : bool :=
  match s with
  | EmptyString => true
  | String c rest => (p c && all_chars p rest)%bool
  end.

(** An owner or a repository name: word characters and hyphens, at least
    one. *)
Definition is_segment (s : string) : bool := (nonempty s && all_chars word_or_hyphen s)%bool.

(** [OWNER/NAME] *)
Definition bare_form (s : string) : Prop :=
  exists owner name,
    is_segment owner = true /\ is_segment name = true /\ s = owner ++ "/" ++ name.

(** One of the three forms that name the host, followed by anything. *)
Definition url_form (s : string) : Prop :=
  exists host owner name rest,
    In host ["https://github.com/"; "http://github.com/"; "git@github.com:"; "github.com/"] /\
    is_segment owner = true /\ is_segment name = true /\
    s = host ++ owner ++ "/" ++ name ++ rest.

(** The four forms as the specification words them. *)
Definition claimed_remote_form (s : string) : Prop := url_form s \/ bare_form s.

(** The four forms as the patterns take them: the bare form may be
    followed by one line feed that ends the text. *)
Definition remote_form (s : string) : Prop :=
  url_form s \/ bare_form s \/ exists t, bare_form t /\ s = t ++ String newline "".

(** ** Growth of a report *)

(** [r'] is [r] with the results [added] behind its own. *)
Definition extends (r r' : ComplianceReport) (added : list ComplianceCheck) : Prop :=
  repo_identifier r' = repo_identifier r /\
  repo_name r' = repo_name r /\
  repo_type r' = repo_type r /\
  metadata r' = metadata r /\
  checks r' = (checks r ++ added)%list.

(** The names of the results of the three rules between the version rule
    and the keyword rule. *)
Definition rule_names : list string :=
  ["Poetry Plugin: poetry-plugin-export"; "Poetry Plugin: poetry-plugin-shell";
   "Poetry Plugin: ld-poetry-export-group-plugin"; "Poetry Version";
   "Linter/Formatter"; "Line Length"; "Quote Style"; "Type Checker";
   "Test Framework"; "Test Coverage"].

(** ** Rendering *)

(** The summary line of a score. *)
Definition grade (EMOJI_SUCCESS EMOJI_ERROR : string) (score : spec_float) : string :=
  if float_ge score SCORE_EXCELLENT then
    EMOJI_SUCCESS ++ " EXCELLENT: Repository meets all standards."
  else if float_ge score SCORE_GOOD then
    EMOJI_SUCCESS ++ " GOOD: Repository follows most standards with minor improvements needed."
  else
    EMOJI_ERROR ++ " NEEDS WORK: Repository requires significant updates to meet standards.".

(** The checks of one category, in the order of the report. *)
Definition in_category (k : string) (cs : list ComplianceCheck) : list ComplianceCheck :=
  filter (fun c => String.eqb (category c) k) cs.

(** The categories that [print_report] prints, in the order it prints
    them. *)
Definition headings (cs : list ComplianceCheck) : list string :=
  sorted (map fst (by_category cs)).

(** ** Results for the additional files *)

(** The names of the results that the local scan of the additional files
    appends, for a manifest that uses Poetry or not and a directory that
    holds the two optional documents or not. *)
Definition local_file_stages (poetry claude tracking : bool) : list string :=
  (["README.md"; "SRD.md"]
   ++ (if poetry then ["Poetry Lock File"] else [])
   ++ ["Python Manager Workflow"; "Ruff Formatting Workflow"]
   ++ (if claude then ["CLAUDE.md"] else [])
   ++ (if tracking then ["AI Tracking"] else [])
   ++ ["SonarCloud"])%list.

(** The result of the remote scan for the lock file of a project that does
    not use Poetry. *)
Definition lock_not_needed : ComplianceCheck :=
  mk_check "Poetry Lock File" "Configuration" true "No problems noted" "info".

(** ** Characters of a text *)

(** [c0] occurs in [s]. *)
Fixpoint has_char (c0 : ascii) (s : string) : bool :=
  match s with
  | EmptyString => false
  | String c rest => (Ascii.eqb c c0 || has_char c0 rest)%bool
  end.

(** * Properties *)

(** ** Results *)

Lemma bind_ok {A B : Type} (r : result A) (k : A -> result B) (b : B) :
  bind r k = Ok b -> exists a, r = Ok a /\ k a = Ok b.
Proof.
  destruct r as [a|e]; cbn; [|discriminate]. intros H. now exists a.
Qed.

Ltac ok_step H x Hx := apply bind_ok in H as [x [Hx H]].


(** ** Score of a report *)

Lemma count_if_from {A : Type} (p : A -> bool) (xs : list A) (acc : Z) :
  fold_left (fun a x => if p x then a + 1 else a) xs acc = acc + count_if p xs.
Proof.
  unfold count_if. revert acc.
  induction xs as [|x xs IH]; intros acc; cbn [fold_left].
  - lia.
  - rewrite (IH (if p x then acc + 1 else acc)).
    rewrite (IH (if p x then 0 + 1 else 0)).
    destruct (p x); lia.
Qed.

Lemma count_if_cons {A : Type} (p : A -> bool) (x : A) (xs : list A) :
  count_if p (x :: xs) = (if p x then 1 else 0) + count_if p xs.
Proof.
  unfold count_if at 1. simpl. rewrite count_if_from. destruct (p x); lia.
Qed.

Lemma count_if_nonneg {A : Type} (p : A -> bool) (xs : list A) :
  0 <= count_if p xs.
Proof.
  induction xs as [|x xs IH].
  - unfold count_if; simpl; lia.
  - rewrite count_if_cons. destruct (p x); lia.
Qed.

Lemma count_if_split {A : Type} (p : A -> bool) (xs : list A) :
  count_if p xs + count_if (fun x => negb (p x)) xs = Z.of_nat (List.length xs).
Proof.
  induction xs as [|x xs IH].
  - reflexivity.
  - rewrite !count_if_cons. cbn [List.length]. rewrite Nat2Z.inj_succ.
    destruct (p x); cbn [negb]; lia.
Qed.

Lemma passed_failed_total (r : ComplianceReport) :
  passed_checks r + failed_checks r = total_checks r.
Proof. apply count_if_split. Qed.

(** The score of the embedded self-test: one check out of two gives 50.0. *)
Example score_one_of_two :
  calculate_score
    (add_check (add_check (new_report "test-repo" "test" "local") "Test1" "Cat" true "Pass" "error")
               "Test2" "Cat" false "Fail" "error")
  = Ok (float_of_int 50).
Proof. vm_compute. reflexivity. Qed.

(** [close_to] tells floats apart: 33.0 is not within [2 ^ -45] of
    100/3, and 50.0 is the fraction 100/2. *)
Example close_to_separates :
  close_to (float_of_int 33) 100 3 = false /\ close_to (float_of_int 50) 100 2 = true.
Proof. split; vm_compute; reflexivity. Qed.

(** C1, as stated, fails: rounding makes the grouping matter.  For one
    passed check out of three the score is the float 33.33333333333333,
    while multiplying before dividing would give 33.333333333333336; no
    float is the fraction 100/3. *)
Remark grouping_of_the_score :
  exists score other,
    calculate_score one_of_three = Ok score /\
    percentage one_of_three = Ok other /\
    score <> other /\
    is_fraction score (100 * passed_checks one_of_three) (total_checks one_of_three) = false.
Proof.
  eexists. eexists.
  split; [vm_compute; reflexivity|].
  split; [vm_compute; reflexivity|].
  split; [discriminate | vm_compute; reflexivity].
Qed.

Lemma SFmul_comm (x y : spec_float) : SFmul prec emax x y = SFmul prec emax y x.
Proof.
  destruct x as [sx|sx| |sx mx ex], y as [sy|sy| |sy my ey]; cbn;
    rewrite ?(xorb_comm sx sy), ?(Pos.mul_comm mx my), ?(Z.add_comm ex ey); reflexivity.
Qed.

Lemma truediv_self (p : positive) :
  SFdiv prec emax (S754_finite false p 0) (S754_finite false p 0) = float_of_int 1.
Proof.
  unfold SFdiv, SFdiv_core_binary.
  replace (Zdigits2 (Zpos p) + 0 - (Zdigits2 (Zpos p) + 0)) with 0 by lia.
  change (Z.min (fexp prec emax 0) (0 - 0)) with (-53).
  change (0 - 0 - -53) with 53.
  cbv iota beta.
  rewrite Z.shiftl_mul_pow2 by lia.
  rewrite (Z.mul_comm (Zpos p)).
  assert (Z.div_eucl (2 ^ 53 * Z.pos p) (Z.pos p) = (2 ^ 53, 0)) as ->.
  { pose proof (Z.div_eucl_eq (2 ^ 53 * Z.pos p) (Z.pos p) ltac:(lia)) as Heq.
    pose proof (Z.mod_pos_bound (2 ^ 53 * Z.pos p) (Z.pos p) ltac:(lia)) as Hb.
    unfold Z.modulo in Hb.
    destruct (Z.div_eucl (2 ^ 53 * Z.pos p) (Z.pos p)) as [q r].
    assert (q = 2 ^ 53) by nia. subst q. f_equal. lia. }
  unfold new_location. destruct (Z.even (Z.pos p)); reflexivity.
Qed.

(** *** Rounding to binary64 *)

Lemma fexp_binary64 (e : Z) : fexp prec emax e = Z.max (e - 53) (-1074).
Proof. reflexivity. Qed.

Lemma digits2_size (p : positive) : digits2_pos p = Pos.size p.
Proof. induction p as [p IH|p IH|]; cbn; congruence. Qed.

Lemma digits_bounds (p : positive) :
  2 ^ (Zdigits2 (Zpos p) - 1) <= Zpos p < 2 ^ Zdigits2 (Zpos p).
Proof.
  cbn [Zdigits2]. rewrite digits2_size.
  pose proof (Pos.size_gt p) as Hgt. pose proof (Pos.size_le p) as Hle.
  apply Pos2Z.pos_lt_pos in Hgt. apply Pos2Z.pos_le_pos in Hle.
  rewrite Pos2Z.inj_pow in Hgt, Hle.
  change (Z.pos p~0) with (2 * Z.pos p) in Hle.
  split; [|exact Hgt].
  assert (2 ^ Z.pos (Pos.size p) = 2 * 2 ^ (Z.pos (Pos.size p) - 1)) as Hpow.
  { rewrite <- Z.pow_succ_r by lia. f_equal. lia. }
  rewrite Hpow in Hle. lia.
Qed.

Lemma digits_nonneg (m : Z) : 0 <= Zdigits2 m.
Proof. destruct m; cbn; lia. Qed.

(** A number below [2 ^ k] has at most [k] digits. *)
Lemma digits_le (m k : Z) : 0 <= m -> 0 <= k -> m < 2 ^ k -> Zdigits2 m <= k.
Proof.
  intros Hm Hk Hlt. destruct m as [|p|p]; [cbn; lia | | lia].
  pose proof (digits_bounds p) as [Hlo _].
  destruct (Z_le_gt_dec (Zdigits2 (Zpos p)) k) as [Hle | Hgt]; [exact Hle|].
  assert (2 ^ k <= 2 ^ (Zdigits2 (Z.pos p) - 1)) by (apply Z.pow_le_mono_r; lia).
  lia.
Qed.

(** A number with at least [k] digits is at least [2 ^ (k - 1)]. *)
Lemma digits_ge (m k : Z) : 0 < m -> 2 ^ (k - 1) <= m -> 1 <= k -> k <= Zdigits2 m.
Proof.
  intros Hm Hge Hk. destruct m as [|p|p]; try lia.
  pose proof (digits_bounds p) as [_ Hhi].
  destruct (Z_le_gt_dec k (Zdigits2 (Zpos p))) as [Hle | Hgt]; [exact Hle|].
  assert (2 ^ Zdigits2 (Z.pos p) <= 2 ^ (k - 1)) by (apply Z.pow_le_mono_r; lia).
  lia.
Qed.

Lemma shr_1_m (mrs : shr_record) :
  0 <= shr_m mrs -> shr_m (shr_1 mrs) = shr_m mrs / 2.
Proof.
  destruct mrs as [m r s]. cbn [shr_m]. intros Hm.
  rewrite <- Z.div2_div.
  destruct m as [|[p|p|]|p]; cbn; try reflexivity. lia.
Qed.

Lemma shr_iter_m (n : positive) (mrs : shr_record) :
  0 <= shr_m mrs -> shr_m (iter_pos shr_1 n mrs) = shr_m mrs / 2 ^ Zpos n.
Proof.
  revert mrs. induction n as [n IH|n IH|]; intros mrs Hm; cbn [iter_pos].
  - pose proof (Z.pow_pos_nonneg 2 (Z.pos n) ltac:(lia) ltac:(lia)) as Hpos.
    assert (2 ^ Z.pos n~1 = 2 * 2 ^ Z.pos n * 2 ^ Z.pos n) as Hpow.
    { assert (Z.pos n~1 = 1 + Z.pos n + Z.pos n) as -> by lia.
      rewrite !Z.pow_add_r by lia. reflexivity. }
    assert (0 <= shr_m (shr_1 mrs)) as H1 by (rewrite shr_1_m by exact Hm; apply Z.div_pos; lia).
    assert (0 <= shr_m (iter_pos shr_1 n (shr_1 mrs))) as H2
      by (rewrite IH by exact H1; apply Z.div_pos; [exact H1 | lia]).
    rewrite IH by exact H2. rewrite IH by exact H1. rewrite shr_1_m by exact Hm.
    rewrite Hpow, !Z.div_div by lia. f_equal; lia.
  - pose proof (Z.pow_pos_nonneg 2 (Z.pos n) ltac:(lia) ltac:(lia)) as Hpos.
    assert (2 ^ Z.pos n~0 = 2 ^ Z.pos n * 2 ^ Z.pos n) as Hpow.
    { assert (Z.pos n~0 = Z.pos n + Z.pos n) as -> by lia.
      rewrite Z.pow_add_r by lia. reflexivity. }
    assert (0 <= shr_m (iter_pos shr_1 n mrs)) as H2
      by (rewrite IH by exact Hm; apply Z.div_pos; [exact Hm | lia]).
    rewrite IH by exact H2. rewrite IH by exact Hm.
    rewrite Hpow, !Z.div_div by lia. f_equal; lia.
  - rewrite shr_1_m by exact Hm. reflexivity.
Qed.

(** The shift of [shr_fexp]: the exponent becomes the larger of the one
    given and the one that the format prescribes, and the mantissa loses
    the digits in between. *)
Lemma shr_fexp_spec (m e : Z) (l : location) :
  0 <= m ->
  exists mrs,
    shr_fexp prec emax m e l = (mrs, Z.max e (fexp prec emax (Zdigits2 m + e))) /\
    shr_m mrs = m / 2 ^ (Z.max e (fexp prec emax (Zdigits2 m + e)) - e).
Proof.
  intros Hm. unfold shr_fexp, shr.
  assert (shr_m (shr_record_of_loc m l) = m) as Hrec by (destruct l as [|[| |]]; reflexivity).
  destruct (fexp prec emax (Zdigits2 m + e) - e) as [|n|n] eqn:Hn.
  - eexists. split.
    + f_equal. lia.
    + rewrite Hrec. replace (Z.max e _ - e) with 0 by lia. now rewrite Z.div_1_r.
  - eexists. split.
    + f_equal. lia.
    + rewrite shr_iter_m by (rewrite Hrec; exact Hm). rewrite Hrec. f_equal. f_equal. lia.
  - eexists. split.
    + f_equal. lia.
    + rewrite Hrec. replace (Z.max e _ - e) with 0 by lia. now rewrite Z.div_1_r.
Qed.

Lemma round_nearest_even_step (m : Z) (l : location) :
  round_nearest_even m l = m \/ round_nearest_even m l = m + 1.
Proof.
  destruct l as [|[| |]]; cbn; auto. destruct (Z.even m); auto.
Qed.

(** What [binary_round_aux] returns for a mantissa [mx] and an exponent
    [ex]: with [E] the exponent of the result's format and [m1] the
    mantissa cut to it, the mantissa is [m1] or [m1 + 1], written at the
    exponent [E], or at [E + 1] when it has one digit too many. *)
Lemma binary_round_aux_spec (mx ex : Z) (lx : location) :
  0 <= mx ->
  let E := Z.max ex (fexp prec emax (Zdigits2 mx + ex)) in
  let m1 := mx / 2 ^ (E - ex) in
  exists m2,
    (m2 = m1 \/ m2 = m1 + 1) /\
    ((m2 = 0 /\ binary_round_aux prec emax false mx ex lx = S754_zero false) \/
     (exists m3 e3,
        binary_round_aux prec emax false mx ex lx =
          (if e3 <=? 971 then S754_finite false m3 e3 else S754_infinity false) /\
        ((e3 = E /\ Zpos m3 = m2) \/ (e3 = E + 1 /\ 2 * Zpos m3 = m2)))).
Proof.
  intros Hmx E m1. unfold binary_round_aux.
  destruct (shr_fexp_spec mx ex lx Hmx) as [mrs1 [H1 Hm1]].
  fold E in H1, Hm1. fold m1 in Hm1. rewrite H1.
  set (m2 := round_nearest_even (shr_m mrs1) (loc_of_shr_record mrs1)).
  assert (0 <= m1) as Hm1pos by (apply Z.div_pos; [exact Hmx | apply Z.pow_pos_nonneg; lia]).
  assert (E >= ex /\ E >= Zdigits2 mx + ex - 53 /\ E >= -1074) as [HE1 [HE2 HE3]]
    by (unfold E; rewrite fexp_binary64; lia).
  assert (m1 < 2 ^ 53) as Hm1lt.
  { apply Z.div_lt_upper_bound; [apply Z.pow_pos_nonneg; lia|].
    rewrite <- Z.pow_add_r by lia.
    destruct mx as [|p|p]; [apply Z.pow_pos_nonneg; lia | | lia].
    pose proof (digits_bounds p) as [_ Hhi].
    eapply Z.lt_le_trans; [exact Hhi|]. apply Z.pow_le_mono_r; lia. }
  assert (m2 = m1 \/ m2 = m1 + 1) as Hm2
    by (subst m2; rewrite Hm1; apply round_nearest_even_step).
  assert (0 <= m2) as Hm2pos by lia.
  destruct (shr_fexp_spec m2 E loc_Exact Hm2pos) as [mrs2 [H2 Hm3]].
  rewrite H2. exists m2. split; [exact Hm2|].
  rewrite fexp_binary64 in Hm3. rewrite fexp_binary64.
  destruct (Z.eq_dec m2 0) as [Hzero | Hnonzero].
  - left. split; [exact Hzero|]. rewrite Hm3, Hzero. rewrite Z.div_0_l; [reflexivity|].
    apply Z.pow_nonzero; [lia|]. cbn [Zdigits2]. lia.
  - right.
    assert (0 < m2) as Hpos by lia.
    destruct (Z_lt_ge_dec m2 (2 ^ 53)) as [Hsmall | Hbig].
    + (* the mantissa fits *)
      pose proof (digits_le m2 53 Hm2pos ltac:(lia) Hsmall) as Hd.
      assert (Z.max E (Z.max (Zdigits2 m2 + E - 53) (-1074)) = E) as HEE by lia.
      rewrite HEE in *. replace (E - E) with 0 in Hm3 by lia.
      rewrite Z.div_1_r in Hm3. rewrite Hm3.
      destruct m2 as [|p2|p2]; try lia.
      exists p2, E. split; [reflexivity|]. left; split; reflexivity.
    + (* the rounding has carried into a 54th digit *)
      assert (m2 = 2 ^ 53) as Hcarry by lia.
      assert (Zdigits2 m2 = 54) as Hd.
      { apply Z.le_antisymm.
        - apply digits_le; [lia | lia | rewrite Hcarry; reflexivity].
        - apply digits_ge; [lia | rewrite Hcarry; reflexivity | lia]. }
      assert (Z.max E (Z.max (Zdigits2 m2 + E - 53) (-1074)) = E + 1) as HEE by lia.
      rewrite HEE in *. replace (E + 1 - E) with 1 in Hm3 by lia.
      rewrite Hm3, Hcarry. change (2 ^ 53 / 2 ^ 1) with (Z.pos (2 ^ 52)).
      exists (2 ^ 52)%positive, (E + 1). split; [reflexivity|]. right. split; reflexivity.
Qed.

Lemma pow2_pos (n : Z) : 0 <= n -> 0 < 2 ^ n.
Proof. intros H. apply Z.pow_pos_nonneg; lia. Qed.

Lemma pow2_split (a b : Z) : 0 <= a -> 0 <= b -> 2 ^ (a + b) = 2 ^ a * 2 ^ b.
Proof. intros Ha Hb. apply Z.pow_add_r; assumption. Qed.

Lemma cut_bounds (m j : Z) :
  0 <= m -> 0 <= j -> m / 2 ^ j * 2 ^ j <= m < (m / 2 ^ j + 1) * 2 ^ j.
Proof.
  intros Hm Hj. pose proof (pow2_pos j Hj) as Hpos.
  pose proof (Z.div_mod m (2 ^ j) ltac:(lia)) as Hdiv.
  pose proof (Z.mod_pos_bound m (2 ^ j) Hpos) as Hmod. nia.
Qed.

(** The quotient of two counts, [p < t]: it is zero only if [p / t] is
    below [2 ^ -53], and otherwise a float [m * 2 ^ -k] of at most 1 whose
    distance to [p / t] is at most [2 ^ -53]. *)
Lemma quotient_spec (p t : positive) :
  (p < t)%positive ->
  (SFdiv prec emax (S754_finite false p 0) (S754_finite false t 0) = S754_zero false /\
   Zpos p * 2 ^ 53 < Zpos t) \/
  (exists m k,
     SFdiv prec emax (S754_finite false p 0) (S754_finite false t 0) = S754_finite false m (- k) /\
     52 <= k /\ Zpos m <= 2 ^ k /\
     Z.abs (Zpos m * Zpos t - Zpos p * 2 ^ k) * 2 ^ 53 <= Zpos t * 2 ^ k).
Proof.
  intros Hlt. apply Pos2Z.pos_lt_pos in Hlt.
  unfold SFdiv, SFdiv_core_binary. cbn [xorb].
  pose proof (digits_bounds p) as [Hp1 Hp2]. pose proof (digits_bounds t) as [Ht1 Ht2].
  assert (Zdigits2 (Z.pos p) <= Zdigits2 (Z.pos t)) as Hd
    by (apply digits_le; [lia | apply digits_nonneg | lia]).
  assert (1 <= Zdigits2 (Z.pos p)) as Hd1 by (cbn; lia).
  rewrite fexp_binary64.
  set (e' := Z.min (Z.max (Zdigits2 (Z.pos p) + 0 - (Zdigits2 (Z.pos t) + 0) - 53) (-1074)) (0 - 0)).
  assert (-1074 <= e' <= -53) as He' by (subst e'; lia).
  replace (0 - 0 - e') with (- e') by lia.
  destruct (- e') as [|s|s] eqn:Hs; try lia.
  rewrite Z.shiftl_mul_pow2 by lia. rewrite <- Hs.
  pose proof (pow2_pos (- e') ltac:(lia)) as Hspos.
  pose proof (Z.div_eucl_eq (Z.pos p * 2 ^ (- e')) (Z.pos t) ltac:(lia)) as Heq.
  pose proof (Z.mod_pos_bound (Z.pos p * 2 ^ (- e')) (Z.pos t) ltac:(lia)) as Hmod.
  unfold Z.modulo in Hmod.
  destruct (Z.div_eucl (Z.pos p * 2 ^ (- e')) (Z.pos t)) as [q r].
  assert (0 <= q) as Hq by nia.
  assert (q < 2 ^ (- e')) as Hqlt by nia.
  pose proof (binary_round_aux_spec q e' (new_location (Z.pos t) r) Hq) as Hround.
  cbv zeta in Hround. rewrite fexp_binary64 in Hround.
  pose proof (digits_le q (- e') Hq ltac:(lia) Hqlt) as Hdq.
  pose proof (digits_nonneg q) as Hdq0.
  set (E := Z.max e' (Z.max (Zdigits2 q + e' - 53) (-1074))) in *.
  assert (e' <= E <= -53) as HE by (subst E; lia).
  set (m1 := q / 2 ^ (E - e')) in *.
  pose proof (cut_bounds q (E - e') Hq ltac:(lia)) as Hcut. fold m1 in Hcut.
  pose proof (pow2_pos (E - e') ltac:(lia)) as HJpos.
  pose proof (pow2_pos (- E) ltac:(lia)) as Hapos.
  assert (2 ^ (- e') = 2 ^ (- E) * 2 ^ (E - e')) as Hsplit
    by (rewrite <- pow2_split by lia; f_equal; lia).
  assert (0 <= m1) as Hm1 by (apply Z.div_pos; lia).
  (* the bracket of [p / t] at the exponent [E] *)
  assert (m1 * Z.pos t <= Z.pos p * 2 ^ (- E) < (m1 + 1) * Z.pos t) as Hbracket.
  { rewrite Hsplit in Heq. split.
    - apply (Z.mul_le_mono_pos_r _ _ (2 ^ (E - e'))); [lia|]. nia.
    - apply (Z.mul_lt_mono_pos_r (2 ^ (E - e'))); [lia|]. nia. }
  assert (m1 + 1 <= 2 ^ (- E)) as Hone.
  { assert (m1 < 2 ^ (- E)); [|lia].
    apply (Z.mul_lt_mono_pos_r (Z.pos t)); [lia|]. nia. }
  assert (2 ^ 53 <= 2 ^ (- E)) as H53 by (apply Z.pow_le_mono_r; lia).
  destruct Hround as [m2 [Hm2 [[Hzero Hres] | [m3 [e3 [Hres Hform]]]]]].
  - left. split; [exact Hres|]. nia.
  - right. exists m3, (- e3).
    assert (e3 <= -52) as He3 by (destruct Hform as [[-> _] | [-> _]]; lia).
    replace (e3 <=? 971) with true in Hres by (symmetry; apply Z.leb_le; lia).
    replace (- - e3) with e3 by lia.
    split; [exact Hres|]. split; [lia|].
    destruct Hform as [[-> Hm3] | [-> Hm3]].
    + split; [lia|].
      apply Z.mul_le_mono_nonneg; [apply Z.abs_nonneg | lia | lia | exact H53].
    + replace (- (E + 1)) with (- E - 1) by lia.
      assert (2 ^ (- E) = 2 * 2 ^ (- E - 1)) as Hhalf
        by (rewrite <- Z.pow_succ_r by lia; f_equal; lia).
      pose proof (pow2_pos (- E - 1) ltac:(lia)) as Hkpos.
      assert (2 ^ 52 <= 2 ^ (- E - 1)) as H52 by (apply Z.pow_le_mono_r; lia).
      split; [lia|].
      assert (Z.abs (Z.pos m3 * Z.pos t - Z.pos p * 2 ^ (- E - 1)) * 2 <= Z.pos t) as Hhalved
        by lia.
      change (2 ^ 53) with (2 * 2 ^ 52). rewrite Z.mul_assoc.
      apply Z.mul_le_mono_nonneg; [lia | exact Hhalved | lia | exact H52].
Qed.

Lemma hundred : float_of_int 100 = S754_finite false 7036874417766400 (-46).
Proof. vm_compute. reflexivity. Qed.

(** The product of a float [m * 2 ^ -k] of at most 1 and 100.0: a float
    [M * 2 ^ -b] (written with [M] or with [M / 2]) within [2 ^ -b],
    at most [2 ^ -46], of the exact product. *)
Lemma product_spec (m : positive) (k : Z) :
  52 <= k -> Zpos m <= 2 ^ k ->
  exists M b,
    46 <= b /\ 0 <= M /\
    Z.abs (M * 2 ^ k - 100 * Zpos m * 2 ^ b) <= 2 ^ k /\
    ((M = 0 /\
      SFmul prec emax (S754_finite false m (- k)) (float_of_int 100) = S754_zero false) \/
     (exists m' k',
        SFmul prec emax (S754_finite false m (- k)) (float_of_int 100) =
          S754_finite false m' (- k') /\
        ((k' = b /\ Zpos m' = M) \/ (k' = b - 1 /\ 2 * Zpos m' = M)))).
Proof.
  intros Hk Hm. rewrite hundred. cbn [SFmul xorb].
  set (mx := Z.pos (m * 7036874417766400)).
  assert (mx = 100 * Z.pos m * 2 ^ 46) as Hmx by (subst mx; rewrite Pos2Z.inj_mul; lia).
  pose proof (pow2_pos k ltac:(lia)) as Hkpos.
  assert (0 <= mx) as Hpos by (subst mx; lia).
  pose proof (binary_round_aux_spec mx (- k + -46) loc_Exact Hpos) as Hround.
  cbv zeta in Hround. rewrite fexp_binary64 in Hround.
  assert (Zdigits2 mx <= k + 53) as Hd.
  { apply digits_le; [exact Hpos | lia |].
    rewrite pow2_split by lia. rewrite Hmx.
    assert (100 * 2 ^ 46 < 2 ^ 53) as Hc by reflexivity.
    apply Z.le_lt_trans with (2 ^ k * (100 * 2 ^ 46)).
    - replace (100 * Z.pos m * 2 ^ 46) with (Z.pos m * (100 * 2 ^ 46)) by ring.
      apply Z.mul_le_mono_nonneg_r; [lia | exact Hm].
    - apply Z.mul_lt_mono_pos_l; [exact Hkpos | exact Hc]. }
  pose proof (digits_nonneg mx) as Hd0.
  set (E := Z.max (- k + -46) (Z.max (Zdigits2 mx + (- k + -46) - 53) (-1074))) in *.
  assert (- k - 46 <= E <= -46) as HE by (subst E; lia).
  set (j := E - (- k + -46)) in *.
  assert (0 <= j) as Hj by (subst j; lia).
  set (m1 := mx / 2 ^ j) in *.
  pose proof (cut_bounds mx j Hpos Hj) as Hcut. fold m1 in Hcut.
  pose proof (pow2_pos j Hj) as Hjpos.
  pose proof (pow2_pos (- E) ltac:(lia)) as Hbpos.
  assert (0 <= m1) as Hm1 by (apply Z.div_pos; lia).
  assert (2 ^ k * 2 ^ 46 = 2 ^ (- E) * 2 ^ j) as Hsplit.
  { rewrite <- !pow2_split by lia. f_equal. subst j. lia. }
  destruct Hround as [m2 [Hm2 Hres]].
  exists m2, (- E).
  split; [lia|]. split; [lia|]. split.
  - (* both sides scaled by [2 ^ 46 * 2 ^ j] *)
    assert (Z.abs (m2 * 2 ^ j - mx) <= 2 ^ j) as Hdist by lia.
    apply (Z.mul_le_mono_pos_r _ _ (2 ^ 46 * 2 ^ j)); [lia|].
    rewrite <- (Z.abs_eq (2 ^ 46 * 2 ^ j)) at 1 by lia.
    rewrite <- Z.abs_mul.
    assert ((m2 * 2 ^ k - 100 * Z.pos m * 2 ^ (- E)) * (2 ^ 46 * 2 ^ j)
            = (m2 * 2 ^ j - mx) * (2 ^ k * 2 ^ 46)) as ->.
    { rewrite Hmx. revert Hsplit.
      generalize (2 ^ k), (2 ^ 46), (2 ^ (- E)), (2 ^ j). intros A B C J Hsplit.
      replace ((m2 * A - 100 * Z.pos m * C) * (B * J))
        with (m2 * J * (A * B) - 100 * Z.pos m * B * (C * J)) by ring.
      rewrite <- Hsplit. ring. }
    rewrite Z.abs_mul. rewrite (Z.abs_eq (2 ^ k * 2 ^ 46)) by lia.
    replace (2 ^ k * (2 ^ 46 * 2 ^ j)) with (2 ^ j * (2 ^ k * 2 ^ 46)) by ring.
    apply Z.mul_le_mono_nonneg_r; [lia | exact Hdist].
  - destruct Hres as [[Hzero Hres] | [m3 [e3 [Hres Hform]]]].
    + left. split; assumption.
    + right. exists m3, (- e3).
      assert (e3 <= -45) as He3 by (destruct Hform as [[-> _] | [-> _]]; lia).
      replace (e3 <=? 971) with true in Hres by (symmetry; apply Z.leb_le; lia).
      replace (- - e3) with e3 by lia.
      split; [exact Hres|].
      destruct Hform as [[-> Hm3] | [-> Hm3]]; [left | right]; split; lia.
Qed.

(** The two roundings together: a quotient within [2 ^ -53] of [p / t]
    and a product within [2 ^ -b] of 100 times that quotient, with
    [46 <= b], give a product within [2 ^ -45] of [100 * p / t]. *)
Lemma two_roundings (M m p t k b : Z) :
  0 < t -> 0 <= k -> 46 <= b ->
  Z.abs (M * 2 ^ k - 100 * m * 2 ^ b) <= 2 ^ k ->
  Z.abs (m * t - p * 2 ^ k) * 2 ^ 53 <= t * 2 ^ k ->
  Z.abs (M * t - 100 * p * 2 ^ b) * 2 ^ 45 <= t * 2 ^ b.
Proof.
  intros Ht Hk Hb HX HY.
  pose proof (pow2_pos k Hk) as HA.
  assert (2 ^ 46 <= 2 ^ b) as HB by (apply Z.pow_le_mono_r; lia).
  revert HX HY HA HB. generalize (2 ^ k), (2 ^ b). intros A B HX HY HA HB.
  set (X := M * A - 100 * m * B) in *. set (Y := m * t - p * A) in *.
  set (D := M * t - 100 * p * B).
  assert (D * A = t * X + 100 * B * Y) as Heq by (subst D X Y; ring).
  assert (0 < B) as HBpos by (change (2 ^ 46) with 70368744177664 in HB; lia).
  assert (Z.abs D * A <= t * Z.abs X + 100 * B * Z.abs Y) as Htri.
  { rewrite <- (Z.abs_eq A) at 1 by lia. rewrite <- Z.abs_mul, Heq.
    eapply Z.le_trans; [apply Z.abs_triangle|].
    rewrite !Z.abs_mul. rewrite (Z.abs_eq t), (Z.abs_eq 100), (Z.abs_eq B) by lia. lia. }
  assert (t * Z.abs X <= t * A) as H1 by (apply Z.mul_le_mono_nonneg_l; lia).
  assert (100 * B * (Z.abs Y * 2 ^ 53) <= 100 * B * (t * A)) as H2
    by (apply Z.mul_le_mono_nonneg_l; lia).
  assert (Z.abs D * 2 ^ 53 * A <= t * (2 ^ 53 + 100 * B) * A) as H3.
  { replace (Z.abs D * 2 ^ 53 * A) with (Z.abs D * A * 2 ^ 53) by ring.
    apply Z.le_trans with ((t * Z.abs X + 100 * B * Z.abs Y) * 2 ^ 53).
    - apply Z.mul_le_mono_nonneg_r; [apply Z.pow_nonneg; lia | exact Htri].
    - replace ((t * Z.abs X + 100 * B * Z.abs Y) * 2 ^ 53)
        with (t * Z.abs X * 2 ^ 53 + 100 * B * (Z.abs Y * 2 ^ 53)) by ring.
      replace (t * (2 ^ 53 + 100 * B) * A) with (t * A * 2 ^ 53 + 100 * B * (t * A)) by ring.
      apply Z.add_le_mono; [|exact H2].
      apply Z.mul_le_mono_nonneg_r; [apply Z.pow_nonneg; lia | exact H1]. }
  apply Z.mul_le_mono_pos_r in H3; [|exact HA].
  assert (t * 2 ^ 46 <= t * B) as H4 by (apply Z.mul_le_mono_nonneg_l; lia).
  replace (t * (2 ^ 53 + 100 * B)) with (128 * (t * 2 ^ 46) + 100 * (t * B)) in H3
    by (change (2 ^ 53) with (128 * 2 ^ 46); ring).
  replace (Z.abs D * 2 ^ 53) with (256 * (Z.abs D * 2 ^ 45)) in H3
    by (change (2 ^ 53) with (256 * 2 ^ 45); ring).
  assert (0 <= t * B) as H5 by (apply Z.mul_nonneg_nonneg; lia).
  revert H3 H4 H5. generalize (Z.abs D * 2 ^ 45), (t * B), (t * 2 ^ 46).
  intros u v w H3 H4 H5. lia.
Qed.

Lemma pow_pos_pow (k : positive) : Z.pow_pos 2 k = 2 ^ Zpos k.
Proof. reflexivity. Qed.

(** The score of [p] passed checks out of [t], [0 < p < t]: within
    [2 ^ -45] of [100 * p / t]. *)
Lemma scaled_quotient (p t : positive) :
  (p < t)%positive ->
  close_to (SFmul prec emax
              (SFdiv prec emax (S754_finite false p 0) (S754_finite false t 0))
              (float_of_int 100))
           (100 * Zpos p) (Zpos t) = true.
Proof.
  intros Hlt.
  destruct (quotient_spec p t Hlt) as [[-> Hsmall] | [m [k [-> [Hk [Hm Hq]]]]]].
  - rewrite hundred. cbn [SFmul xorb close_to]. apply Z.leb_le.
    change (2 ^ 53) with (256 * 2 ^ 45) in Hsmall.
    revert Hsmall. generalize (2 ^ 45). intros c Hsmall.
    assert (0 <= Z.pos p * c \/ Z.pos p * c < 0) as [Hc | Hc] by lia; [|lia].
    rewrite Z.abs_eq by lia. nia.
  - destruct (product_spec m k Hk Hm) as [M [b [Hb [HM [Hdist Hres]]]]].
    pose proof (two_roundings M (Z.pos m) (Z.pos p) (Z.pos t) k b
                  ltac:(lia) ltac:(lia) Hb Hdist Hq) as Hnear.
    pose proof (pow2_pos b ltac:(lia)) as Hbpos.
    destruct Hres as [[-> ->] | [m' [k' [-> Hform]]]].
    + cbn [close_to]. apply Z.leb_le.
      replace (0 * Z.pos t - 100 * Z.pos p * 2 ^ b) with (- (100 * Z.pos p * 2 ^ b)) in Hnear by ring.
      rewrite Z.abs_opp, Z.abs_eq in Hnear by lia. rewrite Z.abs_eq by lia.
      apply (Z.mul_le_mono_pos_r _ _ (2 ^ b)); [exact Hbpos|].
      replace (100 * Z.pos p * 2 ^ 45 * 2 ^ b) with (100 * Z.pos p * 2 ^ b * 2 ^ 45) by ring.
      exact Hnear.
    + assert (45 <= k') as Hk' by (destruct Hform as [[-> _] | [-> _]]; lia).
      destruct k' as [|kp|kp]; try lia.
      cbn [close_to Z.opp]. rewrite pow_pos_pow. apply Z.leb_le.
      destruct Hform as [[<- <-] | [Hkb Hhalf]]; [exact Hnear|].
      assert (2 ^ b = 2 * 2 ^ Z.pos kp) as Hpow
        by (rewrite <- Z.pow_succ_r by lia; f_equal; lia).
      rewrite Hpow, <- Hhalf in Hnear.
      replace (2 * Z.pos m' * Z.pos t - 100 * Z.pos p * (2 * 2 ^ Z.pos kp))
        with (2 * (Z.pos m' * Z.pos t - 100 * Z.pos p * 2 ^ Z.pos kp)) in Hnear by ring.
      rewrite Z.abs_mul in Hnear. change (Z.abs 2) with 2 in Hnear.
      revert Hnear. generalize (2 ^ Z.pos kp), (2 ^ 45). intros B c Hnear.
      set (u := Z.abs (Z.pos m' * Z.pos t - 100 * Z.pos p * B)) in *.
      replace (2 * u * c) with (2 * (u * c)) in Hnear by ring.
      replace (Z.pos t * (2 * B)) with (2 * (Z.pos t * B)) in Hnear by ring.
      lia.
Qed.

(** C1, amended: the passed and the failed checks of a report add up to its
    checks; [calculate_score] never divides by zero and always returns a float:
    0.0 for a report without checks, exactly 0.0 when no check passed,
    exactly 100.0 when checks exist and none failed, and for every report
    with checks a float within [2 ^ -45] of [100 * passed / total]. *)
Theorem score_of_report (r : ComplianceReport) :
  passed_checks r + failed_checks r = total_checks r /\
  0 <= passed_checks r <= total_checks r /\
  exists score,
    calculate_score r = Ok score /\
    (total_checks r = 0 -> score = S754_zero false) /\
    (passed_checks r = 0 -> score = S754_zero false) /\
    (0 < total_checks r -> failed_checks r = 0 -> score = float_of_int 100) /\
    (0 < total_checks r ->
       close_to score (100 * passed_checks r) (total_checks r) = true).
Proof.
  pose proof (passed_failed_total r) as Hsum.
  pose proof (count_if_nonneg passed (checks r)) as Hp.
  pose proof (count_if_nonneg (fun c => negb (passed c)) (checks r)) as Hf.
  fold (passed_checks r) in Hp. fold (failed_checks r) in Hf.
  split; [exact Hsum|]. split; [lia|].
  unfold calculate_score, int_truediv, float_mul_int.
  destruct (total_checks r) as [|t|t] eqn:Ht; [| |lia].
  - exists (S754_zero false). cbn [Z.eqb].
    repeat split; intros; try reflexivity; lia.
  - cbn [Z.eqb bind].
    destruct (passed_checks r) as [|p|p] eqn:Hpass; [| |lia].
    + exists (S754_zero false). cbn [exact_float SFdiv xorb]. rewrite hundred.
      repeat split; intros; try reflexivity; lia.
    + cbn [exact_float].
      destruct (Pos.eq_dec p t) as [-> | Hne].
      * exists (float_of_int 100). rewrite truediv_self.
        repeat split; intros; try reflexivity; try discriminate.
        rewrite hundred. cbn [close_to]. rewrite pow_pos_pow. apply Z.leb_le.
        replace (Z.pos 7036874417766400 * Z.pos t - 100 * Z.pos t * 2 ^ 46) with 0
          by (change (2 ^ 46) with 70368744177664; lia).
        change (Z.abs 0 * 2 ^ 45) with 0.
        apply Z.mul_nonneg_nonneg; [lia | apply Z.pow_nonneg; lia].
      * eexists. split; [reflexivity|].
        repeat split; intros; try discriminate; try lia.
        apply scaled_quotient. apply Pos2Z.pos_lt_pos. lia.
Qed.

Lemma score_of_report_witness :
  0 < total_checks one_of_three /\
  exists score,
    calculate_score one_of_three = Ok score /\
    close_to score (100 * passed_checks one_of_three) (total_checks one_of_three) = true.
Proof.
  split; [reflexivity|].
  destruct (score_of_report one_of_three) as [_ [_ [score [Hscore [_ [_ [_ Hnear]]]]]]].
  exists score. split; [exact Hscore | apply Hnear; reflexivity].
Defined.

(** ** Lookups *)

Lemma has_key_lookup (key : string) (d : dict) :
  has_key key d = match lookup key d with Some _ => true | None => false end.
Proof. reflexivity. Qed.

Lemma has_key_found (key : string) (d : dict) (v : value) :
  lookup key d = Some v -> has_key key d = true.
Proof. intros H. unfold has_key. rewrite H. reflexivity. Qed.


(** ** Version rule *)

Lemma located_version_nonempty (config : dict) (version : value) :
  located_version config = Ok (Some version) -> truthy (VDict config) = true.
Proof.
  destruct config as [|entry rest]; [discriminate | reflexivity].
Qed.

(** The example of the specification: both bounds name a 3.1x version. *)
Example version_range_passes (builtin_str : value -> string) :
  check_python_version builtin_str
    [("project", VDict [("requires-python", VStr ">=3.13,<3.14")])]
  = Ok (mk_check "Python Version" "Configuration" true
          "Uses Python >=3.13,<3.14 (current standard)" "info").
Proof. reflexivity. Qed.

(** A requirement that names the acceptable and the current version. *)
Example both_versions_pass (builtin_str : value -> string) :
  contains ACCEPTABLE_PYTHON_VERSION ">=3.12,<=3.13" = true /\
  check_python_version builtin_str
    [("tool", VDict [("poetry", VDict [("dependencies", VDict [("python", VStr ">=3.12,<=3.13")])])])]
  = Ok (mk_check "Python Version" "Configuration" true
          "Uses Python >=3.12,<=3.13 (current standard)" "info").
Proof. split; reflexivity. Qed.

(** C2: when the version requirement located in the manifest is a string
    that contains "3.13", the version rule returns one result, passed and
    of severity info, whatever else the string contains. *)
Theorem current_version_passes
    (builtin_str : value -> string) (config : dict) (s : string) :
  located_version config = Ok (Some (VStr s)) ->
  contains CURRENT_PYTHON_VERSION s = true ->
  check_python_version builtin_str config =
    Ok (mk_check "Python Version" "Configuration" true
          ("Uses Python " ++ s ++ " (current standard)") "info").
Proof.
  intros Hloc Hcur.
  unfold check_python_version.
  rewrite (located_version_nonempty _ _ Hloc), Hloc.
  cbn [negb bind str_in]. rewrite Hcur. reflexivity.
Qed.

Lemma current_version_passes_witness :
  located_version [("project", VDict [("requires-python", VStr ">=3.12,<=3.13")])]
    = Ok (Some (VStr ">=3.12,<=3.13")) /\
  contains CURRENT_PYTHON_VERSION ">=3.12,<=3.13" = true /\
  check_python_version (fun _ => "")
    [("project", VDict [("requires-python", VStr ">=3.12,<=3.13")])]
  = Ok (mk_check "Python Version" "Configuration" true
          ("Uses Python " ++ ">=3.12,<=3.13" ++ " (current standard)") "info").
Proof.
  split; [reflexivity|]. split; [reflexivity|].
  apply (current_version_passes (fun _ => "")
           [("project", VDict [("requires-python", VStr ">=3.12,<=3.13")])]);
    reflexivity.
Defined.




(** ** Code-quality rule *)

Lemma get_tool (config : dict) :
  get (VDict config) "tool" (VDict []) = Ok (tool_table config).
Proof.
  unfold get, tool_table. destruct (lookup "tool" config); reflexivity.
Qed.

Lemma code_quality_halves (builtin_str : value -> string) (config : dict)
    (linter checker : list ComplianceCheck) :
  truthy (VDict config) = true ->
  linter_formatter_checks builtin_str (tool_table config) = Ok linter ->
  type_checker_checks builtin_str (tool_table config) = Ok checker ->
  check_code_quality_tools builtin_str config = Ok (linter ++ checker)%list.
Proof.
  intros Hne Hl Hc. unfold check_code_quality_tools.
  rewrite Hne, get_tool. cbn [negb bind]. rewrite Hl, Hc. reflexivity.
Qed.

(** C4, as stated, fails: with neither pyright, basedpyright nor mypy in the
    [tool] table, the result for the type checker is a warning, not an
    error. *)
Lemma no_type_checker_is_warning :
  or_else (str_in "pyright" (VDict [])) (str_in "basedpyright" (VDict [])) = Ok false /\
  str_in "mypy" (VDict []) = Ok false /\
  check_code_quality_tools (fun _ => "") [("tool", VDict [])] =
    Ok [mk_check "Linter/Formatter" "Code Quality" false "No linter/formatter configured" "error";
        mk_check "Type Checker" "Code Quality" false "Pyright not configured" "warning"] /\
  "warning" <> "error".
Proof. repeat split; discriminate. Qed.

Lemma named_in_app (allowed : list string) (l1 l2 : list ComplianceCheck) :
  named_in allowed l1 -> named_in allowed l2 -> named_in allowed (l1 ++ l2).
Proof. intros H1 H2. apply Forall_app. now split. Qed.

Lemma named_in_weaken (small big : list string) (found : list ComplianceCheck) :
  incl small big -> named_in small found -> named_in big found.
Proof.
  intros Hincl H. unfold named_in in *. rewrite Forall_forall in *.
  intros c Hc. apply Hincl, H, Hc.
Qed.

Ltac in_list := cbn; repeat (first [left; reflexivity | right]); fail.

Lemma linter_results_names (builtin_str : value -> string) (tool : value)
    (found : list ComplianceCheck) :
  linter_formatter_checks builtin_str tool = Ok found ->
  (1 <= List.length found <= 3)%nat /\
  named_in ["Linter/Formatter"; "Line Length"; "Quote Style"] found.
Proof.
  unfold linter_formatter_checks. intros H.
  ok_step H has_ruff Hruff. destruct has_ruff.
  - ok_step H ruff_config Hc. ok_step H target Ht. ok_step H modern Hm.
    ok_step H is_120 Hl. ok_step H has_quote Hq. inversion H; subst; clear H.
    split.
    + destruct is_120, has_quote; cbn; lia.
    + destruct modern, is_120, has_quote; repeat (apply Forall_cons; [in_list|]);
        apply Forall_nil.
  - ok_step H has_black Hb.
    destruct has_black; inversion H; subst; (split; [cbn; lia|]);
      repeat (apply Forall_cons; [in_list|]); apply Forall_nil.
Qed.

Lemma type_checker_results_names (builtin_str : value -> string) (tool : value)
    (found : list ComplianceCheck) :
  type_checker_checks builtin_str tool = Ok found ->
  exists checker, found = [checker] /\ name checker = "Type Checker".
Proof.
  unfold type_checker_checks. intros H.
  ok_step H has_pyright Hp. destruct has_pyright.
  - ok_step H based Hb. ok_step H pyright_tool Ht. ok_step H py_version Hv.
    ok_step H ignored Hi. ok_step H is_current Hc.
    destruct is_current; inversion H; subst; eexists; split; reflexivity.
  - ok_step H has_mypy Hm.
    destruct has_mypy; inversion H; subst; eexists; split; reflexivity.
Qed.

Lemma linter_without_ruff (builtin_str : value -> string) (tool : dict) :
  has_key "ruff" tool = false ->
  linter_formatter_checks builtin_str (VDict tool) = Ok [legacy_linter (has_key "black" tool)].
Proof.
  intros Hruff. unfold linter_formatter_checks, legacy_linter. cbn [str_in bind].
  rewrite Hruff. cbn [bind]. destruct (has_key "black" tool); reflexivity.
Qed.

Lemma checker_without_pyright (builtin_str : value -> string) (tool : dict) :
  has_key "pyright" tool = false -> has_key "basedpyright" tool = false ->
  type_checker_checks builtin_str (VDict tool) = Ok [legacy_checker (has_key "mypy" tool)].
Proof.
  intros Hpyright Hbased. unfold type_checker_checks, legacy_checker.
  cbn [str_in or_else bind]. rewrite Hpyright, Hbased. cbn [bind].
  destruct (has_key "mypy" tool); reflexivity.
Qed.

(** C4, amended: in a non-empty configuration whose [tool] entry is a table:
    when neither ruff nor pyright nor basedpyright is configured, the
    code-quality rule returns exactly two results, a failed one for the
    linter, a warning ("should migrate") if black is configured and an error
    if it is not, and a failed one for the type checker, a warning in both
    cases ("Uses mypy" if mypy is configured, "Pyright not configured" if
    it is not).  When ruff alone is known to be absent, every list that the
    rule returns is that linter result followed by one result for the type
    checker; when pyright and basedpyright alone are known to be absent,
    every list that the rule returns ends with that type-checker result,
    after the results for the linter. *)
Theorem tool_precedence (builtin_str : value -> string) (config tool : dict) :
  truthy (VDict config) = true ->
  tool_table config = VDict tool ->
  (has_key "ruff" tool = false ->
   has_key "pyright" tool = false -> has_key "basedpyright" tool = false ->
   check_code_quality_tools builtin_str config =
     Ok [legacy_linter (has_key "black" tool); legacy_checker (has_key "mypy" tool)]) /\
  (has_key "ruff" tool = false ->
   forall found,
     check_code_quality_tools builtin_str config = Ok found ->
     exists checker,
       found = [legacy_linter (has_key "black" tool); checker] /\
       name checker = "Type Checker") /\
  (has_key "pyright" tool = false -> has_key "basedpyright" tool = false ->
   forall found,
     check_code_quality_tools builtin_str config = Ok found ->
     exists linter,
       found = (linter ++ [legacy_checker (has_key "mypy" tool)])%list /\
       named_in ["Linter/Formatter"; "Line Length"; "Quote Style"] linter).
Proof.
  intros Hne Htool. unfold check_code_quality_tools.
  rewrite Hne, get_tool, Htool. cbn [negb bind]. split; [|split].
  - intros Hruff Hpyright Hbased.
    rewrite (linter_without_ruff _ _ Hruff). cbn [bind].
    rewrite (checker_without_pyright _ _ Hpyright Hbased). reflexivity.
  - intros Hruff found H.
    rewrite (linter_without_ruff _ _ Hruff) in H. cbn [bind] in H.
    ok_step H checker Hchecker. injection H as <-.
    apply type_checker_results_names in Hchecker as [c [-> Hname]].
    now exists c.
  - intros Hpyright Hbased found H.
    ok_step H linter Hlinter.
    rewrite (checker_without_pyright _ _ Hpyright Hbased) in H. cbn [bind] in H.
    injection H as <-. exists linter. split; [reflexivity|].
    now apply linter_results_names in Hlinter as [_ Hnames].
Qed.

Lemma tool_precedence_witness :
  truthy (VDict [("tool", VDict [("black", VDict []); ("mypy", VDict [])])]) = true /\
  tool_table [("tool", VDict [("black", VDict []); ("mypy", VDict [])])] =
    VDict [("black", VDict []); ("mypy", VDict [])] /\
  has_key "ruff" [("black", VDict []); ("mypy", VDict [])] = false /\
  has_key "pyright" [("black", VDict []); ("mypy", VDict [])] = false /\
  has_key "basedpyright" [("black", VDict []); ("mypy", VDict [])] = false /\
  check_code_quality_tools (fun _ => "")
    [("tool", VDict [("black", VDict []); ("mypy", VDict [])])] =
    Ok [mk_check "Linter/Formatter" "Code Quality" false
          "Uses Black (should migrate to Ruff)" "warning";
        mk_check "Type Checker" "Code Quality" false "Uses mypy (consider pyright)" "warning"].
Proof.
  repeat (split; [reflexivity|]).
  apply (proj1 (tool_precedence (fun _ => "")
                  [("tool", VDict [("black", VDict []); ("mypy", VDict [])])]
                  [("black", VDict []); ("mypy", VDict [])] eq_refl eq_refl));
    reflexivity.
Defined.

(** ** Testing rule *)

(** C6, as stated, fails: a pytest table whose [ini_options] is not a table
    makes the rule raise instead of returning two results. *)
Lemma ini_options_not_a_table :
  truthy (VDict [("tool", VDict [("pytest", VDict [("ini_options", VStr "-v")])])]) = true /\
  str_in "pytest" (tool_table [("tool", VDict [("pytest", VDict [("ini_options", VStr "-v")])])])
    = Ok true /\
  check_testing_configuration (fun _ => "")
    [("tool", VDict [("pytest", VDict [("ini_options", VStr "-v")])])] = Raise AttributeError.
Proof. repeat split. Qed.

(** C6, amended: in a non-empty configuration, when pytest is absent from
    [tool] the testing rule returns one result, failed and of severity
    error.  When [tool] is a table, its pytest entry is a table and the
    [ini_options] of that table, if any, is a table too, the rule returns
    two results: a passed one for the framework and one for the coverage,
    passed exactly when [tool] has a coverage entry or the text of
    [addopts] contains "--cov", and otherwise failed with severity
    warning. *)
Theorem testing_rule (builtin_str : value -> string) (config : dict) :
  truthy (VDict config) = true ->
  (str_in "pytest" (tool_table config) = Ok false ->
   check_testing_configuration builtin_str config =
     Ok [mk_check "Test Framework" "Testing" false "Pytest not configured" "error"]) /\
  (forall tool pytest_config addopts,
     tool_table config = VDict tool ->
     lookup "pytest" tool = Some (VDict pytest_config) ->
     ini_addopts pytest_config = Some addopts ->
     check_testing_configuration builtin_str config =
       Ok [mk_check "Test Framework" "Testing" true "Pytest configured" "info";
           if (has_key "coverage" tool || contains "--cov" (to_str builtin_str addopts))%bool
           then mk_check "Test Coverage" "Testing" true "Coverage reporting configured" "info"
           else mk_check "Test Coverage" "Testing" false
                  "Coverage reporting not configured" "warning"]).
Proof.
  intros Hne. unfold check_testing_configuration.
  rewrite Hne, get_tool. cbn [negb bind]. split.
  - intros Habsent. rewrite Habsent. reflexivity.
  - intros tool pytest_config addopts Htool Hpytest Hopts.
    rewrite Htool. cbn [str_in get bind].
    rewrite (has_key_found _ _ _ Hpytest), Hpytest. cbn [bind str_in].
    unfold ini_addopts in Hopts. rewrite (has_key_lookup "ini_options").
    destruct (lookup "ini_options" pytest_config) as [ini|] eqn:Hini.
    + destruct ini as [| | | | | | |ini_options]; try discriminate.
      cbn [bind get]. rewrite Hini. cbn [bind get].
      destruct (lookup "addopts" ini_options) as [opts|]; inversion Hopts; subst;
        cbn [bind or_else]; destruct (has_key "coverage" tool); cbn [orb bind];
        try reflexivity;
        match goal with |- context [contains ?a ?b] => destruct (contains a b) end; reflexivity.
    + inversion Hopts; subst. cbn [bind or_else to_str].
      destruct (has_key "coverage" tool); reflexivity.
Qed.

Lemma testing_rule_witness :
  truthy (VDict [("tool", VDict [("pytest", VDict [])])]) = true /\
  check_testing_configuration (fun _ => "") [("tool", VDict [("pytest", VDict [])])] =
    Ok [mk_check "Test Framework" "Testing" true "Pytest configured" "info";
        mk_check "Test Coverage" "Testing" false "Coverage reporting not configured" "warning"].
Proof.
  split; [reflexivity|].
  apply (proj2 (testing_rule (fun _ => "") [("tool", VDict [("pytest", VDict [])])] eq_refl)
           [("pytest", VDict [])] [] (VStr "")); reflexivity.
Defined.

(** ** Keyword rule *)

Lemma in_str_list_spec (item : value) (names : list string) :
  in_str_list item names = true <-> exists k, In k names /\ item = VStr k.
Proof.
  unfold in_str_list. rewrite existsb_exists. split.
  - intros [k [Hin Heq]]. exists k. split; [exact Hin|].
    destruct item; try discriminate. cbn in Heq.
    apply String.eqb_eq in Heq. now subst.
  - intros [k [Hin ->]]. exists k. split; [exact Hin|]. cbn. apply String.eqb_refl.
Qed.

Lemma has_required_spec (kws : list value) :
  existsb (fun kw => in_str_list kw REQUIRED_KEYWORDS) kws = true <->
  exists k, In k REQUIRED_KEYWORDS /\ In (VStr k) kws.
Proof.
  rewrite existsb_exists. split.
  - intros [kw [Hin Hreq]]. apply in_str_list_spec in Hreq as [k [Hk ->]]. now exists k.
  - intros [k [Hk Hin]]. exists (VStr k). split; [exact Hin|].
    apply in_str_list_spec. now exists k.
Qed.

(** The example of the specification. *)
Example python_lib_passes :
  check_repository_keywords [("project", VDict [("keywords", VList [VStr "python-lib"])])]
  = Ok (mk_check "Repository Keywords" "Configuration" true "Has required keyword(s)" "info").
Proof. reflexivity. Qed.

(** The keywords of [tool.poetry] are read only when the manifest has no
    [project] table. *)
Example poetry_keywords_behind_project :
  check_repository_keywords
    [("project", VDict [("name", VStr "demo")]);
     ("tool", VDict [("poetry", VDict [("keywords", VList [VStr "python-lib"])])])]
  = Ok (mk_check "Repository Keywords" "Configuration" false
          ("Missing required keyword. Should have one of: " ++ join ", " REQUIRED_KEYWORDS)
          "error").
Proof. reflexivity. Qed.

(** A keywords entry that is a number makes the rule raise, so that
    neither a passed nor a failed result is returned. *)
Lemma numeric_keywords_raise :
  truthy (VDict [("project", VDict [("keywords", VInt 5)])]) = true /\
  check_repository_keywords [("project", VDict [("keywords", VInt 5)])] = Raise TypeError.
Proof. split; reflexivity. Qed.

(** The keyword rule on the list it gathers: in a non-empty configuration
    whose gathered keywords are a list, the rule returns a passed result if
    and only if one of the required keywords is in the list, and otherwise
    a failed result whose message contains each of the required keywords. *)
Theorem keyword_rule (config : dict) (kws : list value) :
  truthy (VDict config) = true ->
  gathered_keywords config = Ok (VList kws) ->
  exists c,
    check_repository_keywords config = Ok c /\
    name c = "Repository Keywords" /\
    (passed c = true <-> exists k, In k REQUIRED_KEYWORDS /\ In (VStr k) kws) /\
    (passed c = false ->
     severity c = "error" /\
     forall k, In k REQUIRED_KEYWORDS -> contains k (message c) = true).
Proof.
  intros Hne Hkw. unfold check_repository_keywords.
  rewrite Hne, Hkw. cbn [negb bind iterate].
  pose proof (has_required_spec kws) as Hspec.
  destruct (existsb (fun kw => in_str_list kw REQUIRED_KEYWORDS) kws).
  - eexists. split; [reflexivity|]. cbn [name passed]. repeat split.
    + intros _. now apply Hspec.
    + discriminate.
    + discriminate.
  - eexists. split; [reflexivity|]. cbn [name passed severity message]. repeat split.
    + discriminate.
    + intros H. apply Hspec in H. discriminate.
    + intros k Hk. cbn in Hk.
      repeat (destruct Hk as [<- | Hk]; [reflexivity|]). contradiction.
Qed.

Lemma keyword_rule_witness :
  truthy (VDict [("project", VDict [("keywords", VList [VStr "python-lib"])])]) = true /\
  gathered_keywords [("project", VDict [("keywords", VList [VStr "python-lib"])])]
    = Ok (VList [VStr "python-lib"]) /\
  exists c,
    check_repository_keywords [("project", VDict [("keywords", VList [VStr "python-lib"])])]
      = Ok c /\
    name c = "Repository Keywords" /\
    (passed c = true <->
     exists k, In k REQUIRED_KEYWORDS /\ In (VStr k) [VStr "python-lib"]) /\
    (passed c = false ->
     severity c = "error" /\
     forall k, In k REQUIRED_KEYWORDS -> contains k (message c) = true).
Proof.
  split; [reflexivity|]. split; [reflexivity|].
  apply (keyword_rule [("project", VDict [("keywords", VList [VStr "python-lib"])])]
           [VStr "python-lib"]); reflexivity.
Defined.

(** C8: the manifest [hybrid_manifest] declares the required keyword
    "python-lib", in [tool.poetry], and yet the keyword rule fails it: the
    [project] table, which has no keywords, hides the keywords of
    [tool.poetry].  Without the [project] table the same keywords pass; and
    the version rule, on a manifest of the same shape, does go on to
    [tool.poetry] when [project] lacks the entry. *)
Lemma project_table_hides_poetry_keywords :
  declared_keywords hybrid_manifest = [VStr "python-lib"] /\
  In "python-lib" REQUIRED_KEYWORDS /\
  check_repository_keywords hybrid_manifest =
    Ok (mk_check "Repository Keywords" "Configuration" false
          ("Missing required keyword. Should have one of: "
             ++ "python-lib, python-stack, python-app, python-shared, composite-app")
          "error") /\
  check_repository_keywords
    [("tool", VDict [("poetry", VDict [("keywords", VList [VStr "python-lib"])])])] =
    Ok (mk_check "Repository Keywords" "Configuration" true "Has required keyword(s)" "info") /\
  check_python_version (fun _ => "")
    [("project", VDict [("name", VStr "demo")]);
     ("tool", VDict [("poetry", VDict [("dependencies", VDict [("python", VStr ">=3.13")])])])] =
    Ok (mk_check "Python Version" "Configuration" true
          "Uses Python >=3.13 (current standard)" "info").
Proof. repeat split. now left. Qed.

(** ** Dependency-manager rule *)


Lemma plugin_checks_names (plugins : value) (required : list string)
    (found : list ComplianceCheck) :
  plugin_checks plugins required = Ok found ->
  map name found = map (fun plugin => "Poetry Plugin: " ++ plugin) required.
Proof.
  revert found. induction required as [|plugin rest IH]; intros found H; cbn in H.
  - now inversion H.
  - apply bind_ok in H as [present [_ H]].
    apply bind_ok in H as [others [Hothers H]].
    inversion H; subst. cbn [map]. rewrite (IH _ Hothers).
    destruct present; reflexivity.
Qed.

Lemma plugin_checks_total (plugins : value) (required : list string) :
  is_container plugins = true -> exists found, plugin_checks plugins required = Ok found.
Proof.
  intros Hc. induction required as [|plugin rest [others IH]]; cbn.
  - now eexists.
  - rewrite IH. destruct plugins; try discriminate; cbn; now eexists.
Qed.

Lemma plugin_named_not_version (found : list ComplianceCheck) (required : list string) :
  map name found = map (fun plugin => "Poetry Plugin: " ++ plugin) required ->
  filter is_version found = [].
Proof.
  revert required. induction found as [|c rest IH]; intros required H; [reflexivity|].
  destruct required as [|plugin others]; [discriminate|].
  cbn [map] in H. inversion H as [[Hname Hrest]].
  cbn [filter]. unfold is_version at 1. rewrite Hname. cbn.
  now apply (IH others).
Qed.

Lemma plugin_named_required (found : list ComplianceCheck) :
  map name found = map (fun plugin => "Poetry Plugin: " ++ plugin) required_plugins ->
  Forall (fun c => is_version c = true \/ is_plugin c = true) found.
Proof.
  intros H.
  destruct found as [|c1 [|c2 [|c3 [|c4 rest]]]]; try discriminate.
  cbn in H. inversion H as [[H1 H2 H3]].
  repeat (apply Forall_cons;
          [right; unfold is_plugin; cbn [required_plugins existsb];
           rewrite ?H1, ?H2, ?H3; cbn; reflexivity|]).
  apply Forall_nil.
Qed.

Lemma poetry_2_total (v : value) :
  is_container v = true -> exists recent, poetry_2 v = Ok recent.
Proof.
  intros Hc. unfold poetry_2, or_else.
  destruct v; try discriminate; cbn;
    repeat match goal with
           | |- context [if ?b then _ else _] => destruct b; cbn
           end; now eexists.
Qed.

Lemma build_system_check_version (requires : list value) (c : ComplianceCheck) :
  build_system_check requires = Ok (Some c) -> is_version c = true.
Proof.
  induction requires as [|req rest IH]; cbn; [discriminate|].
  intros H. apply bind_ok in H as [lowered [_ H]].
  destruct (contains "poetry" lowered); [|now apply IH].
  apply bind_ok in H as [recent [_ H]].
  destruct recent; inversion H; reflexivity.
Qed.

Lemma build_system_check_total (requires : list value) :
  forallb is_text requires = true -> exists found, build_system_check requires = Ok found.
Proof.
  induction requires as [|req rest IH]; cbn; [now eexists|].
  intros H. apply andb_prop in H as [Hreq Hrest].
  destruct req; try discriminate. cbn [lower_of bind].
  destruct (contains "poetry" (lower s)); [|now apply IH].
  destruct (poetry_2_total (VStr s) eq_refl) as [recent ->]. cbn.
  destruct recent; now eexists.
Qed.

Lemma version_or_plugin_app (l1 l2 : list ComplianceCheck) :
  Forall (fun c => is_version c = true \/ is_plugin c = true) l1 ->
  Forall (fun c => is_version c = true \/ is_plugin c = true) l2 ->
  Forall (fun c => is_version c = true \/ is_plugin c = true) (l1 ++ l2).
Proof. intros H1 H2. apply Forall_app. now split. Qed.

Lemma poetry_results_shape (builtin_str : value -> string) (config : dict)
    (found : list ComplianceCheck) :
  check_poetry_configuration builtin_str config = Ok found ->
  List.length (filter is_version found) = 1%nat /\
  Forall (fun c => is_version c = true \/ is_plugin c = true) found.
Proof.
  unfold check_poetry_configuration.
  destruct (negb (truthy (VDict config))).
  { intros H; inversion H; subst. split; [reflexivity|]. repeat constructor. }
  intros H. ok_step H no_poetry Hno.
  destruct no_poetry.
  { inversion H; subst. split; [reflexivity|]. repeat constructor. }
  ok_step H tool Htool. ok_step H poetry_config Hpoetry.
  ok_step H has_plugins Hhas. ok_step H checks1 H1.
  ok_step H has_version Hver. ok_step H checks2 H2.
  ok_step H checks3 H3. inversion H; subst; clear H.
  (* the plugin results *)
  assert (filter is_version checks1 = [] /\
          Forall (fun c => is_version c = true \/ is_plugin c = true) checks1) as [F1 P1].
  { destruct has_plugins.
    - ok_step H1 plugins Hplugins. apply plugin_checks_names in H1.
      split; [eapply plugin_named_not_version; eassumption
             | now apply plugin_named_required].
    - inversion H1; subst. split; [reflexivity | constructor]. }
  (* the result for requires-poetry *)
  assert ((has_version = true /\ exists c, checks2 = [c] /\ is_version c = true) \/
          (has_version = false /\ checks2 = [])) as C2.
  { destruct has_version.
    - left. split; [reflexivity|].
      ok_step H2 version Hversion. ok_step H2 recent Hrecent.
      destruct recent; inversion H2; subst; eexists; split; reflexivity.
    - right. inversion H2; subst. now split. }
  (* the result for build-system *)
  assert ((has_version = false /\ exists c, checks3 = [c] /\ is_version c = true) \/
          checks3 = []) as C3.
  { destruct (negb has_version && has_key "build-system" config)%bool eqn:Hcond.
    - apply andb_prop in Hcond as [Hneg _]. apply negb_true_iff in Hneg.
      ok_step H3 build_system Hbs. ok_step H3 requires Hreq.
      ok_step H3 reqs Hreqs. ok_step H3 hit Hhit.
      destruct hit as [c|]; inversion H3; subst.
      + left. split; [reflexivity|]. exists c. split; [reflexivity|].
        eapply build_system_check_version; eassumption.
      + now right.
    - right. now inversion H3. }
  rewrite !filter_app, !length_app, F1. cbn [List.length].
  destruct C2 as [[Hv [c2 [-> Hc2]]] | [Hv ->]]; subst has_version.
  - destruct C3 as [[Hv _] | ->]; [discriminate|].
    cbn [orb app filter]. rewrite Hc2. split; [reflexivity|].
    apply version_or_plugin_app; [exact P1|].
      apply Forall_cons; [left; assumption || reflexivity | apply Forall_nil].
  - destruct C3 as [[_ [c3 [-> Hc3]]] | ->].
    + cbn [orb app filter]. rewrite Hc3. split; [reflexivity|].
      apply version_or_plugin_app; [exact P1|].
      apply Forall_cons; [left; assumption || reflexivity | apply Forall_nil].
    + cbn [orb app filter]. split; [reflexivity|].
      apply version_or_plugin_app; [exact P1|].
      apply Forall_cons; [left; assumption || reflexivity | apply Forall_nil].
Qed.

Lemma poetry_rule_total (builtin_str : value -> string) (config : dict) :
  poetry_typed config = true ->
  exists found, check_poetry_configuration builtin_str config = Ok found.
Proof.
  unfold poetry_typed, check_poetry_configuration. intros Htyped.
  destruct (negb (truthy (VDict config))); [now eexists|].
  cbn [str_in getitem or_else not_ bind]. rewrite (has_key_lookup "tool").
  destruct (lookup "tool" config) as [tool|] eqn:Htool; cbn [negb bind]; [|now eexists].
  destruct tool as [| | | | | | |tool]; try discriminate.
  cbn [str_in bind negb]. rewrite (has_key_lookup "poetry").
  destruct (lookup "poetry" tool) as [poetry|] eqn:Hpoetry; cbn [negb bind getitem];
    [|now eexists].
  rewrite ?Hpoetry. cbn [bind].
  destruct poetry as [| | | | | | |poetry]; try discriminate.
  apply andb_prop in Htyped as [Hplugins Hversion].
  cbn [str_in bind getitem]. rewrite (has_key_lookup "requires-plugins").
  destruct (lookup "requires-plugins" poetry) as [plugins|] eqn:Hpl; cbn [bind].
  - destruct (plugin_checks_total plugins required_plugins Hplugins) as [checks1 ->].
    cbn [bind]. rewrite (has_key_lookup "requires-poetry").
    destruct (lookup "requires-poetry" poetry) as [version|] eqn:Hv; cbn [bind].
    + destruct (poetry_2_total version Hversion) as [recent ->]. cbn [bind].
      destruct recent; cbn; now eexists.
    + cbn [negb andb]. rewrite (has_key_lookup "build-system").
      destruct (lookup "build-system" config) as [bs|] eqn:Hbs; cbn [bind]; [|now eexists].
      destruct bs as [| | | | | | |bs]; try discriminate. cbn [get].
      destruct (lookup "requires" bs) as [requires|]; cbn [bind iterate].
      * destruct requires as [| | | | | |requires|]; try discriminate. cbn [iterate bind].
        destruct (build_system_check_total requires Hversion) as [hit ->]. cbn [bind].
        destruct hit; cbn; now eexists.
      * cbn. now eexists.
  - rewrite (has_key_lookup "requires-poetry").
    destruct (lookup "requires-poetry" poetry) as [version|] eqn:Hv; cbn [bind].
    + destruct (poetry_2_total version Hversion) as [recent ->]. cbn [bind].
      destruct recent; cbn; now eexists.
    + cbn [negb andb]. rewrite (has_key_lookup "build-system").
      destruct (lookup "build-system" config) as [bs|] eqn:Hbs; cbn [bind]; [|now eexists].
      destruct bs as [| | | | | | |bs]; try discriminate. cbn [get].
      destruct (lookup "requires" bs) as [requires|]; cbn [bind iterate].
      * destruct requires as [| | | | | |requires|]; try discriminate. cbn [iterate bind].
        destruct (build_system_check_total requires Hversion) as [hit ->]. cbn [bind].
        destruct hit; cbn; now eexists.
      * cbn. now eexists.
Qed.

(** C10, as stated, fails: a Poetry requirement written as a number makes
    the rule raise, so no list is returned. *)
Lemma numeric_poetry_requirement_raises :
  check_poetry_configuration (fun _ => "")
    [("tool", VDict [("poetry", VDict [("requires-poetry", VInt 2)])])] = Raise TypeError.
Proof. reflexivity. Qed.

(** C10, amended: whenever the dependency-manager rule returns, empty
    configuration or not, the list holds exactly one result named
    "Poetry Version" and every other result is named "Poetry Plugin: "
    followed by one of the three required plugins; and the rule does return
    whenever the entries it reads have the types of the manifest format. *)
Theorem poetry_rule_results (builtin_str : value -> string) (config : dict) :
  (forall found,
     check_poetry_configuration builtin_str config = Ok found ->
     found <> [] /\
     List.length (filter is_version found) = 1%nat /\
     Forall (fun c => is_version c = true \/ is_plugin c = true) found) /\
  (poetry_typed config = true ->
   exists found, check_poetry_configuration builtin_str config = Ok found).
Proof.
  split.
  - intros found H. apply poetry_results_shape in H as [Hone Hall].
    split; [|now split]. intros ->. discriminate.
  - apply poetry_rule_total.
Qed.

Lemma poetry_rule_results_witness :
  poetry_typed
    [("tool", VDict [("poetry", VDict [("requires-plugins", VDict [("poetry-plugin-export", VStr ">=1.8")])])]);
     ("build-system", VDict [("requires", VList [VStr "poetry-core>=2.0"])])] = true /\
  exists found,
    check_poetry_configuration (fun _ => "")
      [("tool", VDict [("poetry", VDict [("requires-plugins", VDict [("poetry-plugin-export", VStr ">=1.8")])])]);
       ("build-system", VDict [("requires", VList [VStr "poetry-core>=2.0"])])] = Ok found.
Proof.
  split; [reflexivity|].
  apply (proj2 (poetry_rule_results (fun _ => "")
    [("tool", VDict [("poetry", VDict [("requires-plugins", VDict [("poetry-plugin-export", VStr ">=1.8")])])]);
     ("build-system", VDict [("requires", VList [VStr "poetry-core>=2.0"])])])).
  reflexivity.
Defined.

(** ** Local targets that are not directories *)

Section LocalTargets.

Variable builtin_str : value -> string.
Variable resolve : string -> result path.
Variable exists_ : path -> result bool.
Variable is_dir : path -> result bool.
Variable glob : path -> string -> result (list string).
Variable read_text : path -> result string.
Variable toml_loads : string -> option dict.
Variable world : Type.
Variable run_gh : option string -> list string -> world -> process * world.
Variable environ : string -> option string.
Variable which : string -> bool.
Variable json_loads : string -> option value.
Variable b64decode_utf8 : string -> option string.
Variable console : Type.
Variable print : string -> console -> result unit * console.
Variable print_err : string -> console -> result unit * console.
Variable open_w : string -> console -> result unit * console.
Variable write : string -> console -> result unit * console.
Variable close : console -> result unit * console.
Variable write_text : string -> string -> console -> result unit * console.
Variable complain : string -> console -> console.
Variables EMOJI_SUCCESS EMOJI_ERROR EMOJI_WARNING : string.
Variable str_upper : string -> string.
Variable format_1f : spec_float -> string.
Variable json_dumps : value -> string.
Variable exn_text : exn -> string.
Variable traceback_text : exn -> string.

#[local] Abbreviation scan_local :=
  (local_check_repository builtin_str resolve exists_ is_dir glob read_text toml_loads).
#[local] Abbreviation run_main :=
  (main builtin_str resolve exists_ is_dir glob read_text toml_loads world run_gh environ which
     json_loads b64decode_utf8 console print print_err open_w write close write_text complain
     EMOJI_SUCCESS EMOJI_ERROR EMOJI_WARNING str_upper format_1f json_dumps exn_text
     traceback_text).
#[local] Abbreviation render_results :=
  (render console print open_w write close write_text EMOJI_SUCCESS EMOJI_ERROR EMOJI_WARNING
     str_upper format_1f json_dumps).
#[local] Abbreviation on_error :=
  (handler console print_err EMOJI_ERROR exn_text traceback_text).

Lemma main_local (args : arguments) (target : string) (w : world) (c : console) :
  test args = false ->
  repository args = Some target -> target <> "" ->
  determine_repository_type target = "local" ->
  run_main args w c =
    checked console print print_err open_w write close write_text EMOJI_SUCCESS EMOJI_ERROR
      EMOJI_WARNING str_upper format_1f json_dumps exn_text traceback_text args
      (scan_local target) c.
Proof.
  intros Htest Hrepo Hgiven Hlocal. unfold main.
  rewrite Htest, Hrepo. cbn [some_text].
  apply String.eqb_neq in Hgiven. rewrite Hgiven, Hlocal. reflexivity.
Qed.

(** C3, amended: for a local target whose path is found to be missing or
    not to be a directory, the local checker does not fail: it returns a
    report whose only result is the failed "Repository Access" check, no
    rule having run, and the score of that report is 0.0.  The program
    stores the score, writes the results and exits with code 1; it takes the
    error path only if writing the results raises.  The error path is also
    taken when a query of the file system raises instead of answering; on
    it the exit code is 2 as long as the standard error accepts the
    message. *)
Theorem missing_directory_is_reported
    (args : arguments) (target : string) (w : world) (c : console) :
  test args = false ->
  repository args = Some target -> target <> "" ->
  determine_repository_type target = "local" ->
  (forall p,
     resolve target = Ok p ->
     exists_ p = Ok false \/ (exists_ p = Ok true /\ is_dir p = Ok false) ->
     exists report,
       scan_local target = Ok report /\
       checks report = [no_access p] /\
       calculate_score report = Ok (S754_zero false) /\
       run_main args w c =
         match render_results args (store_score report (S754_zero false)) (S754_zero false) c with
         | (Ok _, c') => (Exit 1, c')
         | (Raise e, c') => on_error args e c'
         end) /\
  (forall e,
     resolve target = Raise e \/
     (exists p, resolve target = Ok p /\
                (exists_ p = Raise e \/ (exists_ p = Ok true /\ is_dir p = Raise e))) ->
     scan_local target = Raise e /\
     run_main args w c = on_error args e c) /\
  (forall e c',
     (forall text c0, fst (print_err text c0) = Ok tt) ->
     fst (on_error args e c') = Exit 2).
Proof.
  intros Htest Hrepo Hgiven Hlocal.
  rewrite (main_local args target w c Htest Hrepo Hgiven Hlocal).
  split; [|split].
  - intros p Hp Hmissing.
    assert (scan_local target =
              Ok (add_check (new_report (path_str p) (path_name p) "local")
                    "Repository Access" "Infrastructure" false
                    ("Path does not exist or is not a directory: " ++ path_str p) "error"))
      as Hscan.
    { unfold local_check_repository. rewrite Hp. cbn [bind].
      destruct Hmissing as [He | [He Hd]]; rewrite He; cbn [or_else not_ bind negb];
        [reflexivity | rewrite Hd; reflexivity]. }
    eexists. split; [exact Hscan|]. split; [reflexivity|]. split; [reflexivity|].
    rewrite Hscan. unfold checked, and_next, attempt, done.
    match goal with
    | |- context [render ?a1 ?a2 ?a3 ?a4 ?a5 ?a6 ?a7 ?a8 ?a9 ?a10 ?a11 ?a12 ?a13 ?r ?s ?c0] =>
        change (calculate_score
                  (add_check (new_report (path_str p) (path_name p) "local")
                     "Repository Access" "Infrastructure" false
                     ("Path does not exist or is not a directory: " ++ path_str p) "error"))
          with (@Ok spec_float (S754_zero false))
    end.
    cbv iota beta.
    destruct (render _ _ _ _ _ _ _ _ _ _ _ _ _ _ _ _) as [[u|e] c']; reflexivity.
  - intros e Hraise.
    assert (scan_local target = Raise e) as Hscan.
    { unfold local_check_repository.
      destruct Hraise as [Hr | [p [Hp [He | [He Hd]]]]].
      - now rewrite Hr.
      - rewrite Hp. cbn [bind]. now rewrite He.
      - rewrite Hp. cbn [bind]. rewrite He. cbn [or_else not_ bind negb]. now rewrite Hd. }
    split; [exact Hscan|]. rewrite Hscan. reflexivity.
  - intros e c' Hquiet. unfold handler.
    pose proof (Hquiet (EMOJI_ERROR ++ " Error checking repository: " ++ exn_text e) c') as H1.
    destruct (print_err _ c') as [[u|e1] c1]; cbn in H1; [|discriminate].
    destruct (verbose args); [|reflexivity].
    pose proof (Hquiet (traceback_text e) c1) as H2.
    destruct (print_err _ c1) as [[u2|e2] c2]; cbn in H2; [reflexivity | discriminate].
Qed.

End LocalTargets.

Lemma missing_directory_is_reported_witness :
  determine_repository_type "/home/x/project" = "local" /\
  nowhere "/home/x/project" = Ok ["home"; "x"; "project"] /\
  exists report,
    local_check_repository (fun _ => "") nowhere (fun _ => Ok false) (fun _ => Ok false)
      (fun _ _ => Ok []) (fun _ => Raise OSError) (fun _ => None) "/home/x/project" = Ok report /\
    checks report = [no_access ["home"; "x"; "project"]] /\
    calculate_score report = Ok (S754_zero false) /\
    fst (main_nowhere (plain "/home/x/project")) = Exit 1.
Proof.
  split; [reflexivity|]. split; [reflexivity|].
  destruct (proj1 (missing_directory_is_reported (fun _ => "") nowhere (fun _ => Ok false)
                     (fun _ => Ok false) (fun _ _ => Ok []) (fun _ => Raise OSError)
                     (fun _ => None) unit (fun _ _ w => (LaunchError, w)) (fun _ => None)
                     (fun _ => false) (fun _ => None) (fun _ => None)
                     transcript keep keep keep keep (fun c => (Ok tt, c))
                     (fun _ text => keep text) (fun text c => (c ++ [text])%list)
                     "[OK]" "[X]" "[!]" upper_ascii one_decimal (fun _ => "{}") (fun _ => "")
                     (fun _ => "")
                     (plain "/home/x/project") "/home/x/project" tt []
                     eq_refl eq_refl ltac:(discriminate) eq_refl)
                  ["home"; "x"; "project"] eq_refl (or_introl eq_refl))
    as [report [Hscan [Hchecks [Hscore Hmain]]]].
  exists report. split; [exact Hscan|]. split; [exact Hchecks|]. split; [exact Hscore|].
  unfold main_nowhere. rewrite Hmain.
  injection Hscan as <-. reflexivity.
Defined.

(** C3, as stated, fails: the scan of a missing local directory produces a
    report with one failed result, the program prints it and exits with
    code 1; no error is raised and the exit code is not 2. *)
Lemma missing_directory_exit_code :
  main_nowhere (plain "/home/x/project") =
    (Exit 1,
     [String newline (times "=" 80);
      "MODERN PYTHON PROJECT STANDARDS COMPLIANCE REPORT";
      times "=" 80;
      "Repository: project";
      "Type: LOCAL";
      "Compliance Score: 0.0%";
      "Checks Passed: 0/1";
      times "-" 80;
      String newline "Infrastructure:";
      "  [X] Repository Access: Path does not exist or is not a directory: /home/x/project";
      String newline (times "=" 80);
      "[X] NEEDS WORK: Repository requires significant updates to meet standards.";
      times "=" 80 ++ String newline ""]).
Proof. vm_compute. reflexivity. Qed.

(** ** Transport failures of the GitHub checker *)

Lemma names_add_check (r : ComplianceReport) (n c : string) (p : bool) (m s : string) :
  names (add_check r n c p m s) = (names r ++ [n])%list.
Proof. unfold names. cbn. now rewrite map_app. Qed.

Lemma sonar_check_names (has_sonar : bool) (config : dict) (r r' : ComplianceReport) :
  sonar_check has_sonar config r = Ok r' -> names r' = (names r ++ ["SonarCloud"])%list.
Proof.
  unfold sonar_check. intros H.
  destruct has_sonar; [destruct (truthy (VDict config))|].
  - ok_step H in_project Hp. ok_step H py_version Hv. ok_step H current Hc.
    destruct current; inversion H; apply names_add_check.
  - inversion H; apply names_add_check.
  - inversion H; apply names_add_check.
Qed.

Lemma sonar_check_total (config : dict) (r0 : ComplianceReport) :
  returns (sonar_check true config r0) = true ->
  forall has_sonar r, exists r', sonar_check has_sonar config r = Ok r'.
Proof.
  unfold sonar_check. intros H has_sonar r.
  destruct has_sonar; [|now eexists].
  destruct (truthy (VDict config)); [|now eexists].
  destruct (and_then (str_in "project" (VDict config)) _) as [in_project|]; [|discriminate].
  cbn [bind] in *.
  match goal with
  | |- context [bind ?e _] => destruct e as [py_version|]; [|discriminate]
  end.
  cbn [bind] in *.
  destruct (and_then (Ok (truthy py_version)) _) as [current|]; [|discriminate].
  cbn [bind]. destruct current; now eexists.
Qed.

Section Transport.

Variable builtin_str : value -> string.
Variable world : Type.
Variable run_gh : option string -> list string -> world -> process * world.
Variable toml_loads : string -> option dict.
Variable json_loads : string -> option value.
Variable b64decode_utf8 : string -> option string.
Variable self : GitHubChecker.

#[local] Abbreviation gh_io := (io world).
#[local] Abbreviation gh_command := (run_gh_command world run_gh self).
#[local] Abbreviation file_content := (get_file_content world run_gh b64decode_utf8 self).
#[local] Abbreviation exists_file := (file_exists world run_gh self).

Lemma bind_io_ok {A B : Type} (c : gh_io A) (k : A -> gh_io B) (w w' : world) (a : A) :
  c w = Ok (a, w') -> bind_io world c k w = k a w'.
Proof. intros H. unfold bind_io. now rewrite H. Qed.

Lemma run_gh_command_failed (args : list string) (w w' : world) (p : process) :
  run_gh (env_token self) args w = (p, w') ->
  p = TimeoutExpired \/ p = CalledProcessError ->
  gh_command args w = Ok (None, w').
Proof.
  intros Hrun Hp. unfold run_gh_command. rewrite Hrun.
  destruct Hp as [-> | ->]; reflexivity.
Qed.

Lemma run_gh_command_launches (args : list string) (w : world) :
  (launches world run_gh) -> exists out w', gh_command args w = Ok (out, w').
Proof.
  intros Hl. unfold run_gh_command.
  specialize (Hl (env_token self) args w).
  destruct (run_gh (env_token self) args w) as [p w']. cbn in Hl.
  destruct p as [stdout | | |].
  - now exists (Some stdout), w'.
  - now exists None, w'.
  - now exists None, w'.
  - congruence.
Qed.

Lemma run_gh_command_offline (args : list string) (w : world) :
  (offline world run_gh) -> exists w', gh_command args w = Ok (None, w').
Proof.
  intros Hoff. specialize (Hoff (env_token self) args w).
  destruct (run_gh (env_token self) args w) as [p w'] eqn:Hrun. cbn in Hoff.
  exists w'. now apply (run_gh_command_failed args w w' p).
Qed.

Lemma file_exists_failed (repo file : string) (w w' : world) (p : process) :
  run_gh (env_token self) ["api"; contents_url repo file; "--jq"; ".name"] w = (p, w') ->
  p = TimeoutExpired \/ p = CalledProcessError ->
  exists_file repo file w = Ok (false, w').
Proof.
  intros Hrun Hp. unfold file_exists.
  now rewrite (bind_io_ok _ _ _ _ _ (run_gh_command_failed _ _ _ _ Hrun Hp)).
Qed.

Lemma file_exists_launches (repo file : string) (w : world) :
  (launches world run_gh) -> exists found w', exists_file repo file w = Ok (found, w').
Proof.
  intros Hl. unfold file_exists.
  destruct (run_gh_command_launches ["api"; contents_url repo file; "--jq"; ".name"] w Hl)
    as [out [w' H]].
  rewrite (bind_io_ok _ _ _ _ _ H). destruct out; now eexists; eexists.
Qed.

Lemma file_exists_offline (repo file : string) (w : world) :
  (offline world run_gh) -> exists w', exists_file repo file w = Ok (false, w').
Proof.
  intros Hoff. unfold file_exists.
  destruct (run_gh_command_offline ["api"; contents_url repo file; "--jq"; ".name"] w Hoff)
    as [w' H].
  rewrite (bind_io_ok _ _ _ _ _ H). now exists w'.
Qed.

Lemma get_file_content_launches (repo file : string) (w : world) :
  (launches world run_gh) -> exists content w', file_content repo file w = Ok (content, w').
Proof.
  intros Hl. unfold get_file_content.
  match goal with
  | |- context [bind_io _ (run_gh_command _ _ _ ?args) _ w] =>
      destruct (run_gh_command_launches args w Hl) as [out [w1 H1]]
  end.
  rewrite (bind_io_ok _ _ _ _ _ H1).
  assert (exists content w',
            bind_io world
              (gh_command ["api"; contents_url repo file; "--header";
                               "Accept: application/vnd.github.raw"])
              (fun content : option string =>
                 match content with
                 | Some text =>
                     if (nonempty text && nonempty (strip text))%bool
                     then ret world (Some text) else ret world None
                 | None => ret world None
                 end) w1 = Ok (content, w')) as Hraw.
  { match goal with
    | |- context [bind_io _ (run_gh_command _ _ _ ?args) _ w1] =>
        destruct (run_gh_command_launches args w1 Hl) as [out2 [w2 H2]]
    end.
    rewrite (bind_io_ok _ _ _ _ _ H2).
    destruct out2 as [text|]; [|now eexists; eexists].
    destruct (nonempty text && nonempty (strip text))%bool; now eexists; eexists. }
  destruct out as [text|]; [|exact Hraw].
  destruct (nonempty text && nonempty (strip text) && negb (String.eqb (strip text) "null"))%bool;
    [|exact Hraw].
  destruct (negb (prefix "{" text)); [|now eexists; eexists].
  destruct (b64decode_utf8 _); now eexists; eexists.
Qed.

Lemma get_file_content_offline (repo file : string) (w : world) :
  (offline world run_gh) -> exists w', file_content repo file w = Ok (None, w').
Proof.
  intros Hoff. unfold get_file_content.
  match goal with
  | |- context [bind_io _ (run_gh_command _ _ _ ?args) _ w] =>
      destruct (run_gh_command_offline args w Hoff) as [w1 H1]
  end.
  rewrite (bind_io_ok _ _ _ _ _ H1).
  match goal with
  | |- context [bind_io _ (run_gh_command _ _ _ ?args) _ w1] =>
      destruct (run_gh_command_offline args w1 Hoff) as [w2 H2]
  end.
  rewrite (bind_io_ok _ _ _ _ _ H2). now exists w2.
Qed.

Lemma sonar_in_remote_workflows_launches (repo : string) (workflows : list string) (w : world) :
  (launches world run_gh) ->
  exists found w',
    sonar_in_remote_workflows world run_gh b64decode_utf8 self repo workflows w = Ok (found, w').
Proof.
  intros Hl. revert w. induction workflows as [|wf rest IH]; intros w; cbn.
  - now eexists; eexists.
  - destruct (nonempty wf && negb (String.eqb wf "null"))%bool; [|apply IH].
    destruct (get_file_content_launches repo (".github/workflows/" ++ wf) w Hl)
      as [content [w' H]].
    rewrite (bind_io_ok _ _ _ _ _ H).
    destruct content as [text|]; [|apply IH].
    match goal with |- context [if ?b then _ else _] => destruct b end;
      [now eexists; eexists | apply IH].
Qed.

Lemma lift_ok {A : Type} (r : result A) (a : A) (w : world) :
  r = Ok a -> lift world r w = Ok (a, w).
Proof. intros ->. reflexivity. Qed.

Lemma additional_files_launches (repo : string) (config : dict) (r : ComplianceReport)
    (w : world) :
  (launches world run_gh) ->
  returns (uses_poetry config) = true ->
  returns (sonar_check true config r) = true ->
  exists r' w',
    github_check_additional_files world run_gh b64decode_utf8 self repo config r w
      = Ok (r', w') /\
    names r' = (names r ++ file_stages)%list.
Proof.
  intros Hl Hpoetry Hsonar. unfold github_check_additional_files.
  destruct (file_exists_launches repo "README.md" w Hl) as [readme [w1 H1]].
  rewrite (bind_io_ok _ _ _ _ _ H1).
  destruct (file_exists_launches repo "SRD.md" w1 Hl) as [srd [w2 H2]].
  rewrite (bind_io_ok _ _ _ _ _ H2).
  destruct (uses_poetry config) as [poetry|] eqn:Hp; [|discriminate].
  rewrite (bind_io_ok _ _ _ _ _ (lift_ok _ _ w2 eq_refl)).
  set (r2 := if srd then add_check _ "SRD.md" _ _ _ _ else add_check _ "SRD.md" _ _ _ _).
  assert (names r2 = (names r ++ ["README.md"; "SRD.md"])%list) as N2.
  { subst r2. destruct readme, srd; rewrite !names_add_check, <- app_assoc; reflexivity. }
  clearbody r2.
  assert (exists r3 w3,
            (if poetry
             then bind_io world (exists_file repo "poetry.lock")
                    (fun lock : bool =>
                       if lock
                       then ret world (add_check r2 "Poetry Lock File" "Configuration" true
                                         "poetry.lock present" "info")
                       else ret world (add_check r2 "Poetry Lock File" "Configuration" false
                                         "poetry.lock missing" "error"))
             else ret world (add_check r2 "Poetry Lock File" "Configuration" true
                               "No problems noted" "info")) w2 = Ok (r3, w3) /\
            names r3 = (names r2 ++ ["Poetry Lock File"])%list) as [r3 [w3 [H3 N3]]].
  { destruct poetry.
    - destruct (file_exists_launches repo "poetry.lock" w2 Hl) as [lock [w3 H3]].
      rewrite (bind_io_ok _ _ _ _ _ H3).
      destruct lock; eexists; eexists; (split; [reflexivity | apply names_add_check]).
    - eexists; eexists; (split; [reflexivity | apply names_add_check]). }
  rewrite (bind_io_ok _ _ _ _ _ H3).
  destruct (file_exists_launches repo ".github/workflows/PythonManager.yml" w3 Hl)
    as [manager [w4 H4]].
  rewrite (bind_io_ok _ _ _ _ _ H4).
  match goal with
  | |- context [bind_io _ (run_gh_command _ _ _ ?args) _ w4] =>
      destruct (run_gh_command_launches args w4 Hl) as [workflows [w5 H5]]
  end.
  rewrite (bind_io_ok _ _ _ _ _ H5).
  set (workflow_names := match workflows with
                         | Some text => if nonempty text then split newline (strip text) else []
                         | None => []
                         end).
  set (r5 := if existsb _ workflow_names then add_check _ "Ruff Formatting Workflow" _ _ _ _
             else add_check _ "Ruff Formatting Workflow" _ _ _ _).
  assert (names r5 = (names r3 ++ ["Python Manager Workflow"; "Ruff Formatting Workflow"])%list)
    as N5.
  { subst r5. destruct manager;
      match goal with |- context [existsb ?f ?l] => destruct (existsb f l) end;
      rewrite !names_add_check, <- app_assoc; reflexivity. }
  clearbody r5.
  assert (exists found w6,
            bind_io world (exists_file repo "sonar-project.properties")
              (fun first : bool =>
                 if first then ret world true
                 else exists_file repo ".sonarcloud.properties") w5 = Ok (found, w6))
    as [sonar_file [w6 H6]].
  { destruct (file_exists_launches repo "sonar-project.properties" w5 Hl) as [first [w6 H6]].
    rewrite (bind_io_ok _ _ _ _ _ H6).
    destruct first; [now eexists; eexists | apply file_exists_launches, Hl]. }
  rewrite (bind_io_ok _ _ _ _ _ H6).
  destruct (sonar_in_remote_workflows_launches repo workflow_names w6 Hl)
    as [in_workflows [w7 H7]].
  rewrite (bind_io_ok _ _ _ _ _ H7).
  destruct (sonar_check_total config r Hsonar (sonar_file || in_workflows)%bool r5)
    as [r' Hr'].
  exists r', w7. split; [now apply lift_ok|].
  rewrite (sonar_check_names _ _ _ _ Hr'), N5, N3, N2.
  rewrite <- !app_assoc. reflexivity.
Qed.

Lemma additional_files_offline (repo : string) (r : ComplianceReport) (w : world) :
  (offline world run_gh) ->
  exists w',
    github_check_additional_files world run_gh b64decode_utf8 self repo [] r w =
      Ok (add_all r (firstn 6 (skipn 6 offline_checks)), w').
Proof.
  intros Hoff. unfold github_check_additional_files.
  destruct (file_exists_offline repo "README.md" w Hoff) as [w1 H1].
  rewrite (bind_io_ok _ _ _ _ _ H1).
  destruct (file_exists_offline repo "SRD.md" w1 Hoff) as [w2 H2].
  rewrite (bind_io_ok _ _ _ _ _ H2).
  rewrite (bind_io_ok _ _ _ _ _ (lift_ok (uses_poetry []) false w2 eq_refl)).
  rewrite (bind_io_ok _ _ _ _ _ (eq_refl : ret world _ w2 = Ok (_, w2))).
  destruct (file_exists_offline repo ".github/workflows/PythonManager.yml" w2 Hoff)
    as [w4 H4].
  rewrite (bind_io_ok _ _ _ _ _ H4).
  match goal with
  | |- context [bind_io _ (run_gh_command _ _ _ ?args) _ w4] =>
      destruct (run_gh_command_offline args w4 Hoff) as [w5 H5]
  end.
  rewrite (bind_io_ok _ _ _ _ _ H5).
  assert (bind_io world (exists_file repo "sonar-project.properties")
            (fun first : bool =>
               if first then ret world true
               else exists_file repo ".sonarcloud.properties") w5 =
          exists_file repo ".sonarcloud.properties"
            (snd (run_gh (env_token self)
                    ["api"; contents_url repo "sonar-project.properties"; "--jq"; ".name"] w5)))
    as H6.
  { destruct (run_gh (env_token self)
                ["api"; contents_url repo "sonar-project.properties"; "--jq"; ".name"] w5)
      as [p w6] eqn:Hrun.
    pose proof (Hoff (env_token self)
                  ["api"; contents_url repo "sonar-project.properties"; "--jq"; ".name"] w5)
      as Hp.
    rewrite Hrun in Hp. cbn [fst snd] in *.
    now rewrite (bind_io_ok _ _ _ _ _ (file_exists_failed _ _ _ _ _ Hrun Hp)). }
  unfold bind_io at 1. rewrite H6.
  match goal with
  | |- context [file_exists _ _ _ _ ".sonarcloud.properties" ?w6] =>
      destruct (file_exists_offline repo ".sonarcloud.properties" w6 Hoff) as [w7 H7]
  end.
  rewrite H7. cbn. now exists w7.
Qed.

Lemma load_config_offline (repo : string) (w : world) :
  (offline world run_gh) ->
  exists w',
    github_load_config world run_gh toml_loads b64decode_utf8 self repo w = Ok ([], w').
Proof.
  intros Hoff. unfold github_load_config.
  destruct (get_file_content_offline repo "pyproject.toml" w Hoff) as [w' H].
  rewrite (bind_io_ok _ _ _ _ _ H). now exists w'.
Qed.

Lemma repository_topics_offline (repo : string) (r : ComplianceReport) (w : world) :
  (offline world run_gh) ->
  exists w',
    check_repository_topics world run_gh json_loads self repo r w =
      Ok (add_all r (skipn 12 offline_checks), w').
Proof.
  intros Hoff. unfold check_repository_topics, get_repo_info.
  unfold bind_io at 1.
  match goal with
  | |- context [bind_io _ (run_gh_command _ _ _ ?args) _ w] =>
      destruct (run_gh_command_offline args w Hoff) as [w' H]
  end.
  rewrite (bind_io_ok _ _ _ _ _ H). now exists w'.
Qed.

(** C7: when the [gh] command of a file-exists query times out or exits
    with an error, [_run_gh_command] returns [None] and [_file_exists]
    returns false, without raising, and the stages that follow the query
    run with that answer.  As long as [gh] can be started, the scan of the
    additional files appends its six results whatever the outcome of each
    command; and a scan during which every command times out or fails
    still returns a report with the results of every stage. *)
Theorem transport_failure_is_absence :
  (forall repo file w w' p,
     run_gh (env_token self) ["api"; contents_url repo file; "--jq"; ".name"] w = (p, w') ->
     p = TimeoutExpired \/ p = CalledProcessError ->
     gh_command ["api"; contents_url repo file; "--jq"; ".name"] w = Ok (None, w') /\
     exists_file repo file w = Ok (false, w') /\
     forall (A : Type) (stages : bool -> gh_io A),
       bind_io world (exists_file repo file) stages w = stages false w') /\
  ((launches world run_gh) ->
   forall repo config r w,
     returns (uses_poetry config) = true ->
     returns (sonar_check true config r) = true ->
     exists r' w',
       github_check_additional_files world run_gh b64decode_utf8 self repo config r w
         = Ok (r', w') /\
       names r' = (names r ++ file_stages)%list) /\
  ((offline world run_gh) ->
   forall repo_spec repo w,
     parse_repo_spec repo_spec = Ok repo ->
     exists report w',
       github_check_repository builtin_str world run_gh toml_loads json_loads b64decode_utf8
         self repo_spec w = Ok (report, w') /\
       checks report = offline_checks).
Proof.
  split; [|split].
  - intros repo file w w' p Hrun Hp. split; [|split].
    + now apply (run_gh_command_failed _ _ _ p).
    + now apply (file_exists_failed _ _ _ _ p).
    + intros A stages. apply bind_io_ok. now apply (file_exists_failed _ _ _ _ p).
  - intros Hl repo config r w Hp Hs. now apply additional_files_launches.
  - intros Hoff repo_spec repo w Hparse. unfold github_check_repository.
    rewrite (bind_io_ok _ _ _ _ _ (lift_ok _ _ w Hparse)).
    destruct (load_config_offline repo w Hoff) as [w1 H1].
    rewrite (bind_io_ok _ _ _ _ _ H1).
    rewrite (bind_io_ok _ _ _ _ _
               (lift_ok (run_standard_checks builtin_str []
                           (new_report ("https://github.com/" ++ repo) repo "github"))
                        _ w1 eq_refl)).
    match goal with
    | |- context [github_check_additional_files _ _ _ _ _ _ ?r] =>
        destruct (additional_files_offline repo r w1 Hoff) as [w2 H2]
    end.
    rewrite (bind_io_ok _ _ _ _ _ H2).
    match goal with
    | |- context [check_repository_topics _ _ _ _ _ ?r] =>
        destruct (repository_topics_offline repo r w2 Hoff) as [w3 H3]
    end.
    rewrite H3. eexists; eexists. split; reflexivity.
Qed.

End Transport.

Lemma transport_failure_is_absence_witness :
  offline unit timed_out /\
  parse_repo_spec "acme/widget" = Ok "acme/widget" /\
  file_exists unit timed_out gh_login "acme/widget" "README.md" tt = Ok (false, tt) /\
  exists report w',
    github_check_repository (fun _ => "") unit timed_out (fun _ => None) (fun _ => None)
      (fun _ => None) gh_login "acme/widget" tt = Ok (report, w') /\
    checks report = offline_checks.
Proof.
  pose proof (transport_failure_is_absence (fun _ => "") unit timed_out (fun _ => None)
                (fun _ => None) (fun _ => None) gh_login) as [Hfile [_ Hscan]].
  assert (offline unit timed_out) as Hoff by (intros tok args w; left; reflexivity).
  split; [exact Hoff|]. split; [reflexivity|]. split.
  - apply (proj1 (proj2 (Hfile "acme/widget" "README.md" tt tt TimeoutExpired
                             eq_refl (or_introl eq_refl)))).
  - apply (Hscan Hoff "acme/widget" "acme/widget" tt). reflexivity.
Defined.

(** ** Repository type *)

Lemma append_empty (s : string) : s ++ "" = s.
Proof. induction s as [|c s IH]; cbn; congruence. Qed.

Lemma append_assoc (a b c : string) : (a ++ b) ++ c = a ++ b ++ c.
Proof. induction a as [|x a IH]; cbn; congruence. Qed.

Lemma all_chars_append (p : ascii -> bool) (a b : string) :
  all_chars p (a ++ b) = (all_chars p a && all_chars p b)%bool.
Proof.
  induction a as [|c a IH]; cbn; [reflexivity|]. now rewrite IH, andb_assoc.
Qed.

Lemma plus_loop_unfold (step : (bool -> string -> bool) -> bool -> string -> bool)
    (k : bool -> string -> bool) (fuel : nat) (at_start : bool) (s : string) :
  plus_loop step k fuel at_start s =
  step (fun at_start' s' =>
          (match fuel with
           | O => false
           | S fuel' => plus_loop step k fuel' at_start' s'
           end || k at_start' s')%bool)
       at_start s.
Proof. destruct fuel; reflexivity. Qed.

Lemma plus_class_spec (p : ascii -> bool) (k : bool -> string -> bool) (fuel : nat)
    (at_start : bool) (s : string) :
  (String.length s <= fuel)%nat ->
  plus_loop (fun k' at_start' s' => matches (Class p) k' at_start' s') k fuel at_start s = true
  <-> exists a b, s = a ++ b /\ a <> "" /\ all_chars p a = true /\ k false b = true.
Proof.
  revert at_start s. induction fuel as [|fuel IH]; intros at_start s Hlen;
    rewrite plus_loop_unfold; cbn [matches].
  - destruct s as [|c rest]; [|cbn in Hlen; lia].
    split; [discriminate|]. intros [a [b [Hs [Ha _]]]].
    destruct a; [contradiction | discriminate].
  - destruct s as [|c rest].
    + split; [discriminate|]. intros [a [b [Hs [Ha _]]]].
      destruct a; [contradiction | discriminate].
    + cbn in Hlen. split.
      * destruct (p c) eqn:Hc; [|discriminate]. intros H.
        apply orb_true_iff in H as [H | H].
        -- apply IH in H as [a [b [-> [Ha [Hall Hk]]]]]; [|lia].
           exists (String c a), b. cbn. rewrite Hc, Hall. repeat split; congruence.
        -- exists (String c ""), rest. cbn. rewrite Hc. repeat split; congruence.
      * intros [a [b [Hs [Ha [Hall Hk]]]]].
        destruct a as [|c' a']; [contradiction|].
        cbn in Hs. inversion Hs; subst c' rest. cbn in Hall.
        apply andb_prop in Hall as [Hc Hall]. rewrite Hc.
        apply orb_true_iff.
        destruct a' as [|c2 a2]; [right; exact Hk|].
        left. apply IH; [lia|]. exists (String c2 a2), b. repeat split; congruence.
Qed.

Lemma matches_plus_class (p : ascii -> bool) (k : bool -> string -> bool)
    (at_start : bool) (s : string) :
  matches (Plus (Class p)) k at_start s = true
  <-> exists a b, s = a ++ b /\ a <> "" /\ all_chars p a = true /\ k false b = true.
Proof. cbn [matches]. now apply plus_class_spec. Qed.

Lemma matches_chr (c : ascii) (r : regex) (k : bool -> string -> bool)
    (at_start : bool) (s : string) :
  matches (Seq (Chr c) r) k at_start s = true
  <-> exists rest, s = String c rest /\ matches r k false rest = true.
Proof.
  cbn [matches]. destruct s as [|c' rest].
  - split; [discriminate | intros [rest [H _]]; discriminate].
  - destruct (Ascii.eqb c' c) eqn:Hc.
    + apply Ascii.eqb_eq in Hc. subst. split.
      * intros H. now exists rest.
      * intros [rest' [H Hm]]. now inversion H; subst.
    + split; [discriminate|]. intros [rest' [H _]]. inversion H; subst.
      now rewrite Ascii.eqb_refl in Hc.
Qed.

Lemma matches_lit (c : ascii) (text : string) (r : regex) (k : bool -> string -> bool)
    (at_start : bool) (s : string) :
  matches (lit (String c text) r) k at_start s = true
  <-> exists rest, s = String c text ++ rest /\ matches r k false rest = true.
Proof.
  revert c at_start s. induction text as [|c2 text IH]; intros c at_start s;
    cbn [lit]; rewrite matches_chr.
  - reflexivity.
  - split.
    + intros [rest0 [-> H]]. apply IH in H as [rest [-> H]]. now exists rest.
    + intros [rest [-> H]]. eexists. split; [reflexivity|]. apply IH. now exists rest.
Qed.

Lemma is_segment_spec (s : string) :
  is_segment s = true <-> s <> "" /\ all_chars word_or_hyphen s = true.
Proof.
  unfold is_segment, nonempty. rewrite andb_true_iff, negb_true_iff, String.eqb_neq.
  reflexivity.
Qed.

Lemma matches_owner_name (k : bool -> string -> bool) (at_start : bool) (s : string) :
  matches owner_name k at_start s = true
  <-> exists owner name rest,
        is_segment owner = true /\ is_segment name = true /\
        s = owner ++ "/" ++ name ++ rest /\ k false rest = true.
Proof.
  unfold owner_name.
  change (matches (Seq ?r1 ?r2) k at_start s)
    with (matches r1 (fun at_start' s' => matches r2 k at_start' s') at_start s).
  rewrite matches_plus_class. split.
  - intros [owner [b [-> [Ho [Hao H]]]]].
    apply matches_chr in H as [rest0 [-> H]].
    apply matches_plus_class in H as [name [rest [-> [Hn [Han Hk]]]]].
    exists owner, name, rest. rewrite !is_segment_spec. repeat split; assumption.
  - intros [owner [name [rest [Ho [Hn [-> Hk]]]]]].
    apply is_segment_spec in Ho as [Ho Hao]. apply is_segment_spec in Hn as [Hn Han].
    exists owner, ("/" ++ name ++ rest). repeat split; try assumption.
    apply matches_chr. exists (name ++ rest). split; [reflexivity|].
    apply matches_plus_class. now exists name, rest.
Qed.

Lemma matches_host (c : ascii) (host : string) (at_start : bool) (s : string) :
  matches (lit (String c host) owner_name) (fun _ _ => true) at_start s = true
  <-> exists owner name rest,
        is_segment owner = true /\ is_segment name = true /\
        s = String c host ++ owner ++ "/" ++ name ++ rest.
Proof.
  rewrite matches_lit. split.
  - intros [rest0 [-> H]]. apply matches_owner_name in H as [owner [name [rest [Ho [Hn [-> _]]]]]].
    now exists owner, name, rest.
  - intros [owner [name [rest [Ho [Hn ->]]]]]. eexists. split; [reflexivity|].
    apply matches_owner_name. now exists owner, name, rest.
Qed.

Lemma http_pattern_spec (s : string) :
  re_match (Seq Bol (lit "http" (Seq (Opt (Chr "s")) (lit "://github.com/" owner_name)))) s
    = true
  <-> exists owner name rest,
        is_segment owner = true /\ is_segment name = true /\
        (s = "https://github.com/" ++ owner ++ "/" ++ name ++ rest \/
         s = "http://github.com/" ++ owner ++ "/" ++ name ++ rest).
Proof.
  unfold re_match. cbn [matches]. rewrite matches_lit. split.
  - intros [rest0 [-> H]]. cbn [matches] in H. apply orb_true_iff in H as [H | H].
    + change (matches (Seq (Chr "s") (lit "://github.com/" owner_name))
                (fun _ _ => true) false rest0 = true) in H.
      apply matches_chr in H as [rest1 [-> H]].
      apply matches_host in H as [owner [name [rest [Ho [Hn ->]]]]].
      exists owner, name, rest. repeat split; try assumption. now left.
    + apply matches_host in H as [owner [name [rest [Ho [Hn ->]]]]].
      exists owner, name, rest. repeat split; try assumption. now right.
  - intros [owner [name [rest [Ho [Hn [-> | ->]]]]]].
    + exists ("s://github.com/" ++ owner ++ "/" ++ name ++ rest). split; [reflexivity|].
      cbn [matches]. apply orb_true_iff. left.
      change (matches (Seq (Chr "s") (lit "://github.com/" owner_name)) (fun _ _ => true) false
                ("s://github.com/" ++ owner ++ "/" ++ name ++ rest) = true).
      apply matches_chr. eexists. split; [reflexivity|].
      apply matches_host. now exists owner, name, rest.
    + exists ("://github.com/" ++ owner ++ "/" ++ name ++ rest). split; [reflexivity|].
      cbn [matches]. apply orb_true_iff. right.
      apply matches_host. now exists owner, name, rest.
Qed.

Lemma host_pattern_spec (c : ascii) (host : string) (s : string) :
  re_match (Seq Bol (lit (String c host) owner_name)) s = true
  <-> exists owner name rest,
        is_segment owner = true /\ is_segment name = true /\
        s = String c host ++ owner ++ "/" ++ name ++ rest.
Proof. unfold re_match. cbn [matches]. apply matches_host. Qed.

Lemma bare_pattern_spec (s : string) :
  re_match (Seq Bol (Seq owner_name Eol)) s = true
  <-> bare_form s \/ exists t, bare_form t /\ s = t ++ String newline "".
Proof.
  unfold re_match, bare_form. cbn [matches]. rewrite matches_owner_name. split.
  - intros [owner [name [rest [Ho [Hn [-> H]]]]]].
    destruct (String.eqb rest "" || String.eqb rest (String newline ""))%bool eqn:Hrest;
      [|discriminate].
    apply orb_true_iff in Hrest as [Hrest | Hrest]; apply String.eqb_eq in Hrest; subst rest.
    + left. exists owner, name. repeat split; try assumption.
      now rewrite !append_empty.
    + right. exists (owner ++ "/" ++ name). split.
      * now exists owner, name.
      * now rewrite !append_assoc.
  - intros [[owner [name [Ho [Hn ->]]]] | [t [[owner [name [Ho [Hn ->]]]] ->]]].
    + exists owner, name, "". repeat split; try assumption.
      now rewrite !append_empty.
    + exists owner, name, (String newline ""). repeat split; try assumption.
      now rewrite !append_assoc.
Qed.

Lemma url_form_spec (s : string) :
  url_form s <->
  (exists owner name rest,
     is_segment owner = true /\ is_segment name = true /\
     (s = "https://github.com/" ++ owner ++ "/" ++ name ++ rest \/
      s = "http://github.com/" ++ owner ++ "/" ++ name ++ rest)) \/
  (exists owner name rest,
     is_segment owner = true /\ is_segment name = true /\
     s = "git@github.com:" ++ owner ++ "/" ++ name ++ rest) \/
  (exists owner name rest,
     is_segment owner = true /\ is_segment name = true /\
     s = "github.com/" ++ owner ++ "/" ++ name ++ rest).
Proof.
  unfold url_form. split.
  - intros [host [owner [name [rest [Hhost [Ho [Hn ->]]]]]]].
    cbn in Hhost. destruct Hhost as [<- | [<- | [<- | [<- | []]]]].
    + left. exists owner, name, rest. repeat split; try assumption. now left.
    + left. exists owner, name, rest. repeat split; try assumption. now right.
    + right; left. now exists owner, name, rest.
    + right; right. now exists owner, name, rest.
  - intros [[owner [name [rest [Ho [Hn [-> | ->]]]]]]
           | [[owner [name [rest [Ho [Hn ->]]]]] | [owner [name [rest [Ho [Hn ->]]]]]]].
    + exists "https://github.com/", owner, name, rest. cbn [In]. repeat split; auto.
    + exists "http://github.com/", owner, name, rest. cbn [In]. repeat split; auto.
    + exists "git@github.com:", owner, name, rest. cbn [In]. repeat split; auto.
    + exists "github.com/", owner, name, rest. cbn [In]. repeat split; auto 6.
Qed.

Lemma github_iff_remote_form (s : string) :
  determine_repository_type s = "github" <-> remote_form s.
Proof.
  unfold determine_repository_type, github_patterns, remote_form. cbn [existsb].
  rewrite url_form_spec, <- http_pattern_spec, <- !host_pattern_spec, <- bare_pattern_spec.
  rewrite orb_false_r.
  destruct (re_match _ s); [cbn; intuition|].
  destruct (re_match _ s); [cbn; intuition|].
  destruct (re_match _ s); [cbn; intuition|].
  destruct (re_match _ s); cbn; intuition discriminate.
Qed.

Lemma bare_form_chars (s : string) :
  bare_form s -> all_chars (fun c => (word_or_hyphen c || Ascii.eqb c "/")%bool) s = true.
Proof.
  intros [owner [name [Ho [Hn ->]]]].
  apply is_segment_spec in Ho as [_ Ho]. apply is_segment_spec in Hn as [_ Hn].
  assert (forall t, all_chars word_or_hyphen t = true ->
                    all_chars (fun c => (word_or_hyphen c || Ascii.eqb c "/")%bool) t = true)
    as Hweak.
  { induction t as [|c t IH]; cbn; [reflexivity|].
    intros H. apply andb_prop in H as [Hc Ht]. now rewrite Hc, IH. }
  rewrite !all_chars_append, (Hweak _ Ho), (Hweak _ Hn). reflexivity.
Qed.

(** The examples of the specification. *)
Example repository_type_examples :
  determine_repository_type "https://github.com/acme/widget" = "github" /\
  determine_repository_type "acme/widget" = "github" /\
  determine_repository_type "/home/x/project" = "local" /\
  determine_repository_type "C:\proj" = "local" /\
  determine_repository_type "git@github.com:owner/repo.git" = "github" /\
  determine_repository_type "./relative/path" = "local".
Proof. repeat split. Qed.

(** C9: the input "acme/widget" followed by a line feed is none of the four
    forms, and yet [determine_repository_type] takes it for a GitHub
    repository, because [$] also holds just before a final line feed. *)
Lemma final_line_feed_is_github :
  determine_repository_type ("acme/widget" ++ String newline "") = "github" /\
  ~ claimed_remote_form ("acme/widget" ++ String newline "").
Proof.
  split; [reflexivity|].
  intros [[host [owner [name [rest [Hhost [_ [_ Hs]]]]]]] | Hbare].
  - cbn in Hhost. destruct Hhost as [<- | [<- | [<- | [<- | []]]]]; discriminate.
  - apply bare_form_chars in Hbare. discriminate.
Qed.

(** X1: The repository type of every input: it is taken for a GitHub
    repository if and only if it starts with one of the three forms that
    name the host, or is the bare form [OWNER/NAME], or is the bare form
    followed by one final line feed; it is taken for a local path
    otherwise. *)
Theorem repository_type_detection (s : string) :
  (determine_repository_type s = "github" <-> remote_form s) /\
  (determine_repository_type s = "local" <-> ~ remote_form s).
Proof.
  split; [apply github_iff_remote_form|].
  rewrite <- github_iff_remote_form. unfold determine_repository_type.
  destruct (existsb _ github_patterns); split; intros H; try discriminate; try reflexivity.
  now contradiction H.
Qed.

(** * Further properties *)

(** ** Growth of a report *)

Lemma count_if_app {A : Type} (p : A -> bool) (xs ys : list A) :
  count_if p (xs ++ ys) = count_if p xs + count_if p ys.
Proof.
  induction xs as [|x xs IH]; cbn [app].
  - unfold count_if at 2. cbn. lia.
  - rewrite !count_if_cons, IH. lia.
Qed.

Lemma extends_refl (r : ComplianceReport) : extends r r [].
Proof. unfold extends. now rewrite app_nil_r. Qed.

Lemma extends_trans (r1 r2 r3 : ComplianceReport) (a b : list ComplianceCheck) :
  extends r1 r2 a -> extends r2 r3 b -> extends r1 r3 (a ++ b).
Proof.
  unfold extends. intros [I1 [N1 [T1 [M1 C1]]]] [I2 [N2 [T2 [M2 C2]]]].
  rewrite I2, N2, T2, M2, C2, C1, app_assoc. now repeat split.
Qed.

Lemma extends_add_check (r : ComplianceReport) (n c : string) (p : bool) (m s : string) :
  extends r (add_check r n c p m s) [mk_check n c p m s].
Proof. now repeat split. Qed.

Lemma extends_add_all (r : ComplianceReport) (found : list ComplianceCheck) :
  extends r (add_all r found) found.
Proof.
  unfold add_all. revert r. induction found as [|c rest IH]; intros r; cbn [fold_left].
  - apply extends_refl.
  - change (c :: rest) with ([c] ++ rest)%list.
    apply (extends_trans _ (add_check r (name c) (category c) (passed c) (message c) (severity c))).
    + destruct c. apply extends_add_check.
    + apply IH.
Qed.

Lemma extends_counts (r r' : ComplianceReport) (added : list ComplianceCheck) :
  extends r r' added ->
  total_checks r' = total_checks r + Z.of_nat (List.length added) /\
  passed_checks r' = passed_checks r + count_if passed added /\
  failed_checks r' = failed_checks r + count_if (fun c => negb (passed c)) added.
Proof.
  intros [_ [_ [_ [_ H]]]]. unfold total_checks, passed_checks, failed_checks.
  rewrite H, length_app, !count_if_app. lia.
Qed.

(** X2: The loop [for check in found: report.add_check(...)] appends the results
    in their order and changes nothing else of the report (the score that
    [main] stores in the metadata is not brought up to date); the three
    counts grow by the number of results, of passed results and of failed
    results. *)
Theorem add_all_counts (r : ComplianceReport) (found : list ComplianceCheck) :
  checks (add_all r found) = (checks r ++ found)%list /\
  repo_identifier (add_all r found) = repo_identifier r /\
  repo_name (add_all r found) = repo_name r /\
  repo_type (add_all r found) = repo_type r /\
  metadata (add_all r found) = metadata r /\
  total_checks (add_all r found) = total_checks r + Z.of_nat (List.length found) /\
  passed_checks (add_all r found) = passed_checks r + count_if passed found /\
  failed_checks (add_all r found) = failed_checks r + count_if (fun c => negb (passed c)) found.
Proof.
  pose proof (extends_add_all r found) as H.
  pose proof (extends_counts _ _ _ H) as [Ht [Hp Hf]].
  destruct H as [Hi [Hn [Hty [Hm Hc]]]].
  repeat split; assumption.
Qed.

(** ** The five rules in a row *)

Lemma version_check_name (builtin_str : value -> string) (config : dict) (c : ComplianceCheck) :
  check_python_version builtin_str config = Ok c -> name c = "Python Version".
Proof.
  unfold check_python_version. destruct (negb (truthy (VDict config))).
  { intros H; now inversion H. }
  intros H. ok_step H located Hloc. destruct located as [version|]; [|now inversion H].
  ok_step H is_current Hcur. destruct is_current; [now inversion H|].
  ok_step H is_acceptable Hacc. destruct is_acceptable; now inversion H.
Qed.

Lemma keyword_check_name (config : dict) (c : ComplianceCheck) :
  check_repository_keywords config = Ok c -> name c = "Repository Keywords".
Proof.
  unfold check_repository_keywords. destruct (negb (truthy (VDict config))).
  { intros H; now inversion H. }
  intros H. ok_step H keywords Hk. ok_step H kws Hkws.
  destruct (existsb _ kws); now inversion H.
Qed.

Lemma plugin_checks_length (plugins : value) (required : list string)
    (found : list ComplianceCheck) :
  plugin_checks plugins required = Ok found -> List.length found = List.length required.
Proof.
  intros H. apply plugin_checks_names in H.
  apply (f_equal (@List.length string)) in H. now rewrite !length_map in H.
Qed.

Lemma poetry_results_names (builtin_str : value -> string) (config : dict)
    (found : list ComplianceCheck) :
  check_poetry_configuration builtin_str config = Ok found ->
  (1 <= List.length found <= 4)%nat /\
  named_in ["Poetry Plugin: poetry-plugin-export"; "Poetry Plugin: poetry-plugin-shell";
            "Poetry Plugin: ld-poetry-export-group-plugin"; "Poetry Version"] found.
Proof.
  intros H. pose proof (poetry_results_shape _ _ _ H) as [Hone Hall].
  split.
  - revert H. unfold check_poetry_configuration.
    destruct (negb (truthy (VDict config))).
    { intros H; inversion H; subst. cbn. lia. }
    intros H. ok_step H no_poetry Hno. destruct no_poetry.
    { inversion H; subst. cbn. lia. }
    ok_step H tool Htool. ok_step H poetry_config Hpoetry.
    ok_step H has_plugins Hhas. ok_step H checks1 H1.
    ok_step H has_version Hver. ok_step H checks2 H2.
    ok_step H checks3 H3. inversion H; subst; clear H.
    assert (List.length checks1 <= 3)%nat as L1.
    { destruct has_plugins.
      - ok_step H1 plugins Hplugins. apply plugin_checks_length in H1. rewrite H1. cbn. lia.
      - inversion H1. cbn. lia. }
    assert (List.length checks2 = if has_version then 1 else 0)%nat as L2.
    { destruct has_version.
      - ok_step H2 version Hversion. ok_step H2 recent Hrecent.
        destruct recent; inversion H2; reflexivity.
      - now inversion H2. }
    assert ((has_version = false /\ List.length checks3 = 1%nat) \/ checks3 = []) as L3.
    { destruct (negb has_version && has_key "build-system" config)%bool eqn:Hcond.
      - apply andb_prop in Hcond as [Hneg _]. apply negb_true_iff in Hneg.
        ok_step H3 build_system Hbs. ok_step H3 requires Hreq.
        ok_step H3 reqs Hreqs. ok_step H3 hit Hhit.
        destruct hit as [c|]; inversion H3; subst; [left; now split | now right].
      - right. now inversion H3. }
    rewrite !length_app, L2.
    destruct L3 as [[-> L3] | ->].
    + rewrite L3. destruct checks3; [discriminate|]. cbn. lia.
    + destruct has_version; cbn; lia.
  - unfold named_in. rewrite Forall_forall in *. intros c Hc.
    destruct (Hall c Hc) as [Hv | Hp].
    + unfold is_version in Hv. apply String.eqb_eq in Hv. rewrite Hv. in_list.
    + unfold is_plugin in Hp. cbn in Hp.
      repeat (apply orb_true_iff in Hp as [Hp | Hp];
              [apply String.eqb_eq in Hp; rewrite Hp; in_list|]).
      discriminate.
Qed.

Lemma quality_results_names (builtin_str : value -> string) (config : dict)
    (found : list ComplianceCheck) :
  check_code_quality_tools builtin_str config = Ok found ->
  (2 <= List.length found <= 4)%nat /\
  named_in ["Linter/Formatter"; "Line Length"; "Quote Style"; "Type Checker"] found.
Proof.
  unfold check_code_quality_tools. destruct (negb (truthy (VDict config))).
  { intros H; inversion H; subst. split; [cbn; lia|].
    repeat (apply Forall_cons; [in_list|]); apply Forall_nil. }
  intros H. ok_step H tool Htool. ok_step H linter Hl. ok_step H checker Hc.
  inversion H; subst; clear H.
  apply linter_results_names in Hl as [Ll Nl].
  apply type_checker_results_names in Hc as [c [-> Nc]].
  split; [rewrite length_app; cbn; lia|].
  apply named_in_app.
  - eapply named_in_weaken; [|exact Nl]. intros x Hx. cbn in *. intuition.
  - apply Forall_cons; [rewrite Nc; in_list | apply Forall_nil].
Qed.

Lemma testing_results_names (builtin_str : value -> string) (config : dict)
    (found : list ComplianceCheck) :
  check_testing_configuration builtin_str config = Ok found ->
  (1 <= List.length found <= 2)%nat /\
  named_in ["Test Framework"; "Test Coverage"] found.
Proof.
  unfold check_testing_configuration. destruct (negb (truthy (VDict config))).
  { intros H; inversion H; subst. split; [cbn; lia|].
    repeat (apply Forall_cons; [in_list|]); apply Forall_nil. }
  intros H. ok_step H tool Htool. ok_step H has_pytest Hp. destruct has_pytest.
  - ok_step H pytest_config Hc. ok_step H has_ini Hi. ok_step H addopts Ha.
    ok_step H covered Hcov. inversion H; subst; clear H. split; [cbn; lia|].
    destruct covered; repeat (apply Forall_cons; [in_list|]); apply Forall_nil.
  - inversion H; subst. split; [cbn; lia|].
    repeat (apply Forall_cons; [in_list|]); apply Forall_nil.
Qed.

Lemma standard_checks_extend (builtin_str : value -> string) (config : dict)
    (r r' : ComplianceReport) :
  run_standard_checks builtin_str config r = Ok r' ->
  exists version rules keywords,
    extends r r' (version :: rules ++ [keywords]) /\
    name version = "Python Version" /\
    name keywords = "Repository Keywords" /\
    (4 <= List.length rules <= 10)%nat /\
    named_in rule_names rules.
Proof.
  unfold run_standard_checks. intros H.
  ok_step H version Hv. ok_step H poetry Hp. ok_step H quality Hq.
  ok_step H testing Ht. ok_step H keywords Hk. cbv zeta in H. injection H as <-.
  exists version, (poetry ++ quality ++ testing)%list, keywords.
  apply poetry_results_names in Hp as [Lp Np].
  apply quality_results_names in Hq as [Lq Nq].
  apply testing_results_names in Ht as [Lt Nt].
  split; [|split; [|split; [|split]]].
  - change (extends r
              (add_all (add_all (add_all (add_all (add_all r [version]) poetry) quality) testing)
                 [keywords])
              ([version] ++ ((poetry ++ quality ++ testing) ++ [keywords]))%list).
    apply (extends_trans _ _ _ _ _ (extends_add_all r [version])).
    apply (fun H => extends_trans _ _ _ _ _ H (extends_add_all _ [keywords])).
    apply (extends_trans _ _ _ _ _ (extends_add_all _ poetry)).
    apply (extends_trans _ _ _ _ _ (extends_add_all _ quality)).
    apply extends_add_all.
  - eapply version_check_name; eassumption.
  - eapply keyword_check_name; eassumption.
  - rewrite !length_app. lia.
  - apply named_in_app; [|apply named_in_app].
    + eapply named_in_weaken; [|exact Np]. intros x Hx. cbn in *. intuition.
    + eapply named_in_weaken; [|exact Nq]. intros x Hx. cbn in *. intuition.
    + eapply named_in_weaken; [|exact Nt]. intros x Hx. cbn in *. intuition.
Qed.

(** X3: Whenever [run_standard_checks] returns, the report it returns is the
    one it was given with six to twelve results behind its own: first the
    result of the version rule, last the result of the keyword rule, and in
    between four to ten results of the three other rules, named as those
    rules name them.  The identifier, the name, the type and the metadata of
    the report are unchanged. *)
Theorem standard_checks_shape (builtin_str : value -> string) (config : dict)
    (r r' : ComplianceReport) :
  run_standard_checks builtin_str config r = Ok r' ->
  exists version rules keywords,
    extends r r' (version :: rules ++ [keywords]) /\
    name version = "Python Version" /\
    name keywords = "Repository Keywords" /\
    (4 <= List.length rules <= 10)%nat /\
    named_in rule_names rules /\
    total_checks r + 6 <= total_checks r' <= total_checks r + 12.
Proof.
  intros H. destruct (standard_checks_extend _ _ _ _ H) as [v [rules [k [E [Nv [Nk [L N]]]]]]].
  exists v, rules, k.
  pose proof (extends_counts _ _ _ E) as [Ht _].
  cbn [List.length] in Ht. rewrite length_app in Ht. cbn [List.length] in Ht.
  split; [exact E|]. split; [exact Nv|]. split; [exact Nk|]. split; [exact L|].
  split; [exact N | lia].
Qed.

Lemma standard_checks_shape_witness :
  exists r',
    run_standard_checks (fun _ => "")
      [("project", VDict [("requires-python", VStr ">=3.13")])]
      (new_report "/srv/demo" "demo" "local") = Ok r' /\
    exists version rules keywords,
      extends (new_report "/srv/demo" "demo" "local") r' (version :: rules ++ [keywords]) /\
      name version = "Python Version" /\
      name keywords = "Repository Keywords" /\
      (4 <= List.length rules <= 10)%nat /\
      named_in rule_names rules /\
      total_checks (new_report "/srv/demo" "demo" "local") + 6 <= total_checks r'
        <= total_checks (new_report "/srv/demo" "demo" "local") + 12.
Proof.
  eexists. split; [vm_compute; reflexivity|].
  apply (standard_checks_shape (fun _ => "")
           [("project", VDict [("requires-python", VStr ">=3.13")])]).
  vm_compute. reflexivity.
Defined.

(** ** Summary of a report *)

Lemma calculate_score_returns (r : ComplianceReport) :
  exists score, calculate_score r = Ok score.
Proof.
  unfold calculate_score, int_truediv.
  destruct (Z.eqb (total_checks r) 0); cbn; now eexists.
Qed.

Lemma lookup_setitem (key : string) (v : value) (d : dict) :
  lookup key (setitem key v d) = Some v.
Proof.
  induction d as [|[k old] rest IH]; cbn.
  - now rewrite String.eqb_refl.
  - destruct (String.eqb k key) eqn:Hk; cbn; rewrite Hk; [reflexivity | exact IH].
Qed.

(** The summary of a report in which [main] has stored a score is the
    summary of that score: excellent from 90, good from 75, and in need of
    work below; the score is read from the metadata, not computed again
    from the checks. *)
Theorem summary_of_stored_score (EMOJI_SUCCESS EMOJI_ERROR : string)
    (r : ComplianceReport) (score : spec_float) :
  get_summary EMOJI_SUCCESS EMOJI_ERROR (store_score r score) =
    Ok (grade EMOJI_SUCCESS EMOJI_ERROR score).
Proof.
  unfold get_summary, grade.
  destruct (calculate_score_returns (store_score r score)) as [computed ->].
  cbn [bind store_score metadata get]. rewrite lookup_setitem.
  cbn [bind ge_float].
  destruct (float_ge score SCORE_EXCELLENT); [reflexivity|].
  cbn [bind]. destruct (float_ge score SCORE_GOOD); reflexivity.
Qed.

Lemma excellent_is_good (x : spec_float) :
  float_ge x SCORE_EXCELLENT = true -> float_ge x SCORE_GOOD = true.
Proof.
  assert (SCORE_EXCELLENT = S754_finite false 6333186975989760 (-46)) as ->
    by (vm_compute; reflexivity).
  assert (SCORE_GOOD = S754_finite false 5277655813324800 (-46)) as ->
    by (vm_compute; reflexivity).
  assert (5277655813324800 < 6333186975989760)%positive as Hlt by reflexivity.
  revert Hlt.
  generalize 6333186975989760%positive, 5277655813324800%positive. intros a b Hlt.
  unfold float_ge, SFleb, SFcompare.
  destruct x as [s|s| |s m e]; cbv beta iota; try (intros H; exact H).
  destruct s; [intros H; exact H|].
  destruct (Z.compare (-46) e); try (intros H; exact H).
  change (PosDef.Pos.compare_cont Eq a m) with (Pos.compare a m).
  change (PosDef.Pos.compare_cont Eq b m) with (Pos.compare b m).
  destruct (Pos.compare_spec a m) as [Ha | Ha | Ha];
    destruct (Pos.compare_spec b m) as [Hb | Hb | Hb];
    intros H; try reflexivity; try discriminate; lia.
Qed.

Section Results.

Variable console : Type.
Variables print print_err open_w write : string -> console -> result unit * console.
Variable close : console -> result unit * console.
Variable write_text : string -> string -> console -> result unit * console.
Variables EMOJI_SUCCESS EMOJI_ERROR EMOJI_WARNING : string.
Variable str_upper : string -> string.
Variable format_1f : spec_float -> string.
Variable json_dumps : value -> string.
Variables exn_text traceback_text : exn -> string.

(** X4: Exit code and summary agree.  When the scan has returned a report and
    the results have been written, [main] exits with 0 if the score is at
    least 75 and with 1 if it is not; the summary it has written is the one
    of that score, which says that the repository needs work exactly when
    the exit code is 1 (a score that is excellent is also good). *)
Theorem exit_code_matches_summary (args : arguments) (report : ComplianceReport)
    (score : spec_float) (c c' : console) :
  calculate_score report = Ok score ->
  render console print open_w write close write_text EMOJI_SUCCESS EMOJI_ERROR EMOJI_WARNING
    str_upper format_1f json_dumps args (store_score report score) score c = (Ok tt, c') ->
  checked console print print_err open_w write close write_text EMOJI_SUCCESS EMOJI_ERROR
    EMOJI_WARNING str_upper format_1f json_dumps exn_text traceback_text args (Ok report) c =
    (Exit (if float_ge score SCORE_GOOD then 0 else 1), c') /\
  get_summary EMOJI_SUCCESS EMOJI_ERROR (store_score report score) =
    Ok (grade EMOJI_SUCCESS EMOJI_ERROR score) /\
  (float_ge score SCORE_GOOD = false ->
   grade EMOJI_SUCCESS EMOJI_ERROR score =
     EMOJI_ERROR ++ " NEEDS WORK: Repository requires significant updates to meet standards.") /\
  (float_ge score SCORE_GOOD = true ->
   grade EMOJI_SUCCESS EMOJI_ERROR score =
     EMOJI_SUCCESS ++ " EXCELLENT: Repository meets all standards." \/
   grade EMOJI_SUCCESS EMOJI_ERROR score =
     EMOJI_SUCCESS ++ " GOOD: Repository follows most standards with minor improvements needed.").
Proof.
  intros Hscore Hrender. split; [|split; [|split]].
  - unfold checked, and_next, attempt, done. rewrite Hscore, Hrender. reflexivity.
  - apply summary_of_stored_score.
  - intros Hgood. unfold grade. rewrite Hgood.
    destruct (float_ge score SCORE_EXCELLENT) eqn:He; [|reflexivity].
    apply excellent_is_good in He. congruence.
  - intros Hgood. unfold grade. rewrite Hgood.
    destruct (float_ge score SCORE_EXCELLENT); [now left | now right].
Qed.

End Results.

Lemma exit_code_matches_summary_witness :
  calculate_score one_of_three = Ok (S754_finite false 4691249611844266 (-47)) /\
  checked transcript keep keep keep keep (fun c => (Ok tt, c)) (fun _ text => keep text)
    "[OK]" "[X]" "[!]" upper_ascii one_decimal (fun _ => "{}") (fun _ => "") (fun _ => "")
    (plain "demo") (Ok one_of_three) [] =
    (Exit 1,
     snd (render transcript keep keep keep (fun c => (Ok tt, c)) (fun _ text => keep text)
            "[OK]" "[X]" "[!]" upper_ascii one_decimal (fun _ => "{}") (plain "demo")
            (store_score one_of_three (S754_finite false 4691249611844266 (-47)))
            (S754_finite false 4691249611844266 (-47)) [])).
Proof.
  split; [vm_compute; reflexivity|].
  apply (exit_code_matches_summary transcript keep keep keep keep (fun c => (Ok tt, c))
           (fun _ text => keep text) "[OK]" "[X]" "[!]" upper_ascii one_decimal
           (fun _ => "{}") (fun _ => "") (fun _ => "") (plain "demo") one_of_three
           (S754_finite false 4691249611844266 (-47)) []);
    vm_compute; reflexivity.
Defined.

(** ** Export of a report *)




(** ** Grouping of the printed report *)

Lemma members_file_under (k : string) (c : ComplianceCheck)
    (categories : list (string * list ComplianceCheck)) :
  members_of k (file_under c categories) =
    if String.eqb (category c) k
    then (members_of k categories ++ [c])%list
    else members_of k categories.
Proof.
  induction categories as [|[k0 members] rest IH]; cbn [file_under members_of].
  - destruct (String.eqb (category c) k); reflexivity.
  - destruct (String.eqb k0 (category c)) eqn:Hk0; cbn [members_of].
    + apply String.eqb_eq in Hk0. subst k0.
      destruct (String.eqb (category c) k); reflexivity.
    + rewrite IH. destruct (String.eqb k0 k) eqn:Hk; [|reflexivity].
      apply String.eqb_eq in Hk. subst k0.
      rewrite String.eqb_sym in Hk0. now rewrite Hk0.
Qed.

Lemma members_fold (k : string) (cs : list ComplianceCheck)
    (categories : list (string * list ComplianceCheck)) :
  members_of k (fold_left (fun acc c => file_under c acc) cs categories) =
    (members_of k categories ++ in_category k cs)%list.
Proof.
  revert categories. induction cs as [|c cs IH]; intros categories; cbn [fold_left].
  - unfold in_category. cbn. now rewrite app_nil_r.
  - rewrite IH, members_file_under. unfold in_category. cbn [filter].
    destruct (String.eqb (category c) k); [now rewrite <- app_assoc | reflexivity].
Qed.

Lemma keys_file_under (k : string) (c : ComplianceCheck)
    (categories : list (string * list ComplianceCheck)) :
  In k (map fst (file_under c categories)) <->
  In k (map fst categories) \/ k = category c.
Proof.
  induction categories as [|[k0 members] rest IH]; cbn [file_under map fst In].
  - split; [intros [H | []]; right; now symmetry | intros [[] | ->]; now left].
  - destruct (String.eqb k0 (category c)) eqn:Hk0; cbn [map fst In].
    + apply String.eqb_eq in Hk0. subst k0. intuition.
    + rewrite IH. intuition.
Qed.

Lemma keys_file_under_nodup (c : ComplianceCheck)
    (categories : list (string * list ComplianceCheck)) :
  NoDup (map fst categories) -> NoDup (map fst (file_under c categories)).
Proof.
  induction categories as [|[k0 members] rest IH]; cbn [file_under map fst]; intros H.
  - constructor; [intros [] | constructor].
  - inversion H as [|? ? Hnot Hrest]; subst.
    destruct (String.eqb k0 (category c)) eqn:Hk0; cbn [map fst].
    + constructor; assumption.
    + constructor; [|now apply IH].
      rewrite keys_file_under. intros [Hin | ->]; [now apply Hnot|].
      now rewrite String.eqb_refl in Hk0.
Qed.

Lemma keys_fold (cs : list ComplianceCheck) (categories : list (string * list ComplianceCheck)) :
  (forall k,
     In k (map fst (fold_left (fun acc c => file_under c acc) cs categories)) <->
     In k (map fst categories) \/ exists c, In c cs /\ category c = k) /\
  (NoDup (map fst categories) ->
   NoDup (map fst (fold_left (fun acc c => file_under c acc) cs categories))).
Proof.
  revert categories. induction cs as [|c cs IH]; intros categories; cbn [fold_left].
  - split; [|trivial]. intros k. split; [now left | intros [H | [c [[] _]]]; exact H].
  - destruct (IH (file_under c categories)) as [Hin Hnodup]. split.
    + intros k. rewrite Hin, keys_file_under. split.
      * intros [[H | ->] | [c' [Hc' Hk]]]; [now left | right | right].
        -- exists c. split; [now left | reflexivity].
        -- exists c'. split; [now right | exact Hk].
      * intros [H | [c' [[<- | Hc'] Hk]]]; [left; now left | left; right; now symmetry | right].
        exists c'. now split.
    + intros H. apply Hnodup, keys_file_under_nodup, H.
Qed.

Lemma insert_sorted_perm (x : string) (l : list string) :
  Permutation (insert_sorted x l) (x :: l).
Proof.
  induction l as [|y rest IH]; cbn [insert_sorted]; [reflexivity|].
  destruct (String.leb x y); [reflexivity|].
  rewrite IH. apply perm_swap.
Qed.

Lemma sorted_perm (l : list string) : Permutation (sorted l) l.
Proof.
  induction l as [|x l IH]; cbn; [constructor|].
  fold (sorted l). rewrite insert_sorted_perm. now constructor.
Qed.

Lemma insert_sorted_sorted (x : string) (l : list string) :
  Sorted (fun a b => String.leb a b = true) l ->
  Sorted (fun a b => String.leb a b = true) (insert_sorted x l).
Proof.
  induction l as [|y rest IH]; cbn [insert_sorted]; intros H.
  - repeat constructor.
  - destruct (String.leb x y) eqn:Hxy.
    + constructor; [exact H | constructor; exact Hxy].
    + inversion H as [|? ? Hrest Hhd]; subst.
      assert (String.leb y x = true) as Hyx
        by (destruct (String.leb_total x y) as [Ht | Ht]; [congruence | exact Ht]).
      constructor; [now apply IH|].
      destruct rest as [|z rest]; cbn [insert_sorted].
      * constructor. exact Hyx.
      * destruct (String.leb x z); constructor; [exact Hyx|].
        now inversion Hhd.
Qed.

Lemma sorted_sorted (l : list string) :
  Sorted (fun a b => String.leb a b = true) (sorted l).
Proof.
  induction l as [|x l IH]; cbn; [constructor|].
  fold (sorted l). now apply insert_sorted_sorted.
Qed.

(** X6: What [print_report] prints between the head and the summary: one
    block for each category that some check of the report has, the blocks
    in ascending order of the categories and no category twice; a block is
    the heading of the category followed by the lines of the checks of that
    category, in the order of the report.  So every check has its line once,
    whatever the order in which the categories come up in the report. *)
Theorem report_lines_by_category (EMOJI_SUCCESS EMOJI_ERROR EMOJI_WARNING : string)
    (wordy : bool) (cs : list ComplianceCheck) :
  category_lines EMOJI_SUCCESS EMOJI_ERROR EMOJI_WARNING wordy cs =
    flat_map (fun k =>
                (String newline k ++ ":")
                  :: map (check_line EMOJI_SUCCESS EMOJI_ERROR EMOJI_WARNING wordy)
                         (in_category k cs))
             (headings cs) /\
  NoDup (headings cs) /\
  (forall k, In k (headings cs) <-> exists c, In c cs /\ category c = k) /\
  Sorted (fun a b => String.leb a b = true) (headings cs).
Proof.
  destruct (keys_fold cs []) as [Hin Hnodup]. fold (by_category cs) in Hin, Hnodup.
  split; [|split; [|split]].
  - unfold category_lines, headings. apply flat_map_ext. intros k.
    unfold by_category. rewrite members_fold. reflexivity.
  - unfold headings. apply (Permutation_NoDup (l := map fst (by_category cs))).
    + symmetry. apply sorted_perm.
    + apply Hnodup. constructor.
  - intros k. unfold headings. split.
    + intros H. apply (Permutation_in _ (sorted_perm _)) in H.
      apply Hin in H as [[] | H]. exact H.
    + intros H. apply (Permutation_in _ (Permutation_sym (sorted_perm _))).
      apply Hin. now right.
  - apply sorted_sorted.
Qed.

(** ** Results for the additional files *)

Lemma sonar_check_extends (has_sonar : bool) (config : dict) (r r' : ComplianceReport) :
  sonar_check has_sonar config r = Ok r' ->
  exists c,
    extends r r' [c] /\ name c = "SonarCloud" /\ category c = "Code Quality" /\
    (passed c = true -> has_sonar = true) /\
    (passed c = false -> severity c = "warning") /\
    (truthy (VDict config) = false -> passed c = has_sonar).
Proof.
  unfold sonar_check. intros H.
  destruct has_sonar; [destruct (truthy (VDict config))|].
  - ok_step H in_project Hp. ok_step H py_version Hv. ok_step H current Hc.
    destruct current; injection H as <-; eexists; (split; [apply extends_add_check|]);
      cbn; repeat split; try reflexivity; discriminate.
  - injection H as <-; eexists; (split; [apply extends_add_check|]);
      cbn; repeat split; try reflexivity; discriminate.
  - injection H as <-; eexists; (split; [apply extends_add_check|]);
      cbn; repeat split; try reflexivity; discriminate.
Qed.

Section LocalStages.

Variable exists_ : path -> result bool.
Variable glob : path -> string -> result (list string).
Variable read_text : path -> result string.

Lemma local_files_extend (p : path) (config : dict) (r r' : ComplianceReport) :
  local_check_additional_files exists_ glob read_text p config r = Ok r' ->
  exists poetry claude tracking added,
    uses_poetry config = Ok poetry /\
    exists_ (child p "CLAUDE.md") = Ok claude /\
    exists_ (child (child p ".ai") "README.md") = Ok tracking /\
    extends r r' added /\
    map name added = local_file_stages poetry claude tracking /\
    (forall c, In c added -> name c = "CLAUDE.md" \/ name c = "AI Tracking" -> passed c = true).
Proof.
  unfold local_check_additional_files. intros H.
  ok_step H readme Hreadme. cbv zeta in H.
  set (r1 := if readme then _ else _) in H.
  assert (exists c1, extends r r1 [c1] /\ name c1 = "README.md") as [c1 [E1 N1]]
    by (subst r1; destruct readme; eexists; (split; [apply extends_add_check | reflexivity])).
  clearbody r1.
  ok_step H srd Hsrd.
  set (r2 := if srd then _ else _) in H.
  assert (exists c2, extends r1 r2 [c2] /\ name c2 = "SRD.md") as [c2 [E2 N2]]
    by (subst r2; destruct srd; eexists; (split; [apply extends_add_check | reflexivity])).
  clearbody r2.
  ok_step H poetry Hpoetry. ok_step H r3 H3.
  assert (exists l3, extends r2 r3 l3 /\
                     map name l3 = if poetry then ["Poetry Lock File"] else [])
    as [l3 [E3 N3]].
  { destruct poetry.
    - ok_step H3 lock Hlock. destruct lock; injection H3 as <-; eexists;
        (split; [apply extends_add_check | reflexivity]).
    - injection H3 as <-. exists []. split; [apply extends_refl | reflexivity]. }
  ok_step H has_workflows Hw. ok_step H r4 H4.
  assert (exists c4 c5, extends r3 r4 [c4; c5] /\
                        name c4 = "Python Manager Workflow" /\
                        name c5 = "Ruff Formatting Workflow") as [c4 [c5 [E4 [N4 N5]]]].
  { destruct has_workflows.
    - ok_step H4 files Hfiles. ok_step H4 manager Hmanager. cbv zeta in H4.
      destruct manager;
        match type of H4 with context [existsb ?f ?l] => destruct (existsb f l) end;
        injection H4 as <-; eexists; eexists;
        (split; [eapply (extends_trans _ _ _ [_] [_]); apply extends_add_check
                | split; reflexivity]).
    - injection H4 as <-. eexists; eexists;
        (split; [eapply (extends_trans _ _ _ [_] [_]); apply extends_add_check
                | split; reflexivity]). }
  ok_step H claude Hclaude.
  set (r5 := if claude then _ else _) in H.
  assert (exists l5, extends r4 r5 l5 /\
                     map name l5 = (if claude then ["CLAUDE.md"] else []) /\
                     forall c, In c l5 -> passed c = true) as [l5 [E5 [N5' P5]]].
  { subst r5. destruct claude.
    - eexists. split; [apply extends_add_check|]. split; [reflexivity|].
      intros c [<- | []]. reflexivity.
    - exists []. split; [apply extends_refl|]. split; [reflexivity|]. intros c []. }
  clearbody r5.
  ok_step H tracking Htracking.
  set (r6 := if tracking then _ else _) in H.
  assert (exists l6, extends r5 r6 l6 /\
                     map name l6 = (if tracking then ["AI Tracking"] else []) /\
                     forall c, In c l6 -> passed c = true) as [l6 [E6 [N6 P6]]].
  { subst r6. destruct tracking.
    - eexists. split; [apply extends_add_check|]. split; [reflexivity|].
      intros c [<- | []]. reflexivity.
    - exists []. split; [apply extends_refl|]. split; [reflexivity|]. intros c []. }
  clearbody r6.
  ok_step H has_sonar Hsonar. ok_step H again Hagain. ok_step H in_workflows Hin.
  apply sonar_check_extends in H as [sonar [E7 [N7 _]]].
  exists poetry, claude, tracking, ([c1] ++ [c2] ++ l3 ++ [c4; c5] ++ l5 ++ l6 ++ [sonar])%list.
  split; [exact Hpoetry|]. split; [exact Hclaude|]. split; [exact Htracking|].
  split; [|split].
  - apply (extends_trans _ _ _ _ _ E1). apply (extends_trans _ _ _ _ _ E2).
    apply (extends_trans _ _ _ _ _ E3). apply (extends_trans _ _ _ _ _ E4).
    apply (extends_trans _ _ _ _ _ E5). apply (extends_trans _ _ _ _ _ E6). exact E7.
  - rewrite !map_app. cbn [map]. rewrite N1, N2, N3, N4, N5, N5', N6, N7. reflexivity.
  - intros c Hin' Hname.
    rewrite !in_app_iff in Hin'. cbn [In] in Hin'.
    destruct Hin' as [[<-|[]] | [[<-|[]] | [Hin' | [[<- | [<- | []]] | [Hin' | [Hin' | [<- | []]]]]]]];
      try (destruct Hname as [Hname | Hname]; congruence);
      try (now apply P5); try (now apply P6).
    apply (in_map name) in Hin'. rewrite N3 in Hin'.
    destruct poetry; cbn in Hin'; [|contradiction].
    destruct Hin' as [Hin' | []]. destruct Hname as [Hname | Hname]; congruence.
Qed.

End LocalStages.

Lemma local_file_stages_length (poetry claude tracking : bool) :
  (5 <= List.length (local_file_stages poetry claude tracking) <= 8)%nat.
Proof. destruct poetry, claude, tracking; cbn; lia. Qed.

Section RemoteStages.

Variable world : Type.
Variable run_gh : option string -> list string -> world -> process * world.
Variable b64decode_utf8 : string -> option string.
Variable self : GitHubChecker.

Lemma bind_io_inv {A B : Type} (c : io world A) (k : A -> io world B)
    (w w' : world) (b : B) :
  bind_io world c k w = Ok (b, w') ->
  exists a w1, c w = Ok (a, w1) /\ k a w1 = Ok (b, w').
Proof.
  unfold bind_io. destruct (c w) as [[a w1]|e]; [|discriminate].
  intros H. now exists a, w1.
Qed.

Lemma lift_inv {A : Type} (r : result A) (a : A) (w w' : world) :
  lift world r w = Ok (a, w') -> r = Ok a /\ w' = w.
Proof. unfold lift. destruct r; cbn; [|discriminate]. intros H. now inversion H. Qed.

Lemma ret_inv {A : Type} (a b : A) (w w' : world) :
  ret world a w = Ok (b, w') -> b = a /\ w' = w.
Proof. unfold ret. intros H. now inversion H. Qed.

Ltac io_step H a w1 Ha := apply bind_io_inv in H as [a [w1 [Ha H]]].

Lemma remote_files_extend (repo : string) (config : dict) (r r' : ComplianceReport)
    (w w' : world) :
  github_check_additional_files world run_gh b64decode_utf8 self repo config r w = Ok (r', w') ->
  exists readme srd lock manager ruff sonar,
    extends r r' [readme; srd; lock; manager; ruff; sonar] /\
    map name [readme; srd; lock; manager; ruff; sonar] = file_stages /\
    (uses_poetry config = Ok false -> lock = lock_not_needed).
Proof.
  unfold github_check_additional_files. intros H.
  io_step H readme w1 H1. cbv beta zeta in H.
  set (r1 := if readme then _ else _) in H.
  assert (exists c1, extends r r1 [c1] /\ name c1 = "README.md") as [c1 [E1 N1]]
    by (subst r1; destruct readme; eexists; (split; [apply extends_add_check | reflexivity])).
  clearbody r1.
  io_step H srd w2 H2. cbv beta zeta in H.
  set (r2 := if srd then _ else _) in H.
  assert (exists c2, extends r1 r2 [c2] /\ name c2 = "SRD.md") as [c2 [E2 N2]]
    by (subst r2; destruct srd; eexists; (split; [apply extends_add_check | reflexivity])).
  clearbody r2.
  io_step H poetry w3 H3. apply lift_inv in H3 as [Hpoetry ->].
  io_step H r3 w4 H4.
  assert (exists lock,
            extends r2 r3 [lock] /\ name lock = "Poetry Lock File" /\
            (poetry = false -> lock = lock_not_needed)) as [lock [E3 [N3 Hlock]]].
  { destruct poetry.
    - io_step H4 found w9 H9. destruct found; apply ret_inv in H4 as [-> _];
        eexists; (split; [apply extends_add_check|]); split; try reflexivity; discriminate.
    - apply ret_inv in H4 as [-> _].
      eexists; (split; [apply extends_add_check|]); split; reflexivity. }
  io_step H manager w5 H5. cbv beta zeta in H.
  set (r4 := if manager then _ else _) in H.
  assert (exists c4, extends r3 r4 [c4] /\ name c4 = "Python Manager Workflow") as [c4 [E4 N4]]
    by (subst r4; destruct manager; eexists; (split; [apply extends_add_check | reflexivity])).
  clearbody r4.
  io_step H workflows w6 H6. cbv beta zeta in H.
  set (r5 := if existsb _ _ then _ else _) in H.
  assert (exists c5, extends r4 r5 [c5] /\ name c5 = "Ruff Formatting Workflow") as [c5 [E5 N5]].
  { subst r5. match goal with |- context [existsb ?f ?l] => destruct (existsb f l) end;
      eexists; (split; [apply extends_add_check | reflexivity]). }
  clearbody r5.
  io_step H sonar_file w7 H7. io_step H in_workflows w8 H8.
  apply lift_inv in H as [Hsonar ->].
  apply sonar_check_extends in Hsonar as [sonar [E6 [N6 _]]].
  exists c1, c2, lock, c4, c5, sonar.
  split; [|split].
  - apply (extends_trans _ _ _ [c1] _ E1).
    apply (extends_trans _ _ _ [c2] _ E2).
    apply (extends_trans _ _ _ [lock] _ E3).
    apply (extends_trans _ _ _ [c4] _ E4).
    apply (extends_trans _ _ _ [c5] _ E5). exact E6.
  - cbn [map]. now rewrite N1, N2, N3, N4, N5, N6.
  - intros Hno. rewrite Hno in Hpoetry. injection Hpoetry as <-. now apply Hlock.
Qed.

End RemoteStages.

(** X7: Whenever the local scan of the additional files returns, it has put
    five to eight results behind those of the report, and nothing else of
    the report has changed: README.md, SRD.md, the lock file only if the
    manifest uses Poetry, the two workflows, CLAUDE.md and the AI tracking
    only if the files are there (these two results never fail), and
    SonarCloud last. *)
Theorem local_file_results (exists_ : path -> result bool)
    (glob : path -> string -> result (list string)) (read_text : path -> result string)
    (p : path) (config : dict) (r r' : ComplianceReport) :
  local_check_additional_files exists_ glob read_text p config r = Ok r' ->
  exists poetry claude tracking added,
    uses_poetry config = Ok poetry /\
    exists_ (child p "CLAUDE.md") = Ok claude /\
    exists_ (child (child p ".ai") "README.md") = Ok tracking /\
    extends r r' added /\
    map name added = local_file_stages poetry claude tracking /\
    (5 <= List.length added <= 8)%nat /\
    (forall c, In c added -> name c = "CLAUDE.md" \/ name c = "AI Tracking" -> passed c = true).
Proof.
  intros H.
  destruct (local_files_extend _ _ _ _ _ _ _ H)
    as [poetry [claude [tracking [added [Hp [Hc [Ht [E [N P]]]]]]]]].
  exists poetry, claude, tracking, added.
  repeat (split; [assumption|]). split; [|exact P].
  rewrite <- (length_map name), N. apply local_file_stages_length.
Qed.

Lemma local_file_results_witness :
  exists r',
    local_check_additional_files (fun _ => Ok false) (fun _ _ => Ok []) (fun _ => Raise OSError)
      ["srv"; "demo"] [] (new_report "/srv/demo" "demo" "local") = Ok r' /\
    exists poetry claude tracking added,
      uses_poetry [] = Ok poetry /\
      (fun _ : path => @Ok bool false) (child ["srv"; "demo"] "CLAUDE.md") = Ok claude /\
      (fun _ : path => @Ok bool false) (child (child ["srv"; "demo"] ".ai") "README.md")
        = Ok tracking /\
      extends (new_report "/srv/demo" "demo" "local") r' added /\
      map name added = local_file_stages poetry claude tracking /\
      (5 <= List.length added <= 8)%nat /\
      (forall c, In c added -> name c = "CLAUDE.md" \/ name c = "AI Tracking" -> passed c = true).
Proof.
  eexists. split; [vm_compute; reflexivity|].
  apply (local_file_results (fun _ => Ok false) (fun _ _ => Ok []) (fun _ => Raise OSError)
           ["srv"; "demo"] [] (new_report "/srv/demo" "demo" "local")).
  vm_compute. reflexivity.
Defined.

(** X8: Whenever the remote scan of the additional files returns, it has put
    exactly six results behind those of the report, in a fixed order:
    README.md, SRD.md, the lock file, the two workflows and SonarCloud.
    For a manifest that does not use Poetry the result for the lock file is
    a passed one ("No problems noted"), where the local scan adds none. *)
Theorem remote_file_results (world : Type)
    (run_gh : option string -> list string -> world -> process * world)
    (b64decode_utf8 : string -> option string) (self : GitHubChecker)
    (repo : string) (config : dict) (r r' : ComplianceReport) (w w' : world) :
  github_check_additional_files world run_gh b64decode_utf8 self repo config r w = Ok (r', w') ->
  exists readme srd lock manager ruff sonar,
    extends r r' [readme; srd; lock; manager; ruff; sonar] /\
    map name [readme; srd; lock; manager; ruff; sonar] = file_stages /\
    total_checks r' = total_checks r + 6 /\
    (uses_poetry config = Ok false ->
     lock = lock_not_needed /\
     forall exists_ glob read_text p local local',
       local_check_additional_files exists_ glob read_text p config local = Ok local' ->
       ~ In "Poetry Lock File" (names local) -> ~ In "Poetry Lock File" (names local')).
Proof.
  intros H.
  destruct (remote_files_extend _ _ _ _ _ _ _ _ _ _ H)
    as [readme [srd [lock [manager [ruff [sonar [E [N Hlock]]]]]]]].
  exists readme, srd, lock, manager, ruff, sonar.
  split; [exact E|]. split; [exact N|]. split.
  - apply extends_counts in E as [Ht _]. exact Ht.
  - intros Hno. split; [now apply Hlock|].
    intros exists_ glob read_text p local local' Hlocal Hnot.
    destruct (local_files_extend _ _ _ _ _ _ _ Hlocal)
      as [poetry [claude [tracking [added [Hp [_ [_ [[_ [_ [_ [_ Hchecks]]]] [Hnames _]]]]]]]]].
    rewrite Hno in Hp. injection Hp as <-.
    unfold names in *. rewrite Hchecks, map_app, Hnames, in_app_iff.
    intros [Hin | Hin]; [now apply Hnot|].
    destruct claude, tracking; cbn in Hin; intuition discriminate.
Qed.

Lemma remote_file_results_witness :
  exists r',
    github_check_additional_files unit timed_out (fun _ => None) gh_login "acme/widget" []
      (new_report "https://github.com/acme/widget" "acme/widget" "github") tt = Ok (r', tt) /\
    total_checks r' = 6.
Proof.
  eexists. split; [vm_compute; reflexivity|].
  destruct (remote_file_results unit timed_out (fun _ => None) gh_login "acme/widget" []
              (new_report "https://github.com/acme/widget" "acme/widget" "github") _ tt tt
              eq_refl) as [_ [_ [_ [_ [_ [_ [_ [_ [Ht _]]]]]]]]].
  exact Ht.
Defined.

(** ** Authentication *)


(** ** Endings of a run *)

Section Endings.

Variable builtin_str : value -> string.
Variable resolve : string -> result path.
Variable exists_ : path -> result bool.
Variable is_dir : path -> result bool.
Variable glob : path -> string -> result (list string).
Variable read_text : path -> result string.
Variable toml_loads : string -> option dict.
Variable world : Type.
Variable run_gh : option string -> list string -> world -> process * world.
Variable environ : string -> option string.
Variable which : string -> bool.
Variable json_loads : string -> option value.
Variable b64decode_utf8 : string -> option string.
Variable console : Type.
Variables print print_err open_w write : string -> console -> result unit * console.
Variable close : console -> result unit * console.
Variable write_text : string -> string -> console -> result unit * console.
Variable complain : string -> console -> console.
Variables EMOJI_SUCCESS EMOJI_ERROR EMOJI_WARNING : string.
Variable str_upper : string -> string.
Variable format_1f : spec_float -> string.
Variable json_dumps : value -> string.
Variables exn_text traceback_text : exn -> string.

#[local] Abbreviation the_main :=
  (main builtin_str resolve exists_ is_dir glob read_text toml_loads world run_gh environ which
     json_loads b64decode_utf8 console print print_err open_w write close write_text complain
     EMOJI_SUCCESS EMOJI_ERROR EMOJI_WARNING str_upper format_1f json_dumps exn_text
     traceback_text).

#[local] Abbreviation the_try :=
  (checked console print print_err open_w write close write_text EMOJI_SUCCESS EMOJI_ERROR
     EMOJI_WARNING str_upper format_1f json_dumps exn_text traceback_text).





Lemma print_all_ok (texts : list string) (c : console) :
  (forall text c0, fst (print text c0) = Ok tt) ->
  fst (print_all console print texts c) = Ok tt.
Proof.
  intros Hprint. revert c. induction texts as [|text rest IH]; intros c; cbn; [reflexivity|].
  unfold and_next. pose proof (Hprint text c) as H.
  destruct (print text c) as [[[]|e] c1]; cbn in H; [apply IH | discriminate].
Qed.

Lemma and_next_print_all {A : Type} (texts : list string) (k : task console A) (c : console) :
  and_next console (print_all console print texts) (fun _ => k) c =
    match print_all console print texts c with
    | (Ok _, c') => k c'
    | (Raise e, c') => (Raise e, c')
    end.
Proof. reflexivity. Qed.

(** X12: The embedded tests pass.  In the test mode, on a standard output that
    takes what is written to it, no assertion of [run_embedded_tests]
    fails: [main] writes the eight lines of the tests and exits with 0. *)
Theorem embedded_tests_pass (args : arguments) (w : world) (c : console) :
  test args = true ->
  (forall text c0, fst (print text c0) = Ok tt) ->
  the_main args w c =
    (Exit 0,
     snd (print_all console print
            ["Running embedded tests...";
             times "-" 60;
             EMOJI_SUCCESS ++ " ComplianceCheck creation";
             EMOJI_SUCCESS ++ " ComplianceReport score calculation";
             EMOJI_SUCCESS ++ " check_python_version (good)";
             EMOJI_SUCCESS ++ " determine_repository_type";
             times "-" 60;
             EMOJI_SUCCESS ++ " All embedded tests passed!"] c)).
Proof.
  intros Htest Hprint. unfold main. rewrite Htest.
  assert (forall c0,
            run_embedded_tests builtin_str console print EMOJI_SUCCESS c0 =
            and_next console
              (print_all console print
                 ["Running embedded tests...";
                  times "-" 60;
                  EMOJI_SUCCESS ++ " ComplianceCheck creation";
                  EMOJI_SUCCESS ++ " ComplianceReport score calculation";
                  EMOJI_SUCCESS ++ " check_python_version (good)";
                  EMOJI_SUCCESS ++ " determine_repository_type";
                  times "-" 60;
                  EMOJI_SUCCESS ++ " All embedded tests passed!"])
              (fun _ => done console true) c0) as Hrun.
  { intros c0. vm_compute.
    repeat (destruct (print _ _) as [[[]|?] ?]; [|reflexivity]; cbv beta iota).
    reflexivity. }
  rewrite Hrun, and_next_print_all.
  pose proof (print_all_ok
                ["Running embedded tests...";
                 times "-" 60;
                 EMOJI_SUCCESS ++ " ComplianceCheck creation";
                 EMOJI_SUCCESS ++ " ComplianceReport score calculation";
                 EMOJI_SUCCESS ++ " check_python_version (good)";
                 EMOJI_SUCCESS ++ " determine_repository_type";
                 times "-" 60;
                 EMOJI_SUCCESS ++ " All embedded tests passed!"] c Hprint) as Hok.
  destruct (print_all console print _ c) as [[[]|e] c1]; cbn in Hok; [|discriminate].
  reflexivity.
Qed.

End Endings.



Lemma embedded_tests_pass_witness :
  main_nowhere {| test := true; repository := None; auth := "auto";
                  verbose := false; json := false; output := None |} =
    (Exit 0,
     ["Running embedded tests...";
      times "-" 60;
      "[OK] ComplianceCheck creation";
      "[OK] ComplianceReport score calculation";
      "[OK] check_python_version (good)";
      "[OK] determine_repository_type";
      times "-" 60;
      "[OK] All embedded tests passed!"]).
Proof.
  apply (embedded_tests_pass (fun _ => "") nowhere (fun _ => Ok false) (fun _ => Ok false)
           (fun _ _ => Ok []) (fun _ => Raise OSError) (fun _ => None)
           unit (fun _ _ w => (LaunchError, w)) (fun _ => None) (fun _ => false)
           (fun _ => None) (fun _ => None)
           transcript keep keep keep keep (fun c => (Ok tt, c)) (fun _ text => keep text)
           (fun text c => (c ++ [text])%list)
           "[OK]" "[X]" "[!]" upper_ascii one_decimal (fun _ => "{}") (fun _ => "")
           (fun _ => "")
           {| test := true; repository := None; auth := "auto";
              verbose := false; json := false; output := None |} tt []).
  - reflexivity.
  - intros text c0. reflexivity.
Defined.

(** ** Identifiers of the bare form *)

Lemma prefix_blocked (p : ascii -> bool) (c0 : ascii) (old s : string) :
  has_char c0 old = true -> p c0 = false -> all_chars p s = true -> prefix old s = false.
Proof.
  revert s. induction old as [|a old IH]; intros s Hin Hc0 Hs; [discriminate|].
  destruct s as [|b s]; [reflexivity|].
  cbn [all_chars] in Hs. apply andb_prop in Hs as [Hb Hs].
  cbn [prefix]. cbn [has_char] in Hin.
  destruct (ascii_dec a b) as [<- | Hab]; [|reflexivity].
  destruct (Ascii.eqb a c0) eqn:Ha.
  - apply Ascii.eqb_eq in Ha. subst. congruence.
  - cbn [orb] in Hin. now apply IH.
Qed.

Lemma replace_untouched (p : ascii -> bool) (c0 : ascii) (old new s : string) :
  has_char c0 old = true -> p c0 = false -> all_chars p s = true -> replace old new s = s.
Proof.
  intros Hin Hc0. unfold replace. induction s as [|c s IH]; intros Hs; [reflexivity|].
  cbn [replace_from]. rewrite (prefix_blocked p c0 old (String c s) Hin Hc0 Hs).
  cbn [all_chars] in Hs. apply andb_prop in Hs as [_ Hs]. now rewrite IH.
Qed.

Lemma rstrip_untouched (p : ascii -> bool) (s : string) :
  all_chars (fun c => negb (p c)) s = true -> rstrip p s = s.
Proof.
  induction s as [|c s IH]; intros Hs; [reflexivity|].
  cbn [all_chars] in Hs. apply andb_prop in Hs as [Hc Hs].
  cbn [rstrip]. rewrite (IH Hs). apply negb_true_iff in Hc. rewrite Hc.
  destruct s; reflexivity.
Qed.

Lemma rstrip_append (p : ascii -> bool) (a b : string) :
  b <> "" -> rstrip p b = b -> rstrip p (a ++ b) = a ++ b.
Proof.
  intros Hne Hb. induction a as [|c a IH]; cbn [append]; [exact Hb|].
  cbn [rstrip]. rewrite IH.
  destruct (a ++ b) eqn:Hab; [|reflexivity].
  destruct a; cbn in Hab; [contradiction | discriminate].
Qed.

Lemma contains_separator (sep a b : string) : contains sep (a ++ sep ++ b) = true.
Proof.
  induction a as [|c a IH]; cbn [append].
  - destruct (sep ++ b) eqn:Hs; cbn [contains].
    + destruct sep; [reflexivity | discriminate].
    + rewrite <- Hs.
      assert (prefix sep (sep ++ b) = true) as ->; [|reflexivity].
      clear. induction sep as [|x sep IH]; cbn; [now destruct b|].
      now rewrite Ascii.eqb_refl || (destruct (ascii_dec x x); [exact IH | contradiction]).
  - cbn [contains]. rewrite IH. apply orb_true_r.
Qed.

Lemma split_untouched (sep : ascii) (s : string) :
  all_chars (fun c => negb (Ascii.eqb c sep)) s = true -> split sep s = [s].
Proof.
  induction s as [|c s IH]; intros Hs; [reflexivity|].
  cbn [all_chars] in Hs. apply andb_prop in Hs as [Hc Hs].
  cbn [split]. apply negb_true_iff in Hc. now rewrite Hc, (IH Hs).
Qed.

Lemma split_append (sep : ascii) (a b : string) :
  all_chars (fun c => negb (Ascii.eqb c sep)) a = true ->
  split sep (a ++ String sep b) = a :: split sep b.
Proof.
  induction a as [|c a IH]; intros Ha; cbn [append split].
  - now rewrite Ascii.eqb_refl.
  - cbn [all_chars] in Ha. apply andb_prop in Ha as [Hc Ha].
    apply negb_true_iff in Hc. now rewrite Hc, (IH Ha).
Qed.

Lemma all_chars_weaken (p q : ascii -> bool) (s : string) :
  (forall c, p c = true -> q c = true) -> all_chars p s = true -> all_chars q s = true.
Proof.
  intros Hpq. induction s as [|c s IH]; cbn; [reflexivity|].
  intros H. apply andb_prop in H as [Hc Hs]. now rewrite (Hpq c Hc), IH.
Qed.

Lemma word_or_hyphen_not_slash (c : ascii) :
  word_or_hyphen c = true -> negb (Ascii.eqb c "/") = true.
Proof.
  intros H. destruct (Ascii.eqb c "/") eqn:Hc; [|reflexivity].
  apply Ascii.eqb_eq in Hc. subst. discriminate.
Qed.

(** X13: An identifier of the bare form is its own name.  Every [OWNER/NAME],
    both parts being made of word characters and hyphens, is taken for a
    GitHub repository by [determine_repository_type], and
    [_parse_repo_spec] returns it as it is: none of the prefixes and
    suffixes that it removes occurs in it. *)
Theorem bare_identifier_is_its_name (s : string) :
  bare_form s ->
  determine_repository_type s = "github" /\ parse_repo_spec s = Ok s.
Proof.
  intros Hbare. split.
  { apply github_iff_remote_form. right. now left. }
  pose proof (bare_form_chars s Hbare) as Hchars.
  destruct Hbare as [owner [name [Ho [Hn ->]]]].
  apply is_segment_spec in Ho as [Hone Ho]. apply is_segment_spec in Hn as [Hnne Hn].
  set (p := fun c => (word_or_hyphen c || Ascii.eqb c "/")%bool) in Hchars.
  unfold parse_repo_spec.
  rewrite (replace_untouched p ":" "https://" "" _ eq_refl eq_refl Hchars).
  rewrite (replace_untouched p ":" "http://" "" _ eq_refl eq_refl Hchars).
  rewrite (replace_untouched p "." "github.com/" "" _ eq_refl eq_refl Hchars).
  rewrite (replace_untouched p "@" "git@github.com:" "" _ eq_refl eq_refl Hchars).
  rewrite (replace_untouched p "." ".git" "" _ eq_refl eq_refl Hchars).
  pose proof (all_chars_weaken _ _ _ word_or_hyphen_not_slash Ho) as Ho'.
  pose proof (all_chars_weaken _ _ _ word_or_hyphen_not_slash Hn) as Hn'.
  assert (strip_chars (Ascii.eqb "/") (owner ++ "/" ++ name) = owner ++ "/" ++ name) as ->.
  { unfold strip_chars.
    assert (lstrip (Ascii.eqb "/") (owner ++ "/" ++ name) = owner ++ "/" ++ name) as ->.
    { destruct owner as [|c owner]; [contradiction|].
      cbn [append lstrip]. cbn [all_chars] in Ho'. apply andb_prop in Ho' as [Hc _].
      apply negb_true_iff in Hc. rewrite Ascii.eqb_sym in Hc. now rewrite Hc. }
    rewrite <- append_assoc. apply rstrip_append; [exact Hnne|].
    apply rstrip_untouched.
    eapply all_chars_weaken; [|exact Hn'].
    intros c Hc. now rewrite Ascii.eqb_sym. }
  change (owner ++ "/" ++ name) with (owner ++ String "/" name).
  rewrite (split_append "/" owner name Ho'), (split_untouched "/" name Hn').
  change (owner ++ String "/" name) with (owner ++ "/" ++ name).
  rewrite contains_separator. reflexivity.
Qed.

Lemma bare_identifier_is_its_name_witness :
  determine_repository_type "acme/widget" = "github" /\
  parse_repo_spec "acme/widget" = Ok "acme/widget".
Proof.
  apply (bare_identifier_is_its_name "acme/widget").
  exists "acme", "widget". repeat split.
Defined.

(** ** Topics of a remote repository *)

Section Topics.

Variable builtin_str : value -> string.
Variable world : Type.
Variable run_gh : option string -> list string -> world -> process * world.
Variable toml_loads : string -> option dict.
Variable json_loads : string -> option value.
Variable b64decode_utf8 : string -> option string.
Variable self : GitHubChecker.

Ltac io_step H a w1 Ha := apply bind_io_inv in H as [a [w1 [Ha H]]].

Lemma topics_extend (repo : string) (r r' : ComplianceReport) (w w' : world) :
  check_repository_topics world run_gh json_loads self repo r w = Ok (r', w') ->
  exists c, extends r r' [c] /\ name c = "Repository Topics".
Proof.
  unfold check_repository_topics. intros H.
  io_step H repo_info w1 Hinfo.
  destruct repo_info as [info|];
    [destruct (truthy info);
     [io_step H topics w2 Htopics; io_step H items w3 Hitems; destruct (existsb _ items)|]|];
    apply ret_inv in H as [-> _]; eexists; (split; [apply extends_add_check | reflexivity]).
Qed.

(** X14: Whenever the topics rule returns, it has put one result named
    "Repository Topics" behind those of the report; a failed one is an
    error.  The result is a passed one exactly when the description of the
    repository could be fetched and one of its topics is one of the five
    required keywords. *)
Theorem topics_rule (repo : string) (r r' : ComplianceReport) (w w' : world) :
  check_repository_topics world run_gh json_loads self repo r w = Ok (r', w') ->
  exists c,
    extends r r' [c] /\
    name c = "Repository Topics" /\ category c = "Configuration" /\
    (passed c = false -> severity c = "error") /\
    (passed c = true <->
     exists info w1 topics items k,
       get_repo_info world run_gh json_loads self repo w = Ok (Some info, w1) /\
       get info "topics" (VList []) = Ok topics /\
       iterate topics = Ok items /\
       In k REQUIRED_KEYWORDS /\ In (VStr k) items).
Proof.
  unfold check_repository_topics. intros H.
  io_step H repo_info w1 Hinfo.
  assert (forall m,
            exists c,
              extends r (add_check r "Repository Topics" "Configuration" false m "error") [c] /\
              name c = "Repository Topics" /\ category c = "Configuration" /\
              (passed c = false -> severity c = "error") /\ passed c = false) as Hfailed.
  { intros m. eexists. split; [apply extends_add_check|]. now repeat split. }
  destruct repo_info as [info|].
  2:{ apply ret_inv in H as [-> ->].
      destruct (Hfailed "Could not fetch repository information") as [c [E [N [K [S P]]]]].
      exists c. split; [exact E|]. split; [exact N|]. split; [exact K|]. split; [exact S|].
      split; [intros Hp; congruence|].
      intros [info [w2 [topics [items [k [Hget _]]]]]]. congruence. }
  destruct (truthy info) eqn:Htruthy.
  2:{ apply ret_inv in H as [-> ->].
      destruct (Hfailed "Could not fetch repository information") as [c [E [N [K [S P]]]]].
      exists c. split; [exact E|]. split; [exact N|]. split; [exact K|]. split; [exact S|].
      split; [intros Hp; congruence|].
      intros [info' [w2 [topics [items [k [Hget [Htopics [Hitems [_ Hin]]]]]]]]].
      rewrite Hinfo in Hget. injection Hget as <- <-.
      destruct info as [| | | | | | |entries]; try discriminate.
      destruct entries; [|discriminate]. cbn in Htopics. injection Htopics as <-.
      cbn in Hitems. injection Hitems as <-. contradiction. }
  io_step H topics w2 Htopics. apply lift_inv in Htopics as [Htopics ->].
  io_step H items w3 Hitems. apply lift_inv in Hitems as [Hitems ->].
  destruct (existsb _ items) eqn:Hreq; apply ret_inv in H as [-> ->].
  - eexists. split; [apply extends_add_check|].
    split; [reflexivity|]. split; [reflexivity|]. split; [discriminate|].
    split; [|reflexivity].
    intros _. apply has_required_spec in Hreq as [k [Hk Hin]].
    exists info. eexists. exists topics, items, k.
    split; [exact Hinfo|]. now repeat split.
  - destruct (Hfailed ("Missing required GitHub topic. Should have one of: "
                         ++ join ", " REQUIRED_KEYWORDS)) as [c [E [N [K [S P]]]]].
    exists c. split; [exact E|]. split; [exact N|]. split; [exact K|]. split; [exact S|].
    split; [intros Hp; congruence|].
    intros [info' [w2 [topics' [items' [k [Hget [Ht [Hi [Hk Hin]]]]]]]]].
    rewrite Hinfo in Hget. injection Hget as <- <-.
    rewrite Htopics in Ht. injection Ht as <-.
    rewrite Hitems in Hi. injection Hi as <-.
    assert (existsb (fun topic => in_str_list topic REQUIRED_KEYWORDS) items = true)
      by (apply has_required_spec; now exists k).
    congruence.
Qed.

End Topics.

Lemma topics_rule_witness :
  exists r',
    check_repository_topics unit (fun _ _ w => (Completed "{}", w))
      (fun _ => Some (VDict [("topics", VList [VStr "python-lib"])])) gh_login "acme/widget"
      (new_report "https://github.com/acme/widget" "acme/widget" "github") tt = Ok (r', tt) /\
    exists c,
      extends (new_report "https://github.com/acme/widget" "acme/widget" "github") r' [c] /\
      name c = "Repository Topics".
Proof.
  eexists. split; [vm_compute; reflexivity|].
  destruct (topics_rule unit (fun _ _ w => (Completed "{}", w))
              (fun _ => Some (VDict [("topics", VList [VStr "python-lib"])])) gh_login
              "acme/widget" (new_report "https://github.com/acme/widget" "acme/widget" "github")
              _ tt tt eq_refl) as [c [E [N _]]].
  exists c. split; [exact E | exact N].
Defined.

(** ** Shape of the two reports *)

Section Reports.

Variable builtin_str : value -> string.
Variable resolve : string -> result path.
Variable exists_ : path -> result bool.
Variable is_dir : path -> result bool.
Variable glob : path -> string -> result (list string).
Variable read_text : path -> result string.
Variable toml_loads : string -> option dict.
Variable world : Type.
Variable run_gh : option string -> list string -> world -> process * world.
Variable json_loads : string -> option value.
Variable b64decode_utf8 : string -> option string.
Variable self : GitHubChecker.

Ltac io_step H a w1 Ha := apply bind_io_inv in H as [a [w1 [Ha H]]].

(** X15: The report of a remote scan.  Whenever [GitHubChecker.check_repository]
    returns, the report is named by the [OWNER/NAME] that
    [_parse_repo_spec] has made of the identifier (the whole of it, not its
    last part), its identifier is the address of the repository, its type
    is [github], no score is stored in it yet, and its 13 to 19 checks are,
    in this order: the version, four to ten results of the three middle
    rules, the keywords, the six results for the additional files, and the
    topics. *)
Theorem remote_report_shape (repo_spec : string) (r : ComplianceReport) (w w' : world) :
  github_check_repository builtin_str world run_gh toml_loads json_loads b64decode_utf8 self
    repo_spec w = Ok (r, w') ->
  exists repo version rules keywords files topics,
    parse_repo_spec repo_spec = Ok repo /\
    repo_identifier r = "https://github.com/" ++ repo /\
    repo_name r = repo /\
    repo_type r = "github" /\
    metadata r = [] /\
    checks r = (version :: rules ++ [keywords] ++ files ++ [topics])%list /\
    name version = "Python Version" /\
    (4 <= List.length rules <= 10)%nat /\ named_in rule_names rules /\
    name keywords = "Repository Keywords" /\
    map name files = file_stages /\
    name topics = "Repository Topics" /\
    13 <= total_checks r <= 19.
Proof.
  unfold github_check_repository. intros H.
  io_step H repo w1 Hrepo. apply lift_inv in Hrepo as [Hrepo ->].
  cbv zeta in H.
  io_step H config w2 Hconfig.
  io_step H r1 w3 H1. apply lift_inv in H1 as [H1 ->].
  io_step H r2 w4 H2.
  apply standard_checks_extend in H1 as [version [rules [keywords [E1 [Nv [Nk [L N]]]]]]].
  apply remote_files_extend in H2
    as [readme [srd [lock [manager [ruff [sonar [E2 [Nf _]]]]]]]].
  apply topics_extend in H as [topics [E3 Nt]].
  pose proof (extends_trans _ _ _ _ _ (extends_trans _ _ _ _ _ E1 E2) E3) as E.
  destruct E as [Hi [Hn [Hty [Hm Hc]]]]. cbn [new_report checks app] in Hi, Hn, Hty, Hm, Hc.
  exists repo, version, rules, keywords, [readme; srd; lock; manager; ruff; sonar], topics.
  split; [exact Hrepo|]. split; [exact Hi|]. split; [exact Hn|]. split; [exact Hty|].
  split; [exact Hm|].
  assert (checks r =
            (version :: rules ++ [keywords] ++ [readme; srd; lock; manager; ruff; sonar]
               ++ [topics])%list) as Hchecks.
  { rewrite Hc. cbn [app]. rewrite <- !app_assoc. reflexivity. }
  split; [exact Hchecks|]. split; [exact Nv|]. split; [exact L|]. split; [exact N|].
  split; [exact Nk|]. split; [exact Nf|]. split; [exact Nt|].
  unfold total_checks. rewrite Hchecks. cbn [List.length].
  rewrite !length_app. cbn [List.length]. lia.
Qed.

(** X16: The report of a local scan.  Whenever [LocalChecker.check_repository]
    returns, the report bears the resolved path as its identifier and the
    last part of that path as its name, its type is [local], and no score
    is stored in it yet.  Its checks are either the single result that the
    path is not a directory, or, for a directory, 11 to 20 results in this
    order: the version, four to ten results of the three middle rules, the
    keywords, and the five to eight results for the additional files. *)
Theorem local_report_shape (target : string) (r : ComplianceReport) :
  local_check_repository builtin_str resolve exists_ is_dir glob read_text toml_loads target
    = Ok r ->
  exists p,
    resolve target = Ok p /\
    repo_identifier r = path_str p /\
    repo_name r = path_name p /\
    repo_type r = "local" /\
    metadata r = [] /\
    (checks r = [no_access p] \/
     exists version rules keywords files poetry claude tracking,
       exists_ p = Ok true /\ is_dir p = Ok true /\
       checks r = (version :: rules ++ [keywords] ++ files)%list /\
       name version = "Python Version" /\
       (4 <= List.length rules <= 10)%nat /\ named_in rule_names rules /\
       name keywords = "Repository Keywords" /\
       map name files = local_file_stages poetry claude tracking /\
       11 <= total_checks r <= 20).
Proof.
  unfold local_check_repository. intros H.
  ok_step H p Hp. cbv zeta in H. ok_step H unusable Hun.
  exists p. split; [exact Hp|].
  destruct unusable.
  { injection H as <-. repeat split. now left. }
  assert (exists_ p = Ok true /\ is_dir p = Ok true) as [Hex Hdir].
  { unfold or_else, not_ in Hun.
    destruct (exists_ p) as [[|]|]; cbn in Hun; try discriminate.
    destruct (is_dir p) as [[|]|]; cbn in Hun; try discriminate. now split. }
  ok_step H config Hconfig. ok_step H r1 H1.
  apply standard_checks_extend in H1 as [version [rules [keywords [E1 [Nv [Nk [L N]]]]]]].
  apply local_files_extend in H
    as [poetry [claude [tracking [files [_ [_ [_ [E2 [Nf _]]]]]]]]].
  pose proof (extends_trans _ _ _ _ _ E1 E2) as E.
  destruct E as [Hi [Hn [Hty [Hm Hc]]]]. cbn [new_report checks app] in Hi, Hn, Hty, Hm, Hc.
  split; [exact Hi|]. split; [exact Hn|]. split; [exact Hty|]. split; [exact Hm|].
  right. exists version, rules, keywords, files, poetry, claude, tracking.
  assert (checks r = (version :: rules ++ [keywords] ++ files)%list) as Hchecks
    by (rewrite Hc; cbn [app]; rewrite <- !app_assoc; reflexivity).
  split; [exact Hex|]. split; [exact Hdir|]. split; [exact Hchecks|].
  split; [exact Nv|]. split; [exact L|]. split; [exact N|]. split; [exact Nk|].
  split; [exact Nf|].
  pose proof (local_file_stages_length poetry claude tracking) as Lf.
  rewrite <- Nf, length_map in Lf.
  unfold total_checks. rewrite Hchecks. cbn [List.length].
  rewrite !length_app. cbn [List.length]. lia.
Qed.

End Reports.

Lemma remote_report_shape_witness :
  exists r,
    github_check_repository (fun _ => "") unit timed_out (fun _ => None) (fun _ => None)
      (fun _ => None) gh_login "acme/widget" tt = Ok (r, tt) /\
    repo_name r = "acme/widget" /\ 13 <= total_checks r <= 19.
Proof.
  eexists. split; [vm_compute; reflexivity|].
  destruct (remote_report_shape (fun _ => "") (fun _ => None) unit timed_out (fun _ => None)
              (fun _ => None) gh_login "acme/widget" _ tt tt eq_refl)
    as (repo & version & rules & keywords & files & topics
        & Hrepo & _ & Hname & _ & _ & _ & _ & _ & _ & _ & _ & _ & Htotal).
  split; [reflexivity | exact Htotal].
Defined.

Lemma local_report_shape_witness :
  exists r p,
    local_check_repository (fun _ => "") nowhere
      (fun p => Ok (Nat.eqb (List.length p) 3)) (fun p => Ok (Nat.eqb (List.length p) 3))
      (fun _ _ => Ok []) (fun _ => Raise OSError) (fun _ => None) "project" = Ok r /\
    nowhere "project" = Ok p /\
    repo_name r = path_name p.
Proof.
  eexists. 
  destruct (local_report_shape (fun _ => "") nowhere
              (fun p => Ok (Nat.eqb (List.length p) 3)) (fun p => Ok (Nat.eqb (List.length p) 3))
              (fun _ _ => Ok []) (fun _ => Raise OSError) (fun _ => None) "project" _
              ltac:(vm_compute; reflexivity))
    as [p [Hp [_ [Hname _]]]].
  exists p. split; [reflexivity|]. split; [exact Hp | exact Hname].
Defined.

(** ** A manifest that cannot be used *)

Section Manifest.

Variable builtin_str : value -> string.
Variable resolve : string -> result path.
Variable exists_ : path -> result bool.
Variable is_dir : path -> result bool.
Variable glob : path -> string -> result (list string).
Variable read_text : path -> result string.
Variable toml_loads : string -> option dict.



End Manifest.

